(** * UA-Clarity-Tools: the lineage and mapping engine of [StepTools]

    A shallow embedding of [ua_clarity_tools.py]: the step-detail documents
    are trees of tags, the transport is a function from the requested URIs
    to the parsed reply, Python exceptions are an error monad, and the
    [results] accumulator of [get_artifacts_previous_step] is a dictionary
    of references into a store of lists, because the source keeps one
    dictionary object alive between calls and appends to lists in place. *)

From Stdlib Require Import ZArith Ascii String.
From stdpp Require Import gmap strings list fin_maps pretty.

Open Scope string_scope.
Open Scope list_scope.

(** ** Python outcomes *)

Module Py.

(** The exceptions the modelled code can raise.  [TransportError] stands for
    whatever the transport collaborator raises. *)
Inductive exn : Type :=
| AttributeError
| KeyError (key : string)
| TypeError
| UnboundLocalError (var : string)
| RuntimeError (msg : string)
| TransportError (msg : string).

Inductive outcome (A : Type) : Type :=
| Return (a : A)
| Raise (e : exn).
Arguments Return {A} a.
Arguments Raise {A} e.

#[export] Instance outcome_ret : MRet outcome := @Return.
#[export] Instance outcome_bind : MBind outcome :=
  fun A B f m => match m with Return a => f a | Raise e => Raise e end.

#[export] Instance outcome_fmap : FMap outcome :=
  fun A B f m => match m with Return a => Return (f a) | Raise e => Raise e end.

Definition raises {A} (m : outcome A) : Prop :=
  match m with Raise _ => True | Return _ => False end.

(** [o.attr] or [o[key]] on a value that may be [None]: the first raises
    AttributeError, the second TypeError. *)
Definition attr_of {A} (o : option A) : outcome A :=
  match o with Some a => Return a | None => Raise AttributeError end.
Definition subscript_of {A} (o : option A) : outcome A :=
  match o with Some a => Return a | None => Raise TypeError end.

(** [for x in xs: acc = body(acc, x)], stopping at the first exception. *)
Fixpoint for_each {A S} (body : S → A → outcome S) (xs : list A) (acc : S)
  : outcome S :=
  match xs with
  | [] => Return acc
  | x :: xs' => acc' ← body acc x; for_each body xs' acc'
  end.

(** A list comprehension whose element expression can raise. *)
Fixpoint comprehension {A B} (f : A → outcome B) (xs : list A)
  : outcome (list B) :=
  match xs with
  | [] => Return []
  | x :: xs' => y ← f x; ys ← comprehension f xs'; Return (y :: ys)
  end.

End Py.
Export Py.

(** ** Documents: what the code sees of a BeautifulSoup tree *)

Module Soup.

#[warnings="-register-all"]
Inductive node : Type :=
| Elem (tag : string) (attrs : list (string * string)) (children : list node)
| Text (s : string).

Definition path := list nat.

Definition is_elem (n : node) : bool :=
  match n with Elem _ _ _ => true | Text _ => false end.

(** [s.split(c)[0]] and the part of [s] after the first [c]. *)
Fixpoint before_char (c : ascii) (s : string) : string :=
  match s with
  | EmptyString => EmptyString
  | String a s' =>
      if Ascii.eqb a c then EmptyString else String a (before_char c s')
  end.

Fixpoint after_char (c : ascii) (s : string) : option string :=
  match s with
  | EmptyString => None
  | String a s' => if Ascii.eqb a c then Some s' else after_char c s'
  end.

(** [uri.split('?')[0]] *)
Definition strip_query (uri : string) : string := before_char "?" uri.

(** A tag is found under its qualified name ([art:artifact]) and under its
    local name ([artifact]); the source relies on both. *)
Definition local_name (nm : string) : string :=
  default nm (after_char ":" nm).

Definition name_matches (q : string) (n : node) : bool :=
  match n with
  | Elem nm _ _ => String.eqb q nm || String.eqb q (local_name nm)
  | Text _ => false
  end.

(** [find(attrs={k: v})] *)
Fixpoint assoc (k : string) (kvs : list (string * string)) : option string :=
  match kvs with
  | [] => None
  | (k', v) :: kvs' => if String.eqb k k' then Some v else assoc k kvs'
  end.

Definition attr_matches (k v : string) (n : node) : bool :=
  match n with
  | Elem _ a _ => match assoc k a with Some v' => String.eqb v v' | None => false end
  | Text _ => false
  end.

Definition under (i : nat) (pn : path * node) : path * node :=
  (i :: pn.1, pn.2).

(** All tags at or below [n], in document order, each with the path that
    leads to it from [n]. *)
Fixpoint subtags (n : node) : list (path * node) :=
  match n with
  | Text _ => []
  | Elem _ _ cs =>
      ([], n) ::
      (fix go (i : nat) (l : list node) : list (path * node) :=
         match l with
         | [] => []
         | c :: l' => map (under i) (subtags c) ++ go (S i) l'
         end) 0 cs
  end.

Fixpoint subtags_list (i : nat) (l : list node) : list (path * node) :=
  match l with
  | [] => []
  | c :: l' => map (under i) (subtags c) ++ subtags_list (S i) l'
  end.

(** The tags strictly below [n]: what [find] and [find_all] search. *)
Definition descendants (n : node) : list (path * node) :=
  match n with
  | Elem _ _ cs => subtags_list 0 cs
  | Text _ => []
  end.

Definition find_all_by (p : node → bool) (n : node) : list (path * node) :=
  filter (λ pn, p pn.2 = true) (descendants n).

Definition find_by (p : node → bool) (n : node) : option (path * node) :=
  head (find_all_by p n).

(** [n.find_all(q)] and [n.find(q)] *)
Definition find_all (q : string) (n : node) : list node :=
  (find_all_by (name_matches q) n).*2.

Definition find (q : string) (n : node) : option node :=
  snd <$> find_by (name_matches q) n.

(** [tag[k]]: KeyError when the attribute is missing. *)
Definition get_attr (k : string) (n : node) : outcome string :=
  match n with
  | Elem _ a _ =>
      match assoc k a with Some v => Return v | None => Raise (KeyError k) end
  | Text _ => Raise (KeyError k)
  end.

(** [tag.text]: every string below the tag, concatenated. *)
Fixpoint text (n : node) : string :=
  match n with
  | Text s => s
  | Elem _ _ cs =>
      (fix go (l : list node) : string :=
         match l with
         | [] => ""
         | c :: l' => text c +:+ go l'
         end) cs
  end.

(** The subtree a path leads to. *)
Fixpoint get_at (π : path) (n : node) : option node :=
  match π with
  | [] => Some n
  | i :: π' =>
      match n with
      | Elem _ _ cs => c ← cs !! i; get_at π' c
      | Text _ => None
      end
  end.

(** In-place change of the subtree at [π]. *)
Fixpoint set_at (π : path) (f : node → node) (n : node) : node :=
  match π with
  | [] => f n
  | i :: π' =>
      match n with
      | Elem t a cs => Elem t a (alter (set_at π' f) i cs)
      | Text s => Text s
      end
  end.

(** [tag.string = s] replaces the children of the tag by one string. *)
Definition set_string (s : string) (n : node) : node :=
  match n with
  | Elem t a _ => Elem t a [Text s]
  | Text _ => Text s
  end.

(** [target.insert_after(new)], [target] being the tag at [π]: [new]
    becomes the next sibling of [target]. *)
Fixpoint insert_after_at (π : path) (new : node) (n : node) : node :=
  match π, n with
  | [i], Elem t a cs => Elem t a (take (S i) cs ++ new :: drop (S i) cs)
  | i :: π', Elem t a cs => Elem t a (alter (insert_after_at π' new) i cs)
  | _, _ => n
  end.

(** The path of the tag [insert_after_at] adds. *)
Fixpoint sibling_after (π : path) : path :=
  match π with
  | [] => []
  | [i] => [S i]
  | i :: π' => i :: sibling_after π'
  end.

(** Two positions of which neither is above the other. *)
Definition apart (π π' : path) : Prop :=
  ¬ π `prefix_of` π' ∧ ¬ π' `prefix_of` π.

(** A search criterion that looks at the name and the attributes of a tag
    only, as [find(name)] and [find(attrs=...)] do. *)
Definition shallow (p : node → bool) : Prop :=
  ∀ t a cs cs', p (Elem t a cs) = p (Elem t a cs').

(** The first match at or below a tag, and below a list of siblings
    numbered from [k]. *)
Definition first_in (p : node → bool) (n : node) : option (path * node) :=
  head (filter (λ pn, p pn.2 = true) (subtags n)).

Definition first_in_list (p : node → bool) (k : nat) (cs : list node)
  : option (path * node) :=
  head (filter (λ pn, p pn.2 = true) (subtags_list k cs)).

End Soup.
Export Soup.

(** ** The transport collaborator *)

(** What the code passes to [self.api.get]: a URI, a list of URIs, or the
    [None] of an artifact without container. *)
Inductive pyarg : Type :=
| ArgNone
| ArgStr (u : string)
| ArgList (us : list string).

(** ** The IO map builder: [get_artifacts] and [get_artifact_map] *)

Module IOMap.

Record Artifact : Type := mkArtifact {
  name : option string;
  uri : option string;
  art_type : option string;
  sample_uri : option string;
  container_uri : option string;
  container_name : option string;
  container_type : option string;
  location : option string;
  parent_process : option string;
  reagent_label : option string;
  udf : gmap string string
}.

(** The [Hashable_Artifact] built from [astuple(art)] without its last
    component: every field but the UDF map. *)
Definition Hashable_Artifact : Type :=
  (option string * option string * option string * option string *
   option string * option string * option string * option string *
   option string * option string)%type.

Definition astuple_but_udf (a : Artifact) : Hashable_Artifact :=
  (name a, uri a, art_type a, sample_uri a, container_uri a,
   container_name a, container_type a, location a, parent_process a,
   reagent_label a).

(** A key or an element of the returned map: a URI or a hashable artifact. *)
Inductive map_item : Type :=
| UriItem (u : string)
| ArtItem (a : Hashable_Artifact).

#[global] Instance map_item_eq_dec : EqDecision map_item.
Proof. solve_decision. Defined.

#[global] Instance map_item_countable : Countable map_item.
Proof.
  refine (inj_countable'
            (λ x, match x with UriItem u => inl u | ArtItem a => inr a end)
            (λ y, match y with inl u => UriItem u | inr a => ArtItem a end) _).
  by intros [].
Defined.

(** An element of the list [get_artifacts] returns. *)
Inductive art_item : Type :=
| ArtUri (u : option string)
| ArtObj (a : Artifact).

Definition set_container_info (cn ct : option string) (a : Artifact)
  : Artifact :=
  mkArtifact (name a) (uri a) (art_type a) (sample_uri a) (container_uri a)
             cn ct (location a) (parent_process a) (reagent_label a) (udf a).

Section WithTransport.

(** [BeautifulSoup(self.api.get(arg), "xml")]: the parsed reply, or the
    exception of the transport. *)
Variable api_get : pyarg → outcome node.

(** The order in which Python iterates over the set built from a list. *)
Variable set_iter : list string → list string.

(** The URIs of the [stream] side of the step: the first loop of
    [get_artifacts]. *)
Definition stream_uris (stream : string) (step_soup : node)
  : outcome (list string) :=
  for_each
    (λ art_uris iomap,
       match find stream iomap with
       | None => Return art_uris
       | Some target =>
           if String.eqb stream "output" then
             gen ← get_attr "output-generation-type" target;
             if String.eqb gen "PerInput" then
               u ← get_attr "uri" target; Return (art_uris ++ [u])
             else Return art_uris
           else
             u ← get_attr "uri" target; Return (art_uris ++ [u])
       end)
    (find_all "input-output-map" step_soup) [].

(** One [Artifact] from its record in the batch reply, with the container
    URI it adds to [con_uris]. *)
Definition read_artifact (artifact_data : node) : outcome Artifact :=
  nm ← text <$> attr_of (find "name" artifact_data);
  u ← strip_query <$> get_attr "uri" artifact_data;
  ty ← text <$> attr_of (find "type" artifact_data);
  smp ← subscript_of (find "sample" artifact_data) ≫= get_attr "uri";
  label ← match find "reagent-label" artifact_data with
          | Some reagent_label => Some <$> get_attr "name" reagent_label
          | None => Return None
          end;
  loc ← match find "location" artifact_data with
        | Some location => Some ∘ text <$> attr_of (find "value" location)
        | None => Return None
        end;
  con ← match find "container" artifact_data with
        | Some container => Some <$> get_attr "uri" container
        | None => Return None
        end;
  _ ← match find "parent-process" artifact_data with
      | Some parent_process => Some <$> get_attr "uri" parent_process
      | None => Return None
      end;
  udfs ← for_each
           (λ (m : gmap string string) udf_data,
              k ← get_attr "name" udf_data;
              Return (<[k := text udf_data]> m))
           (find_all "udf:field" artifact_data) ∅;
  Return (mkArtifact (Some nm) (Some u) (Some ty) (Some smp) con None None
                     loc None label udfs).

Definition get_artifacts (stream : string) (uri_only container_info : bool)
    (step_soup : node) : outcome (list art_item) :=
  art_uris ← stream_uris stream step_soup;
  match art_uris with
  | [] => Return []
  | _ =>
      batch_artifacts ← api_get (ArgList art_uris);
      arts ← comprehension read_artifact (find_all "artifact" batch_artifacts);
      let con_uris := omap container_uri arts in
      if negb uri_only && container_info
         && bool_decide (con_uris ≠ []) then
        con_soups ← api_get (ArgList (set_iter con_uris));
        con_uri_info ←
          for_each
            (λ (m : gmap string (string * string)) soup,
               nm ← text <$> attr_of (find "name" soup);
               ty ← subscript_of (find "type" soup) ≫= get_attr "name";
               u ← get_attr "uri" soup;
               Return (<[u := (nm, ty)]> m))
            (find_all "con:container" con_soups) ∅;
        comprehension
          (λ art,
             info ← attr_of (container_uri art ≫= (con_uri_info !!.));
             Return (ArtObj (set_container_info (Some info.1) (Some info.2)
                                                art)))
          arts
      else
        Return ((λ art, if uri_only then ArtUri (uri art) else ArtObj art)
                  <$> arts)
  end.

(** [{art.uri: art for art in self.get_artifacts(stream)}] *)
Definition uri_art (stream : string) (step_soup : node)
  : outcome (gmap (option string) Artifact) :=
  arts ← get_artifacts stream false false step_soup;
  Return (foldl (λ m it, match it with
                         | ArtObj a => <[uri a := a]> m
                         | ArtUri _ => m
                         end) ∅ arts).

(** A local variable that is only bound on some paths. *)
Definition local_var {A} (var : string) (v : option A) : outcome A :=
  match v with Some a => Return a | None => Raise (UnboundLocalError var) end.

(** [d[k]] on a dictionary: KeyError when the key is missing. *)
Definition dict_get {A} (d : gmap (option string) A) (k : string)
  : outcome A :=
  match d !! Some k with Some a => Return a | None => Raise (KeyError k) end.

(** [m.setdefault(k, list()); m[k].append(v)] *)
Definition append_to (k v : map_item) (m : gmap map_item (list map_item))
  : gmap map_item (list map_item) :=
  <[k := default [] (m !! k) ++ [v]]> m.

(** The lines that enrich one artifact of a lookup table with the name and
    type of its container. *)
Definition enrich (var : string)
    (table : option (gmap (option string) Artifact)) (art_uri : string)
  : outcome (option (gmap (option string) Artifact)) :=
  d ← local_var var table;
  art ← dict_get d art_uri;
  con_soup ← api_get (match container_uri art with
                      | Some u => ArgStr u
                      | None => ArgNone
                      end);
  con_name ← text <$> attr_of (find "name" con_soup);
  con_type ← subscript_of (find "type" con_soup) ≫= get_attr "name";
  Return (Some (<[Some art_uri :=
                    set_container_info (Some con_name) (Some con_type) art]>
                  d)).

Definition hashable (var : string)
    (table : option (gmap (option string) Artifact)) (art_uri : string)
  : outcome map_item :=
  d ← local_var var table;
  art ← dict_get d art_uri;
  Return (ArtItem (astuple_but_udf art)).

(** The state of the loop of [get_artifact_map]: both lookup tables (not
    bound when [uri_only]) and the map under construction. *)
Record map_state : Type := mkMapState {
  input_uri_art : option (gmap (option string) Artifact);
  output_uri_art : option (gmap (option string) Artifact);
  artifact_map : gmap map_item (list map_item)
}.

Definition map_step (uri_only container_info : bool) (st : map_state)
    (io_map : node) : outcome map_state :=
  gen ← subscript_of (find "output" io_map)
        ≫= get_attr "output-generation-type";
  if String.eqb gen "PerInput" then
    input_uri ← subscript_of (find "input" io_map) ≫= get_attr "uri";
    output_uri ← subscript_of (find "output" io_map) ≫= get_attr "uri";
    if uri_only && negb container_info then
      Return (mkMapState (input_uri_art st) (output_uri_art st)
                (append_to (UriItem input_uri) (UriItem output_uri)
                           (artifact_map st)))
    else
      ins ← (if container_info
             then enrich "input_uri_art" (input_uri_art st) input_uri
             else Return (input_uri_art st));
      outs ← (if container_info
              then enrich "output_uri_art" (output_uri_art st) output_uri
              else Return (output_uri_art st));
      input_art ← hashable "input_uri_art" ins input_uri;
      output_art ← hashable "output_uri_art" outs output_uri;
      Return (mkMapState ins outs
                (append_to input_art output_art (artifact_map st)))
  else Return st.

Definition get_artifact_map (uri_only container_info : bool)
    (step_soup : node) : outcome (gmap map_item (list map_item)) :=
  tables ← (if negb uri_only then
              ins ← uri_art "input" step_soup;
              outs ← uri_art "output" step_soup;
              Return (Some ins, Some outs)
            else Return (None, None));
  st ← for_each (map_step uri_only container_info)
         (find_all "input-output-map" step_soup)
         (mkMapState tables.1 tables.2 ∅);
  Return (artifact_map st).

End WithTransport.

(** The relations of a step that the builder keeps. *)
Definition is_per_input (io_map : node) : bool :=
  match find "output" io_map with
  | Some output_soup =>
      match get_attr "output-generation-type" output_soup with
      | Return gen => String.eqb gen "PerInput"
      | Raise _ => false
      end
  | None => false
  end.

(** The (input, output) pair of URIs of a relation. *)
Definition uri_pair (io_map : node) : option (map_item * map_item) :=
  match find "input" io_map, find "output" io_map with
  | Some i, Some o =>
      match get_attr "uri" i, get_attr "uri" o with
      | Return a, Return b => Some (UriItem a, UriItem b)
      | _, _ => None
      end
  | _, _ => None
  end.

Definition per_input_uri_pair (io_map : node)
  : option (map_item * map_item) :=
  if is_per_input io_map then uri_pair io_map else None.

(** Every (key, element) pair of the returned map. *)
Definition pairs (m : gmap map_item (list map_item))
  : list (map_item * map_item) :=
  kvs ← map_to_list m; (λ v, (kvs.1, v)) <$> kvs.2.

End IOMap.

(** ** UDF typing: [set_artifact_udf] *)

Module Udf.

(** The Python values a UDF can carry.  A float and a value of any other
    class come with the text [str] gives for them. *)
Inductive pyvalue : Type :=
| PyBool (b : bool)
| PyInt (z : Z)
| PyFloat (repr : string)
| PyStr (s : string)
| PyOther (repr : string).

(** [isinstance(v, bool)], [isinstance(v, int)] ([bool] is a subclass of
    [int]) and [isinstance(v, float)]. *)
Definition isinstance_bool (v : pyvalue) : bool :=
  match v with PyBool _ => true | _ => false end.
Definition isinstance_int (v : pyvalue) : bool :=
  match v with PyBool _ | PyInt _ => true | _ => false end.
Definition isinstance_float (v : pyvalue) : bool :=
  match v with PyFloat _ => true | _ => false end.

(** [str(v)] *)
Definition str (v : pyvalue) : string :=
  match v with
  | PyBool true => "True"
  | PyBool false => "False"
  | PyInt z => pretty z
  | PyFloat repr => repr
  | PyStr s => s
  | PyOther repr => repr
  end.

(** The namedtuple the caller passes for each field. *)
Record UDF : Type := mkUDF { name : string; value : pyvalue }.

Definition infer_udf_type (v : pyvalue) : string :=
  if isinstance_bool v then "Boolean"
  else if isinstance_int v || isinstance_float v then "Numeric"
  else "String".

(** The new tag of a field that does not exist yet. *)
Definition udf_tag (udf : UDF) : node :=
  Elem "udf:field"
       [("name", name udf); ("type", infer_udf_type (value udf))]
       [Text (str (value udf))].

(** The body of the loop over the fields of one artifact. *)
Definition set_udf (art : node) (udf : UDF) : outcome node :=
  match find_by (attr_matches "name" (name udf)) art with
  | Some target_udf =>
      Return (set_at target_udf.1 (set_string (str (value udf))) art)
  | None =>
      sample ← attr_of (find_by (name_matches "sample") art);
      Return (insert_after_at sample.1 (udf_tag udf) art)
  end.

Section WithTransport.

Variable api_get : pyarg → outcome node.

(** The artifacts queued for the batch update, before they are rendered.
    The artifacts of a batch reply are siblings, so each one is updated on
    its own. *)
Definition set_artifact_udf (sample_values : gmap string (list UDF))
    (stream : string) (step_soup : node) : outcome (list node) :=
  art_uris ← comprehension
               (λ iomap, subscript_of (find stream iomap) ≫= get_attr "uri")
               (find_all "input-output-map" step_soup);
  art_soups ← api_get (ArgList art_uris);
  for_each
    (λ art_queue art,
       limsid ← get_attr "limsid" art;
       match sample_values !! limsid with
       | Some udfs =>
           art' ← for_each set_udf udfs art;
           Return (art_queue ++ [art'])
       | None => Return art_queue
       end)
    (find_all "art:artifact" art_soups) [].

End WithTransport.

End Udf.

(** ** The lineage resolver: [get_artifacts_previous_step] *)

Module Lineage.

Record PreviousStepArtifact : Type := mkPSA {
  uri : string;
  art_type : string;
  generation_type : string
}.

#[global] Instance PreviousStepArtifact_eq_dec : EqDecision PreviousStepArtifact.
Proof. solve_decision. Defined.

(** The lists the resolver appends to live in a store and are named by
    their index; a dictionary holds references to them. *)
Abbreviation loc := nat (only parsing).

Record store : Type := mkStore {
  lists : list (list PreviousStepArtifact);
  results : gmap string loc
}.

(** The dictionary made once, when the function is defined, for the default
    of [results]. *)
Definition fresh : store := mkStore [] ∅.

(** The mapping a caller reads from the returned dictionary. *)
Definition read (st : store) : gmap string (list PreviousStepArtifact) :=
  (λ l, default [] (lists st !! l)) <$> results st.

(** What the call returns: [None], or the [results] object it was given. *)
Inductive retval : Type :=
| RetNone
| RetResults.

(** [d.setdefault(k, []).append(x)] *)
Definition setdefault_append (k : string) (x : PreviousStepArtifact)
    (hd : list (list PreviousStepArtifact) * gmap string loc)
  : list (list PreviousStepArtifact) * gmap string loc :=
  match hd.2 !! k with
  | Some l => (alter (λ xs, xs ++ [x]) l hd.1, hd.2)
  | None => (hd.1 ++ [[x]], <[k := length hd.1]> hd.2)
  end.

Definition history_exhausted (step_name : string) : exn :=
  RuntimeError
    ("The target_step is not in one or more of your art_smp_uris histories. "
     +:+ "The earliest step is " +:+ step_name).

Definition misaligned (initial_art_uri : string) : exn :=
  RuntimeError
    ("The artifact " +:+ initial_art_uri +:+ " did not run at the"
     +:+ " same time as the other samples passed in.").

(** The name of the step: its [configuration] tag or, without one, its
    [type] tag. *)
Definition step_name_of (step_soup : node) : outcome string :=
  match text <$> attr_of (find "configuration" step_soup) with
  | Raise AttributeError => text <$> attr_of (find "type" step_soup)
  | r => r
  end.

(** The relations of the match step as [PreviousStepArtifact]s, PerInput
    ResultFiles skipped. *)
Definition target_arts_of (stream : string) (step_soup : node)
  : outcome (list PreviousStepArtifact) :=
  for_each
    (λ target_arts iomap,
       art_uri ← strip_query <$>
                 (subscript_of (find stream iomap) ≫= get_attr "uri");
       art_type ← subscript_of (find "output" iomap)
                  ≫= get_attr "output-type";
       art_generation_type ← subscript_of (find "output" iomap)
                             ≫= get_attr "output-generation-type";
       if String.eqb art_generation_type "PerInput"
          && String.eqb art_type "ResultFile"
       then Return target_arts
       else Return (target_arts
                    ++ [mkPSA art_uri art_type art_generation_type]))
    (find_all "input-output-map" step_soup) [].

(** The sample URI of every hydrated target artifact, mapped to the list of
    its [PreviousStepArtifact]s: [target_smp_arts]. *)
Definition index_targets (target_arts : list PreviousStepArtifact)
    (all_target_soup : node) (h : list (list PreviousStepArtifact))
  : outcome (list (list PreviousStepArtifact) * gmap string loc) :=
  for_each
    (λ acc art,
       for_each
         (λ acc target_art,
            u ← get_attr "uri" art;
            if String.eqb (strip_query u) (uri target_art) then
              smp ← subscript_of (find "sample" art) ≫= get_attr "uri";
              Return (setdefault_append smp target_art acc)
            else Return acc)
         target_arts acc)
    (find_all "art:artifact" all_target_soup) (h, ∅).

(** [results[initial_art_uri] = target_smp_arts[initial_smp_uri]] for every
    item; what was assigned before a failure stays assigned. *)
Fixpoint assign_results (target_smp_arts : gmap string loc)
    (items : list (string * string)) (res : gmap string loc)
  : outcome () * gmap string loc :=
  match items with
  | [] => (Return (), res)
  | (initial_art_uri, initial_smp_uri) :: items' =>
      match target_smp_arts !! initial_smp_uri with
      | Some l => assign_results target_smp_arts items'
                                 (<[initial_art_uri := l]> res)
      | None => (Raise (misaligned initial_art_uri), res)
      end
  end.

(** The last loop: every retained ResultFile goes under ['shared']. *)
Definition add_shared (target_arts : list PreviousStepArtifact)
    (hd : list (list PreviousStepArtifact) * gmap string loc)
  : list (list PreviousStepArtifact) * gmap string loc :=
  foldl (λ acc art,
           if String.eqb (art_type art) "ResultFile"
           then setdefault_append "shared" art acc
           else acc)
        hd target_arts.

(** A PerInput ResultFile: what the match step skips. *)
Definition skipped (x : PreviousStepArtifact) : bool :=
  String.eqb (generation_type x) "PerInput"
  && String.eqb (art_type x) "ResultFile".

(** One relation read as a [PreviousStepArtifact]. *)
Definition relation_of (stream : string) (iomap : node)
  : outcome PreviousStepArtifact :=
  art_uri ← strip_query <$>
            (subscript_of (find stream iomap) ≫= get_attr "uri");
  art_type ← subscript_of (find "output" iomap) ≫= get_attr "output-type";
  art_generation_type ← subscript_of (find "output" iomap)
                        ≫= get_attr "output-generation-type";
  Return (mkPSA art_uri art_type art_generation_type).

(** No list of the store holds a PerInput ResultFile. *)
Definition clean (h : list (list PreviousStepArtifact)) : Prop :=
  Forall (Forall (λ x, skipped x = false)) h.

(** The retained ResultFiles: what the last loop puts under ['shared']. *)
Definition result_files (target_arts : list PreviousStepArtifact)
  : list PreviousStepArtifact :=
  filter (λ x, art_type x = "ResultFile") target_arts.

Section WithTransport.

Variable api_get : pyarg → outcome node.
Variable set_iter : list string → list string.

(** The [else] branch of the source: the step is the one looked for. *)
Definition match_step (stream : string) (art_smp_uris : list (string * string))
    (step_soup : node) (st : store) : outcome retval * store :=
  match target_arts_of stream step_soup with
  | Raise e => (Raise e, st)
  | Return target_arts =>
      match api_get (ArgList (uri <$> target_arts)) with
      | Raise e => (Raise e, st)
      | Return all_target_soup =>
          match index_targets target_arts all_target_soup (lists st) with
          | Raise e => (Raise e, st)
          | Return (h, target_smp_arts) =>
              match assign_results target_smp_arts art_smp_uris
                                   (results st) with
              | (Raise e, res) => (Raise e, mkStore h res)
              | (Return _, res) =>
                  let hd := add_shared target_arts (h, res) in
                  (Return RetResults, mkStore hd.1 hd.2)
              end
          end
      end
  end.

(** The parent processes of the inputs of the step: [prev_steps], before
    it is made a set. *)
Definition prev_steps_of (all_input_soup : node) : outcome (list string) :=
  comprehension (get_attr "uri") (find_all "parent-process" all_input_soup).

(** [get_artifacts_previous_step].  [art_smp_uris] is the sequence of the
    items of the dictionary; the store holds the [results] object.  The
    recursion follows the remote history, which the fuel bounds: the result
    is [None] when the fuel runs out. *)
Fixpoint get_artifacts_previous_step (fuel : nat) (dest_step stream : string)
    (art_smp_uris : list (string * string)) (step_soup : node) (st : store)
  : option (outcome retval * store) :=
  match fuel with
  | O => None
  | S fuel' =>
      match step_name_of step_soup with
      | Raise e => Some (Raise e, st)
      | Return step_name =>
          if negb (String.eqb step_name dest_step) then
            match
              input_uris ← comprehension
                             (λ art, strip_query <$> get_attr "uri" art)
                             (find_all "input" step_soup);
              api_get (ArgList input_uris)
            with
            | Raise e => Some (Raise e, st)
            | Return all_input_soup =>
                match prev_steps_of all_input_soup with
                | Raise AttributeError =>
                    Some (Raise (history_exhausted step_name), st)
                | Raise e => Some (Raise e, st)
                | Return prev_steps =>
                    match set_iter prev_steps with
                    | step_uri :: _ =>
                        match api_get (ArgStr step_uri) with
                        | Raise e => Some (Raise e, st)
                        | Return step_soup' =>
                            get_artifacts_previous_step
                              fuel' dest_step stream art_smp_uris
                              step_soup' st
                        end
                    | [] => Some (Return RetNone, st)
                    end
                end
            end
          else Some (match_step stream art_smp_uris step_soup st)
      end
  end.

End WithTransport.

End Lineage.

(** ** A small remote history to run the code on *)

Module Scenario.

Import Lineage.

Definition iomap (i o ty gen : string) : node :=
  Elem "input-output-map" []
       [Elem "input" [("uri", i)] [];
        Elem "output" [("uri", o); ("output-type", ty);
                       ("output-generation-type", gen)] []].

(** The document of a step with its name and its relations. *)
Definition step_doc (nm : string) (maps : list node) : node :=
  Elem "[document]" []
       [Elem "prc:process" []
             [Elem "type" [] [Text nm]; Elem "input-output-maps" [] maps]].

(** The record of an artifact: its sample and, when it was made by a step,
    its parent process. *)
Definition artifact_doc (u smp : string) (parent : option string) : node :=
  Elem "art:artifact" [("uri", u); ("limsid", u)]
       (Elem "sample" [("uri", smp)] []
        :: match parent with
           | Some p => [Elem "parent-process" [("uri", p)] []]
           | None => []
           end).

(** Step S: inputs A1 and A2, one PerInput Analyte each (O1, O2) and one
    shared ResultFile R. *)
Definition S_doc : node :=
  step_doc "S"
    [iomap "artifacts/A1" "artifacts/O1" "Analyte" "PerInput";
     iomap "artifacts/A2" "artifacts/O2" "Analyte" "PerInput";
     iomap "artifacts/A1" "artifacts/R" "ResultFile" "PerAllInputs";
     iomap "artifacts/A2" "artifacts/R" "ResultFile" "PerAllInputs"].

(** Step S again, each input also producing a ResultFile of its own. *)
Definition S_files_doc : node :=
  step_doc "S"
    [iomap "artifacts/A1" "artifacts/O1" "Analyte" "PerInput";
     iomap "artifacts/A1" "artifacts/F1" "ResultFile" "PerInput";
     iomap "artifacts/A2" "artifacts/O2" "Analyte" "PerInput";
     iomap "artifacts/A2" "artifacts/F2" "ResultFile" "PerInput";
     iomap "artifacts/A1" "artifacts/R" "ResultFile" "PerAllInputs";
     iomap "artifacts/A2" "artifacts/R" "ResultFile" "PerAllInputs"].

(** A pooling step: inputs A1 and A2 give one pooled Analyte and one
    shared ResultFile, both PerAllInputs. *)
Definition Pool_doc : node :=
  step_doc "Pool"
    [iomap "artifacts/A1" "artifacts/Pool" "Analyte" "PerAllInputs";
     iomap "artifacts/A2" "artifacts/Pool" "Analyte" "PerAllInputs";
     iomap "artifacts/A1" "artifacts/R" "ResultFile" "PerAllInputs";
     iomap "artifacts/A2" "artifacts/R" "ResultFile" "PerAllInputs"].

(** Step Other took O2, the output of S for sample 2, and made I2. *)
Definition Other_doc : node :=
  step_doc "Other"
    [iomap "artifacts/O2" "artifacts/I2" "Analyte" "PerInput"].

(** Step P2 took O1 (made by S) and I2 (made by Other): the parent
    processes of its inputs differ. *)
Definition P2_doc : node :=
  step_doc "P2"
    [iomap "artifacts/O1" "artifacts/X1" "Analyte" "PerInput";
     iomap "artifacts/I2" "artifacts/X2" "Analyte" "PerInput"].

(** Step P1 is the first step of sample 3: its input B1 has no parent
    process. *)
Definition P1_doc : node :=
  step_doc "P1"
    [iomap "artifacts/B1" "artifacts/C1" "Analyte" "PerInput"].

Definition remote_artifacts : list (string * node) :=
  [("artifacts/A1", artifact_doc "artifacts/A1" "samples/s1" None);
   ("artifacts/A2", artifact_doc "artifacts/A2" "samples/s2" None);
   ("artifacts/O1",
     artifact_doc "artifacts/O1" "samples/s1" (Some "processes/S"));
   ("artifacts/O2",
     artifact_doc "artifacts/O2" "samples/s2" (Some "processes/S"));
   ("artifacts/R",
     artifact_doc "artifacts/R" "samples/s1" (Some "processes/S"));
   ("artifacts/I2",
     artifact_doc "artifacts/I2" "samples/s2" (Some "processes/Other"));
   ("artifacts/Pool",
     artifact_doc "artifacts/Pool" "samples/s1" (Some "processes/Pool"));
   ("artifacts/B1", artifact_doc "artifacts/B1" "samples/s3" None)].

Definition remote_processes : list (string * node) :=
  [("processes/S", S_doc); ("processes/Other", Other_doc);
   ("processes/Pool", Pool_doc);
   ("processes/P2", P2_doc); ("processes/P1", P1_doc)].

Fixpoint lookup_doc (u : string) (docs : list (string * node))
  : option node :=
  match docs with
  | [] => None
  | (k, d) :: docs' => if String.eqb u k then Some d else lookup_doc u docs'
  end.

(** The transport: a batch reply holds the record of every distinct URI
    asked for that exists. *)
Definition api (arg : pyarg) : outcome node :=
  match arg with
  | ArgList us =>
      Return (Elem "[document]" []
                [Elem "art:details" []
                   (omap (λ u, lookup_doc u remote_artifacts)
                         (remove_dups us))])
  | ArgStr u =>
      match lookup_doc u remote_processes with
      | Some d => Return d
      | None => Raise (TransportError "404")
      end
  | ArgNone => Raise (TransportError "404")
  end.

(** Two iteration orders of a set. *)
Definition insertion_order (l : list string) : list string := remove_dups l.
Definition reverse_order (l : list string) : list string :=
  reverse (remove_dups l).

(** The originating artifacts of the end-to-end scenario and their
    samples. *)
Definition O1_O2 : list (string * string) :=
  [("artifacts/O1", "samples/s1"); ("artifacts/O2", "samples/s2")].


Definition C1_only : list (string * string) :=
  [("artifacts/C1", "samples/s3")].

Definition psa (u ty gen : string) : PreviousStepArtifact :=
  mkPSA u ty gen.

Definition A1_Analyte := psa "artifacts/A1" "Analyte" "PerInput".
Definition A2_Analyte := psa "artifacts/A2" "Analyte" "PerInput".
Definition A1_shared := psa "artifacts/A1" "ResultFile" "PerAllInputs".
Definition A2_shared := psa "artifacts/A2" "ResultFile" "PerAllInputs".
Definition O1_Analyte := psa "artifacts/O1" "Analyte" "PerInput".
Definition O2_Analyte := psa "artifacts/O2" "Analyte" "PerInput".
Definition R_shared := psa "artifacts/R" "ResultFile" "PerAllInputs".

(** The store after one call for step S on the input side, from the fresh
    dictionary, and after a second call. *)
Definition S_input_store : store :=
  mkStore [[A1_Analyte; A1_shared]; [A2_Analyte; A2_shared];
           [A1_shared; A2_shared]]
          {[ "artifacts/O1" := 0; "artifacts/O2" := 1; "shared" := 2 ]}.

Definition S_input_store_again : store :=
  mkStore [[A1_Analyte; A1_shared]; [A2_Analyte; A2_shared];
           [A1_shared; A2_shared; A1_shared; A2_shared];
           [A1_Analyte; A1_shared]; [A2_Analyte; A2_shared]]
          {[ "artifacts/O1" := 3; "artifacts/O2" := 4; "shared" := 2 ]}.


Definition Pool_Analyte := psa "artifacts/Pool" "Analyte" "PerAllInputs".

(** The store after one call for the pooling step on the output side. *)
Definition Pool_output_store : store :=
  mkStore [[Pool_Analyte; Pool_Analyte; R_shared; R_shared];
           [R_shared; R_shared]]
          {[ "artifacts/X1" := 0; "shared" := 1 ]}.

(** An artifact record with one UDF already set. *)
Definition art_with_udf : node :=
  Elem "art:artifact" [("uri", "artifacts/A1"); ("limsid", "A1")]
       [Elem "name" [] [Text "tube 1"];
        Elem "sample" [("uri", "samples/s1")] [];
        Elem "udf:field" [("name", "Volume"); ("type", "Numeric")]
             [Text "12"]].

(** The map of URIs that [get_artifact_map] gives for step S. *)
Definition S_uri_map : gmap IOMap.map_item (list IOMap.map_item) :=
  {[ IOMap.UriItem "artifacts/A1" := [IOMap.UriItem "artifacts/O1"];
     IOMap.UriItem "artifacts/A2" := [IOMap.UriItem "artifacts/O2"] ]}.

End Scenario.

(** ** More of the code: what the entry points ask for and give back *)

Module Normal.

(** [c in s] *)
Fixpoint contains_char (c : ascii) (s : string) : bool :=
  match s with
  | EmptyString => false
  | String a s' => Ascii.eqb a c || contains_char c s'
  end.

(** A URI that still carries its query suffix. *)
Definition has_query (uri : string) : bool := contains_char "?" uri.

End Normal.

Module IOMapSpec.

Import IOMap.


(** The artifact record of a reply carries this URI, its suffix apart. *)
Definition record_of (u : string) (artifact_data : node) : Prop :=
  ∃ v, get_attr "uri" artifact_data = Return v ∧ u = strip_query v.

End IOMapSpec.

Module IOMapPairs.

Import IOMap.

(** An artifact of a lookup table of [get_artifact_map]: one of those
    [get_artifacts] returned, with the name and type of its container
    filled in when [container_info] is set. *)
Definition fetched_as (container_info : bool) (items : list art_item)
    (a : Artifact) : Prop :=
  ∃ a0, ArtObj a0 ∈ items
        ∧ if container_info
          then ∃ cn ct, a = set_container_info (Some cn) (Some ct) a0
          else a = a0.

(** The pair the builder holds for a relation when it is asked for
    objects: the hashable forms of the artifacts fetched for the input and
    the output of the relation. *)
Definition object_pair (container_info : bool) (ins outs : list art_item)
    (io_map : node) (kv : map_item * map_item) : Prop :=
  ∃ i o ain aout,
    uri_pair io_map = Some (UriItem i, UriItem o)
    ∧ kv = (ArtItem (astuple_but_udf ain), ArtItem (astuple_but_udf aout))
    ∧ uri ain = Some i ∧ uri aout = Some o
    ∧ fetched_as container_info ins ain
    ∧ fetched_as container_info outs aout.

(** What a lookup table holds while the loop runs. *)
Definition table_ok (container_info : bool) (items : list art_item)
    (t : option (gmap (option string) Artifact)) : Prop :=
  ∃ d, t = Some d
       ∧ ∀ k a, d !! k = Some a →
           uri a = k
           ∧ ∃ a0, ArtObj a0 ∈ items
                   ∧ (a = a0
                      ∨ (container_info = true
                         ∧ ∃ cn ct,
                             a = set_container_info (Some cn) (Some ct) a0)).

End IOMapPairs.

Module UdfSpec.

Import Udf.

(** The artifacts of the reply that [set_artifact_udf] updates: those whose
    [limsid] is a key of [sample_values]. *)
Definition keyed (sample_values : gmap string (list UDF)) (art : node)
  : Prop :=
  ∃ limsid, get_attr "limsid" art = Return limsid
            ∧ is_Some (sample_values !! limsid).

#[global] Instance keyed_dec sample_values art :
  Decision (keyed sample_values art).
Proof.
  unfold keyed. destruct (get_attr "limsid" art) as [limsid|e].
  - destruct (sample_values !! limsid) as [udfs|] eqn:H.
    + left. exists limsid. split; [done|]. rewrite H. eauto.
    + right. intros (l & [= <-] & Hl). rewrite H in Hl. by destruct Hl.
  - right. by intros (l & [=] & _).
Defined.

End UdfSpec.

Module LineageSpec.

Import Lineage.

(** The exceptions that reading a document raises: a tag that is not
    there, or an attribute that is not there. *)
Definition document_error (e : exn) : Prop :=
  e = AttributeError ∨ e = TypeError ∨ ∃ k, e = KeyError k.

(** A hydrated artifact of the match step that stands behind a reference:
    its URI, suffix apart, is that of the reference, and its sample is
    [smp]. *)
Definition hydrated_as (all_target_soup : node) (smp : string)
    (x : PreviousStepArtifact) : Prop :=
  ∃ art v sample,
    art ∈ find_all "art:artifact" all_target_soup
    ∧ get_attr "uri" art = Return v
    ∧ strip_query v = uri x
    ∧ find "sample" art = Some sample
    ∧ get_attr "uri" sample = Return smp.

End LineageSpec.

(** ** Samples: [ClarityTools.get_samples] and [get_arts_from_samples] *)

Module Catalog.

Import Normal.

Record Sample : Type := mkSample {
  name : string;
  uri : option string;
  date_received : option string;
  project_uri : option string;
  project_name : option string;
  artifact_uri : option string;
  udf : gmap string string
}.

Definition set_project_name (nm : option string) (s : Sample) : Sample :=
  mkSample (name s) (uri s) (date_received s) (project_uri s) nm
           (artifact_uri s) (udf s).

(** One [Sample] from its record in the batch reply: the body of the first
    loop of [get_samples]. *)
Definition read_sample (prj_info : bool) (sample_data : node)
  : outcome Sample :=
  nm ← text <$> attr_of (find "name" sample_data);
  u ← get_attr "uri" sample_data;
  date ← text <$> attr_of (find "date-received" sample_data);
  prj ← (if prj_info then
           match find "control-type" sample_data with
           | Some _ => Return None
           | None =>
               Some <$> (subscript_of (find "project" sample_data)
                         ≫= get_attr "uri")
           end
         else Return None);
  art ← strip_query <$>
        (subscript_of (find "artifact" sample_data) ≫= get_attr "uri");
  udfs ← for_each
           (λ (m : gmap string string) udf_data,
              k ← get_attr "name" udf_data;
              Return (<[k := text udf_data]> m))
           (find_all "udf:field" sample_data) ∅;
  Return (mkSample nm (Some u) (Some date) prj None (Some art) udfs).

Section WithTransport.

Variable api_get : pyarg → outcome node.
Variable set_iter : list string → list string.

(** [str.strip()] *)
Variable strip : string → string.

(** [project_uri_name]: the name of every project of the second reply. *)
Definition project_names (projects_soup : node)
  : outcome (gmap string string) :=
  for_each
    (λ (m : gmap string string) soup,
       nm ← strip ∘ text <$> attr_of (find "name" soup);
       u ← get_attr "uri" soup;
       Return (<[u := nm]> m))
    (find_all "prj:project" projects_soup) ∅.

Definition get_samples (uris : list string) (prj_info : bool)
  : outcome (list Sample) :=
  samples_soup ← api_get (ArgList uris);
  samples ← comprehension (read_sample prj_info)
                          (find_all "smp:sample" samples_soup);
  if prj_info then
    projects_soup ← api_get (ArgList (set_iter (omap project_uri samples)));
    project_uri_name ← project_names projects_soup;
    Return ((λ sample,
               set_project_name
                 (project_uri sample ≫= (project_uri_name !!.)) sample)
              <$> samples)
  else Return samples.

(** [get_arts_from_samples]: every sample URI of the reply mapped to the
    URI of its artifact. *)
Definition get_arts_from_samples (sample_uris : list string)
  : outcome (gmap string string) :=
  batch_soup ← api_get (ArgList sample_uris);
  for_each
    (λ (smp_art_uris : gmap string string) sample_soup,
       art ← strip_query <$>
             (subscript_of (find "artifact" sample_soup) ≫= get_attr "uri");
       u ← get_attr "uri" sample_soup;
       Return (<[u := art]> smp_art_uris))
    (find_all "smp:sample" batch_soup) ∅.

End WithTransport.

(** What a record of the reply says of its sample. *)
Definition is_control (sample_data : node) : Prop :=
  is_Some (find "control-type" sample_data).

Definition zeroth_artifact (sample_data : node) (v : string) : Prop :=
  ∃ art w, find "artifact" sample_data = Some art
           ∧ get_attr "uri" art = Return w ∧ v = strip_query w.

End Catalog.

(** ** Routing: [ClarityTools.step_router] *)

Module Router.

Import Normal.

(** What [step_router] can raise: its own [CallError], the [HTTPError] of
    [requests], and the exceptions of Python. *)
Inductive failure : Type :=
| CallError (msg : string)
| HTTPError
| Python (e : exn).

Inductive result (A : Type) : Type :=
| Ok (a : A)
| Fail (f : failure).
Arguments Ok {A} a.
Arguments Fail {A} f.

#[global] Instance result_ret : MRet result := @Ok.
#[global] Instance result_bind : MBind result :=
  fun A B f m => match m with Ok a => f a | Fail e => Fail e end.
#[global] Instance result_fmap : FMap result :=
  fun A B f m => match m with Ok a => Ok (f a) | Fail e => Fail e end.

Definition lift {A} (m : outcome A) : result A :=
  match m with Return a => Ok a | Raise e => Fail (Python e) end.

(** A call of [self.api.post]. *)
Record request : Type := mkRequest { url : string; body : string }.

(** [uri.split('/')[-1]] *)
Fixpoint last_segment (s : string) : string :=
  match s with
  | EmptyString => EmptyString
  | String a s' =>
      if contains_char "/" s' then last_segment s'
      else if Ascii.eqb a "/" then s' else String a s'
  end.

(** [uri.split('/')[-1].startswith("92-")] *)
Definition file_uri (uri : string) : bool :=
  String.prefix "92-" (last_segment uri).

Definition nl : string := String "010" EmptyString.

(** The last loop: the first routed URI that is neither in the queue nor
    the URI of a file stops the call. *)
Fixpoint check_queued (queue_art_uris artifact_uris : list string)
  : result unit :=
  match artifact_uris with
  | [] => Ok tt
  | uri :: rest =>
      if negb (bool_decide (uri ∈ queue_art_uris)) && negb (file_uri uri)
      then Fail (Python (RuntimeError
                   ("The artifact: " +:+ uri +:+ " was not queued.")))
      else check_queued queue_art_uris rest
  end.

(** [find("stage", attrs={"name": dest_stage_name})] *)
Definition stage_named (dest_stage_name : string) (n : node) : bool :=
  name_matches "stage" n && attr_matches "name" dest_stage_name n.

Section WithTransport.

(** [self.api.host] *)
Variable host : string.

(** [routing_template.xml] rendered with a stage URI, the artifact URIs and
    the action. *)
Variable render : string → list string → string → string.

(** The transport: what a GET answers depends on the posts made before it;
    a POST raises or returns. *)
Variable api_get :
  list request → string → option (list (string * string)) → result node.
Variable api_post : list request → request → option failure.

(** Lines 259-295: the URI of the destination stage, and the last segment
    of the URI of its step, [None] for a stage without step ([qc_step]). *)
Definition destination (posted : list request)
    (wf_name dest_stage_name : string) : result (string * option string) :=
  workflow_cnf_soup ← api_get posted (host +:+ "configuration/workflows")
                         (Some [("name", wf_name)]);
  match find "workflow" workflow_cnf_soup with
  | None =>
      Fail (CallError ("The workflow " +:+ wf_name +:+ " doesn't exist."))
  | Some workflow_cnf_soup =>
      status ← lift (get_attr "status" workflow_cnf_soup);
      if negb (String.eqb status "ACTIVE") then
        Fail (CallError ("The worklow " +:+ wf_name +:+ " is not active."))
      else
        wf_uri ← lift (get_attr "uri" workflow_cnf_soup);
        workflow_soup ← api_get posted wf_uri None;
        stage_names ← lift (comprehension (get_attr "name")
                                          (find_all "stage" workflow_soup));
        if negb (bool_decide (dest_stage_name ∈ stage_names)) then
          Fail (CallError ("There is no " +:+ dest_stage_name
                           +:+ " stage(step) in the " +:+ wf_name
                           +:+ " format."))
        else
          stage_uri ← lift (subscript_of
                              (snd <$> find_by (stage_named dest_stage_name)
                                               workflow_soup)
                            ≫= get_attr "uri");
          stage_soup ← api_get posted stage_uri None;
          step_uri ← match find "step" stage_soup with
                     | None => Ok None
                     | Some step =>
                         Some ∘ last_segment <$> lift (get_attr "uri" step)
                     end;
          Ok (stage_uri, step_uri)
  end.

(** [step_router], from the posts made so far to the outcome and the posts
    made when it ends. *)
Definition step_router (wf_name dest_stage_name : string)
    (art_uris : list string) (action : string) (posted : list request)
  : result unit * list request :=
  let artifact_uris := strip_query <$> art_uris in
  match destination posted wf_name dest_stage_name with
  | Fail f => (Fail f, posted)
  | Ok (stage_uri, step_uri) =>
      let routing_xml := render stage_uri artifact_uris action in
      let req := mkRequest (host +:+ "route/artifacts") routing_xml in
      let posted' := posted ++ [req] in
      match api_post posted req with
      | Some HTTPError =>
          (Fail (Python (RuntimeError
                   ("The post for " +:+ nl +:+ nl +:+ routing_xml
                    +:+ nl +:+ nl +:+ " failed."))), posted')
      | Some f => (Fail f, posted')
      | None =>
          match step_uri with
          | Some step_uri =>
              if String.eqb action "assign" then
                (queue_soup ← api_get posted' (host +:+ "queues/" +:+ step_uri)
                               None;
                 queue_art_uris ← lift (comprehension (get_attr "uri")
                                          (find_all "artifact" queue_soup));
                 check_queued queue_art_uris artifact_uris,
                 posted')
              else (Ok tt, posted')
          | None => (Ok tt, posted')
          end
      end
  end.

(** The destination the checks of [step_router] accept: a stage of the
    named workflow, which is active, under the given name. *)
Definition routable (posted : list request)
    (wf_name dest_stage_name stage_uri : string) : Prop :=
  ∃ cnf wf wf_uri workflow_soup stage,
    api_get posted (host +:+ "configuration/workflows")
            (Some [("name", wf_name)]) = Ok cnf
    ∧ find "workflow" cnf = Some wf
    ∧ get_attr "status" wf = Return "ACTIVE"
    ∧ get_attr "uri" wf = Return wf_uri
    ∧ api_get posted wf_uri None = Ok workflow_soup
    ∧ stage ∈ find_all "stage" workflow_soup
    ∧ get_attr "name" stage = Return dest_stage_name
    ∧ get_attr "uri" stage = Return stage_uri.

End WithTransport.

End Router.

(** ** A laboratory to run the entry points in *)

Module Lab.

Import IOMap Udf Lineage Catalog Router.

(** The record of an artifact as the server gives it: the URI carries the
    state suffix, the container sits inside the location. *)
Definition artifact_record (u nm ty smp : string)
    (place : option (string * string)) : node :=
  Elem "art:artifact" [("uri", u +:+ "?state=7"); ("limsid", nm)]
       ([Elem "name" [] [Text nm];
         Elem "type" [] [Text ty];
         Elem "sample" [("uri", smp)] []]
        ++ match place with
           | Some (con, well) =>
               [Elem "location" []
                     [Elem "container" [("uri", con)] [];
                      Elem "value" [] [Text well]]]
           | None => []
           end).

Definition container_record (u nm ty : string) : node :=
  Elem "con:container" [("uri", u)]
       [Elem "name" [] [Text nm]; Elem "type" [("name", ty)] []].

Definition sample_record (u nm date art : string)
    (project : option string) : node :=
  Elem "smp:sample" [("uri", u)]
       ([Elem "name" [] [Text nm];
         Elem "date-received" [] [Text date]]
        ++ match project with
           | Some p => [Elem "project" [("uri", p)] []]
           | None => [Elem "control-type" [("uri", "controltypes/1")] []]
           end
        ++ [Elem "artifact" [("uri", art +:+ "?state=3")] [];
            Elem "udf:field" [("name", "Tissue"); ("type", "String")]
                 [Text "leaf"]]).

Definition project_record (u nm : string) : node :=
  Elem "prj:project" [("uri", u)] [Elem "name" [] [Text nm]].

Definition remote : list (string * node) :=
  [("artifacts/A1",
     artifact_record "artifacts/A1" "A1" "Analyte" "samples/s1"
                     (Some ("containers/T1", "1:1")));
   ("artifacts/A2",
     artifact_record "artifacts/A2" "A2" "Analyte" "samples/s2"
                     (Some ("containers/T2", "1:1")));
   ("artifacts/O1",
     artifact_record "artifacts/O1" "O1" "Analyte" "samples/s1"
                     (Some ("containers/P", "A:1")));
   ("artifacts/O2",
     artifact_record "artifacts/O2" "O2" "Analyte" "samples/s2"
                     (Some ("containers/P", "B:1")));
   ("containers/T1", container_record "containers/T1" "Tube 1" "Tube");
   ("containers/T2", container_record "containers/T2" "Tube 2" "Tube");
   ("containers/P", container_record "containers/P" "Plate" "96 well plate");
   ("samples/s1",
     sample_record "samples/s1" "leaf 1" "2020-01-01" "artifacts/A1"
                   (Some "projects/p1"));
   ("samples/ctl",
     sample_record "samples/ctl" "water" "2020-01-01" "artifacts/W" None);
   ("projects/p1", project_record "projects/p1" "Maize")].

(** The transport: a batch reply holds the record of every distinct URI
    asked for that exists. *)
Definition api (arg : pyarg) : outcome node :=
  match arg with
  | ArgList us =>
      Return (Elem "[document]" []
                [Elem "details" []
                   (omap (λ u, Scenario.lookup_doc u remote)
                         (remove_dups us))])
  | _ => Raise (TransportError "404")
  end.

Definition O1_art : Artifact :=
  mkArtifact (Some "O1") (Some "artifacts/O1") (Some "Analyte")
             (Some "samples/s1") (Some "containers/P") None None
             (Some "A:1") None None ∅.

Definition O2_art : Artifact :=
  mkArtifact (Some "O2") (Some "artifacts/O2") (Some "Analyte")
             (Some "samples/s2") (Some "containers/P") None None
             (Some "B:1") None None ∅.

Definition on_plate (a : Artifact) : Artifact :=
  set_container_info (Some "Plate") (Some "96 well plate") a.

Definition A1_art : Artifact :=
  mkArtifact (Some "A1") (Some "artifacts/A1") (Some "Analyte")
             (Some "samples/s1") (Some "containers/T1") None None
             (Some "1:1") None None ∅.

Definition A2_art : Artifact :=
  mkArtifact (Some "A2") (Some "artifacts/A2") (Some "Analyte")
             (Some "samples/s2") (Some "containers/T2") None None
             (Some "1:1") None None ∅.

(** The map of objects that [get_artifact_map] builds for step S: the
    entry of A1, then that of A2. *)
Definition S_object_map : gmap map_item (list map_item) :=
  append_to (ArtItem (astuple_but_udf A2_art))
            (ArtItem (astuple_but_udf O2_art))
            (append_to (ArtItem (astuple_but_udf A1_art))
                       (ArtItem (astuple_but_udf O1_art)) ∅).

(** A step whose only output is shared, one whose relation has no output,
    and one whose input URI carries the state suffix. *)
Definition Shared_only_doc : node :=
  Scenario.step_doc "QC"
    [Scenario.iomap "artifacts/A1" "artifacts/R" "ResultFile" "PerAllInputs"].

Definition No_output_doc : node :=
  Scenario.step_doc "QC"
    [Elem "input-output-map" [] [Elem "input" [("uri", "artifacts/A1")] []]].

Definition Suffixed_doc : node :=
  Scenario.step_doc "S"
    [Scenario.iomap "artifacts/A1?state=7" "artifacts/O1" "Analyte"
                    "PerInput"].

(** Sample s1 of project Maize and a control. *)
Definition leaf_sample : Sample :=
  mkSample "leaf 1" (Some "samples/s1") (Some "2020-01-01")
           (Some "projects/p1") (Some "Maize") (Some "artifacts/A1")
           {[ "Tissue" := "leaf" ]}.

Definition water_sample : Sample :=
  mkSample "water" (Some "samples/ctl") (Some "2020-01-01") None None
           (Some "artifacts/W") {[ "Tissue" := "leaf" ]}.

(** The record of A1 after [Done] was set on it. *)
Definition A1_done : node :=
  Elem "art:artifact" [("uri", "artifacts/A1"); ("limsid", "artifacts/A1")]
       [Elem "sample" [("uri", "samples/s1")] [];
        Elem "udf:field" [("name", "Done"); ("type", "Boolean")]
             [Text "True"]].

(** A record whose reagent label has the name a UDF is given, before and
    after the UDF is set to 3; the same record with a field of that name
    after the label, before and after. *)
Definition labelled_art : node :=
  Elem "art:artifact" [("uri", "artifacts/A1?state=7"); ("limsid", "A1")]
       [Elem "name" [] [Text "A1"];
        Elem "type" [] [Text "Analyte"];
        Elem "sample" [("uri", "samples/s1")] [];
        Elem "reagent-label" [("name", "Index 7")] []].

Definition labelled_art_after : node :=
  Elem "art:artifact" [("uri", "artifacts/A1?state=7"); ("limsid", "A1")]
       [Elem "name" [] [Text "A1"];
        Elem "type" [] [Text "Analyte"];
        Elem "sample" [("uri", "samples/s1")] [];
        Elem "reagent-label" [("name", "Index 7")] [Text "3"]].

Definition labelled_art_with_field : node :=
  Elem "art:artifact" [("uri", "artifacts/A1?state=7"); ("limsid", "A1")]
       [Elem "name" [] [Text "A1"];
        Elem "type" [] [Text "Analyte"];
        Elem "sample" [("uri", "samples/s1")] [];
        Elem "reagent-label" [("name", "Index 7")] [];
        Elem "udf:field" [("name", "Index 7"); ("type", "String")]
             [Text "old"]].

Definition labelled_art_with_field_after : node :=
  Elem "art:artifact" [("uri", "artifacts/A1?state=7"); ("limsid", "A1")]
       [Elem "name" [] [Text "A1"];
        Elem "type" [] [Text "Analyte"];
        Elem "sample" [("uri", "samples/s1")] [];
        Elem "reagent-label" [("name", "Index 7")] [Text "3"];
        Elem "udf:field" [("name", "Index 7"); ("type", "String")]
             [Text "old"]].

(** A transport that answers every batch with the labelled record. *)
Definition label_api (arg : pyarg) : outcome node :=
  Return (Elem "[document]" [] [Elem "art:details" [] [labelled_art]]).

(** The routing configuration: one active workflow with one stage, whose
    step has a queue that holds what was routed to it. *)
Definition host : string := "https://lims/api/v2/".

Definition render (stage_uri : string) (artifact_uris : list string)
    (action : string) : string :=
  action +:+ " " +:+ stage_uri +:+ foldr (λ u s, " " +:+ u +:+ s) "" artifact_uris.

Definition workflows_doc : node :=
  Elem "[document]" []
       [Elem "wkfcnf:workflows" []
             [Elem "workflow" [("status", "ACTIVE");
                               ("uri", host +:+ "configuration/workflows/1");
                               ("name", "Prep")] []]].

Definition workflow_doc : node :=
  Elem "[document]" []
       [Elem "wkfcnf:workflow" [("name", "Prep")]
             [Elem "stages" []
                   [Elem "stage" [("name", "Extract");
                                  ("uri", host +:+ "stages/10")] []]]].

Definition stage_doc : node :=
  Elem "[document]" []
       [Elem "stg:stage" [("name", "Extract")]
             [Elem "step" [("uri", host +:+ "protocols/1/steps/55")] []]].

Definition queue_doc (posted : list request) : node :=
  Elem "[document]" []
       [Elem "que:queue" []
             [Elem "artifacts" []
                   (match posted with
                    | [] => []
                    | _ => [Elem "artifact"
                                 [("uri", host +:+ "artifacts/2-1")] []]
                    end)]].

Definition router_get (posted : list request) (u : string)
    (parameters : option (list (string * string))) : result node :=
  if String.eqb u (host +:+ "configuration/workflows") then Ok workflows_doc
  else if String.eqb u (host +:+ "configuration/workflows/1") then
    Ok workflow_doc
  else if String.eqb u (host +:+ "stages/10") then Ok stage_doc
  else if String.eqb u (host +:+ "queues/55") then Ok (queue_doc posted)
  else Fail HTTPError.

Definition router_post (posted : list request) (req : request)
  : option failure := None.

Definition routed : list string :=
  [host +:+ "artifacts/2-1?state=9"; host +:+ "artifacts/92-4?state=9"].

Definition routing_message : request :=
  mkRequest (host +:+ "route/artifacts")
            (render (host +:+ "stages/10")
                    [host +:+ "artifacts/2-1"; host +:+ "artifacts/92-4"]
                    "assign").

End Lab.

(** * Properties *)

(** ** Searching and updating a document *)

Module SoupFacts.

Lemma subtags_Elem t a cs :
  subtags (Elem t a cs) = ([], Elem t a cs) :: subtags_list 0 cs.
Proof. reflexivity. Qed.

Lemma filter_under (p : node → bool) i l :
  filter (λ pn, p pn.2 = true) (map (under i) l)
  = map (under i) (filter (λ pn, p pn.2 = true) l).
Proof.
  induction l as [|x l IH]; [done|].
  cbn [map]. rewrite !filter_cons. cbn [under snd].
  destruct (decide (p x.2 = true)); cbn [map]; by rewrite IH.
Qed.

Lemma first_in_list_cons p k c cs :
  first_in_list p k (c :: cs)
  = match first_in p c with
    | Some pn => Some (under k pn)
    | None => first_in_list p (S k) cs
    end.
Proof.
  unfold first_in_list, first_in. cbn [subtags_list].
  rewrite filter_app, filter_under.
  by destruct (filter _ (subtags c)).
Qed.

Lemma first_in_Elem p t a cs :
  first_in p (Elem t a cs)
  = if p (Elem t a cs) then Some ([], Elem t a cs) else first_in_list p 0 cs.
Proof.
  unfold first_in, first_in_list. rewrite subtags_Elem, filter_cons. cbn [snd].
  destruct (p (Elem t a cs)); by destruct (decide _).
Qed.

Lemma first_in_list_path p cs k π t :
  first_in_list p k cs = Some (π, t) → ∃ i π', π = (k + i)%nat :: π' ∧ (i < length cs)%nat.
Proof.
  revert k. induction cs as [|c cs IH]; intros k; [done|].
  rewrite first_in_list_cons. destruct (first_in p c) as [[π0 t0]|].
  - intros [= <- <-]. exists 0, π0. rewrite Nat.add_0_r. cbn. split; [done|lia].
  - intros (i & π' & -> & Hi)%IH. exists (S i), π'. split; [f_equal; lia|cbn; lia].
Qed.


Section Update.

Context (p : node → bool) (Hp : shallow p).

(** Changing a tag in place below a list of children. *)
Lemma first_in_list_alter (g : node → node) π' t t' cs :
  (∀ c, first_in p c = Some (π', t) → first_in p (g c) = Some (π', t')) →
  ∀ k i,
    first_in_list p k cs = Some (i :: π', t) →
    (k ≤ i)%nat ∧ first_in_list p k (alter g (i - k) cs) = Some (i :: π', t').
Proof.
  intros Hg. induction cs as [|c cs IH]; intros k i; [done|].
  rewrite first_in_list_cons.
  destruct (first_in p c) as [[π0 t0]|] eqn:Hc.
  - intros [= <- <- <-]. split; [done|].
    rewrite Nat.sub_diag. cbn [alter list_alter].
    by rewrite first_in_list_cons, (Hg _ Hc).
  - intros H. destruct (IH _ _ H) as [Hk H']. split; [lia|].
    replace (i - k) with (S (i - S k)) by lia. cbn [alter list_alter].
    by rewrite first_in_list_cons, Hc.
Qed.

Lemma first_in_set_at (f : node → node) :
  (∀ n, p (f n) = p n) → (∀ n, is_elem (f n) = is_elem n) →
  ∀ π n t,
    first_in p n = Some (π, t) → first_in p (set_at π f n) = Some (π, f t).
Proof.
  intros Hf Hfe. induction π as [|i π IH]; intros n t.
  - destruct n as [tg a cs|s]; [|done].
    rewrite first_in_Elem. destruct (p (Elem tg a cs)) eqn:Hn.
    + intros [= <-]. cbn [set_at].
      specialize (Hf (Elem tg a cs)). specialize (Hfe (Elem tg a cs)).
      destruct (f (Elem tg a cs)) as [tg' a' cs'|]; [|done].
      rewrite first_in_Elem, Hf, Hn. done.
    + intros (j & π' & [=] & _)%first_in_list_path.
  - destruct n as [tg a cs|s]; [|done].
    rewrite first_in_Elem. destruct (p (Elem tg a cs)) eqn:Hn; [done|].
    intros H. cbn [set_at]. rewrite first_in_Elem.
    rewrite (Hp _ _ _ cs), Hn.
    destruct (first_in_list_alter (set_at π f) π t (f t) cs (λ c, IH c t) 0 i H)
      as [_ H'].
    by rewrite Nat.sub_0_r in H'.
Qed.

(** The same below the tag the search starts from. *)
Lemma find_by_set_at (f : node → node) art π t :
  (∀ n, p (f n) = p n) → (∀ n, is_elem (f n) = is_elem n) →
  find_by p art = Some (π, t) →
  find_by p (set_at π f art) = Some (π, f t).
Proof.
  intros Hf Hfe. unfold find_by, find_all_by.
  destruct art as [tg a cs|s]; [|done]. cbn [descendants].
  intros H. pose proof H as (j & π' & -> & _)%first_in_list_path.
  cbn [set_at descendants].
  destruct (first_in_list_alter (set_at π' f) π' t (f t) cs
              (λ c, first_in_set_at f Hf Hfe π' c t) 0 _ H) as [_ H'].
  by rewrite Nat.sub_0_r in H'.
Qed.


Lemma first_in_list_None k cs :
  first_in_list p k cs = None ↔ Forall (λ c, first_in p c = None) cs.
Proof.
  revert k. induction cs as [|c cs IH]; intros k.
  - split; [constructor|done].
  - rewrite first_in_list_cons, Forall_cons.
    destruct (first_in p c).
    + split; [done|]. by intros [? _].
    + rewrite IH. split; [done|]. by intros [_ ?].
Qed.

Lemma first_in_self n :
  is_elem n = true → p n = true → first_in p n = Some ([], n).
Proof.
  destruct n as [t a cs|]; [|done]. intros _ Hn.
  by rewrite first_in_Elem, Hn.
Qed.

(** A path found by a search leads to the tag found. *)
Lemma first_in_list_lookup π' :
  (∀ n t, first_in p n = Some (π', t) → get_at π' n = Some t) →
  ∀ cs k i t,
    first_in_list p k cs = Some (i :: π', t) →
    (k ≤ i)%nat ∧ ∃ c, cs !! (i - k)%nat = Some c ∧ get_at π' c = Some t.
Proof.
  intros IH. induction cs as [|c cs IHcs]; intros k i t; [done|].
  rewrite first_in_list_cons.
  destruct (first_in p c) as [[π0 t0]|] eqn:Hc.
  - intros [= <- <- <-]. split; [done|]. rewrite Nat.sub_diag. eauto.
  - intros (Hk & c' & Hc' & Hg)%IHcs. split; [lia|].
    replace (i - k)%nat with (S (i - S k)) by lia. eauto.
Qed.

Lemma first_in_get_at π :
  ∀ n t, first_in p n = Some (π, t) → get_at π n = Some t.
Proof.
  induction π as [|i π IH]; intros n t.
  - destruct n as [tg a cs|]; [|done]. rewrite first_in_Elem.
    destruct (p (Elem tg a cs)); [by intros [= <-]|].
    by intros (j & π' & [=] & _)%first_in_list_path.
  - destruct n as [tg a cs|]; [|done]. rewrite first_in_Elem.
    destruct (p (Elem tg a cs)); [done|].
    intros (_ & c & Hc & Hg)%(first_in_list_lookup π IH).
    rewrite Nat.sub_0_r in Hc. cbn [get_at]. by rewrite Hc.
Qed.

Lemma find_by_get_at art π t :
  find_by p art = Some (π, t) → get_at π art = Some t.
Proof.
  destruct art as [tg a cs|]; [|done].
  unfold find_by, find_all_by. cbn [descendants]. intros H.
  pose proof H as (j & π' & -> & _)%first_in_list_path.
  apply (first_in_list_lookup π' (first_in_get_at π')) in H
    as (_ & c & Hc & Hg).
  rewrite Nat.sub_0_r in Hc. cbn [get_at]. by rewrite Hc.
Qed.

(** Inserting a matching tag where nothing matched before. *)
Lemma first_in_list_insert new cs :
  is_elem new = true → p new = true →
  Forall (λ c, first_in p c = None) cs →
  ∀ k i, (i < length cs)%nat →
    first_in_list p k (take (S i) cs ++ new :: drop (S i) cs)
    = Some ([S (k + i)], new).
Proof.
  intros Hel Hnew. induction 1 as [|c cs Hc Hcs IH]; intros k i Hi.
  - cbn in Hi. lia.
  - destruct i as [|i].
    + change (take 1 (c :: cs) ++ new :: drop 1 (c :: cs))
        with (c :: new :: cs).
      rewrite first_in_list_cons, Hc.
      rewrite first_in_list_cons, (first_in_self _ Hel Hnew).
      cbn. by rewrite Nat.add_0_r.
    + change (take (S (S i)) (c :: cs) ++ new :: drop (S (S i)) (c :: cs))
        with (c :: (take (S i) cs ++ new :: drop (S i) cs)).
      cbn [length] in Hi. rewrite first_in_list_cons, Hc.
      rewrite IH by lia. do 3 f_equal. lia.
Qed.

Lemma first_in_list_alter_fresh (g : node → node) ρ new cs :
  Forall (λ c, first_in p c = None) cs →
  ∀ k i c, cs !! i = Some c →
    first_in p (g c) = Some (ρ, new) →
    first_in_list p k (alter g i cs) = Some ((k + i)%nat :: ρ, new).
Proof.
  induction 1 as [|c0 cs Hc Hcs IH]; intros k i c; [done|].
  destruct i as [|i]; cbn [lookup list_lookup alter list_alter].
  - intros [= ->] Hg. rewrite first_in_list_cons, Hg. cbn.
    by rewrite Nat.add_0_r.
  - intros Hi Hg. rewrite first_in_list_cons, Hc, (IH _ _ _ Hi Hg).
    do 3 f_equal. lia.
Qed.

Lemma insert_after_at_last i new t a cs :
  insert_after_at [i] new (Elem t a cs)
  = Elem t a (take (S i) cs ++ new :: drop (S i) cs).
Proof. reflexivity. Qed.

Lemma insert_after_at_cons i j π new t a cs :
  insert_after_at (i :: j :: π) new (Elem t a cs)
  = Elem t a (alter (insert_after_at (j :: π) new) i cs).
Proof. reflexivity. Qed.

Lemma sibling_after_cons i j π :
  sibling_after (i :: j :: π) = i :: sibling_after (j :: π).
Proof. reflexivity. Qed.

Lemma first_in_insert_after new :
  is_elem new = true → p new = true →
  ∀ π n, π ≠ [] → is_Some (get_at π n) → first_in p n = None →
    first_in p (insert_after_at π new n) = Some (sibling_after π, new).
Proof.
  intros Hel Hnew. induction π as [|i π IH]; intros n Hne Hget Hnone; [done|].
  destruct n as [tg a cs|]; [|by destruct Hget].
  rewrite first_in_Elem in Hnone.
  destruct (p (Elem tg a cs)) eqn:Hn; [done|].
  apply first_in_list_None in Hnone.
  cbn [get_at] in Hget. destruct (cs !! i) as [c|] eqn:Hc; [|by destruct Hget].
  cbn in Hget.
  destruct π as [|j π].
  - rewrite insert_after_at_last.
    rewrite first_in_Elem, (Hp _ _ _ cs), Hn.
    rewrite (first_in_list_insert new cs Hel Hnew Hnone 0 i); [done|].
    by eapply lookup_lt_Some.
  - rewrite insert_after_at_cons, sibling_after_cons.
    rewrite first_in_Elem, (Hp _ _ _ cs), Hn.
    rewrite (first_in_list_alter_fresh _ (sibling_after (j :: π)) new cs
               Hnone 0 i c Hc); [done|].
    apply IH; [done|done|].
    rewrite Forall_lookup in Hnone. by eapply Hnone.
Qed.

Lemma find_by_insert_after new art π :
  is_elem new = true → p new = true →
  π ≠ [] → is_Some (get_at π art) → find_by p art = None →
  find_by p (insert_after_at π new art) = Some (sibling_after π, new).
Proof.
  intros Hel Hnew Hne Hget Hnone.
  destruct art as [tg a cs|]; [|by destruct π; destruct Hget].
  unfold find_by, find_all_by in *. cbn [descendants] in Hnone.
  apply first_in_list_None in Hnone.
  destruct π as [|i π]; [done|].
  cbn [get_at] in Hget. destruct (cs !! i) as [c|] eqn:Hc; [|by destruct Hget].
  cbn in Hget.
  destruct π as [|j π].
  - rewrite insert_after_at_last. cbn [descendants].
    apply (first_in_list_insert new cs Hel Hnew Hnone 0 i).
    by eapply lookup_lt_Some.
  - rewrite insert_after_at_cons, sibling_after_cons. cbn [descendants].
    apply (first_in_list_alter_fresh _ (sibling_after (j :: π)) new cs
             Hnone 0 i c Hc).
    apply first_in_insert_after; [done|done|done|done|].
    rewrite Forall_lookup in Hnone. by eapply Hnone.
Qed.

End Update.

(** A change at one position leaves every position apart from it alone. *)
Lemma get_at_set_at_apart f π :
  ∀ π' n, apart π π' → get_at π' (set_at π f n) = get_at π' n.
Proof.
  induction π as [|i π IH]; intros π' n [H1 H2].
  - destruct H1. apply prefix_nil.
  - destruct π' as [|j π']; [destruct H2; apply prefix_nil|].
    destruct n as [t a cs|]; [|done]. cbn [set_at get_at].
    destruct (decide (i = j)) as [->|Hij].
    + rewrite list_lookup_alter_eq. destruct (cs !! j) as [c|]; [|done].
      cbn. apply IH. split; intros Hp.
      * apply H1. by apply prefix_cons.
      * apply H2. by apply prefix_cons.
    + by rewrite list_lookup_alter_ne.
Qed.

Lemma attr_matches_shallow k v : shallow (attr_matches k v).
Proof. by intros t a cs cs'. Qed.

Lemma name_matches_shallow q : shallow (name_matches q).
Proof. by intros t a cs cs'. Qed.

End SoupFacts.

(** ** UDF typing *)

Module UdfFacts.

Import Udf SoupFacts.

Lemma find_by_path p art π t : find_by p art = Some (π, t) → π ≠ [].
Proof.
  destruct art as [tg a cs|]; [|done]. unfold find_by, find_all_by.
  cbn [descendants]. by intros (i & π' & -> & _)%first_in_list_path.
Qed.

Lemma udf_tag_matches udf : attr_matches "name" (name udf) (udf_tag udf) = true.
Proof. cbn. apply String.eqb_refl. Qed.

(** The declared type by the shape of the value alone. *)
Lemma infer_udf_type_shape v :
  infer_udf_type v
  = match v with
    | PyBool _ => "Boolean"
    | PyInt _ | PyFloat _ => "Numeric"
    | PyStr _ | PyOther _ => "String"
    end.
Proof. by destruct v. Qed.

(** X22: the search of [set_artifact_udf] is for a tag of any kind whose
    [name] attribute is the name of the field.  On a record where no tag
    has that name, a field is added after the sample tag with a type
    inferred from the shape of the value alone (a boolean is "Boolean",
    not "Numeric"; an integer or a float is "Numeric"; anything else is
    "String") and with the text of the value.  On a record where a tag has
    that name, the first such tag keeps its name and its attributes (a
    field so keeps its declared type) and only gets the text of the value
    as its content, whatever the shape of the value, every position of the
    record outside that tag being left as it was. *)
Theorem set_artifact_udf_typing (art : node) (udf : UDF) :
  let is_field := attr_matches "name" (name udf) in
  (find_by is_field art = None →
   ∀ sample, find_by (name_matches "sample") art = Some sample →
     ∃ art',
       set_udf art udf = Return art'
       ∧ find_by is_field art'
         = Some (sibling_after sample.1,
                 Elem "udf:field"
                      [("name", name udf);
                       ("type", match value udf with
                                | PyBool _ => "Boolean"
                                | PyInt _ | PyFloat _ => "Numeric"
                                | PyStr _ | PyOther _ => "String"
                                end)]
                      [Text (str (value udf))]))
  ∧ (∀ π t a cs, find_by is_field art = Some (π, Elem t a cs) →
     ∃ art',
       set_udf art udf = Return art'
       ∧ find_by is_field art' = Some (π, Elem t a [Text (str (value udf))])
       ∧ ∀ π', apart π π' → get_at π' art' = get_at π' art).
Proof.
  intros is_field. split.
  - intros Hnone [πs s] Hs. unfold set_udf. fold is_field. rewrite Hnone, Hs.
    eexists. split; [reflexivity|]. cbn [fst].
    rewrite <- infer_udf_type_shape.
    apply (find_by_insert_after is_field (attr_matches_shallow _ _)
             (udf_tag udf)); [done|apply udf_tag_matches| | |done].
    + by eapply find_by_path.
    + erewrite (find_by_get_at (name_matches "sample")); [done|exact Hs].
  - intros π t a cs Hfound. unfold set_udf. fold is_field. rewrite Hfound.
    eexists. split; [reflexivity|]. cbn [fst]. split.
    + apply (find_by_set_at is_field (attr_matches_shallow _ _)
               (set_string (str (value udf))) art π (Elem t a cs));
        [by intros []|by intros []|done].
    + intros π' Hπ'. by apply get_at_set_at_apart.
Qed.

Lemma set_artifact_udf_typing_witness :
  (∃ art',
     set_udf Scenario.art_with_udf (mkUDF "Done" (PyBool true)) = Return art'
     ∧ find_by (attr_matches "name" "Done") art'
       = Some ([2], Elem "udf:field" [("name", "Done"); ("type", "Boolean")]
                         [Text "True"]))
  ∧ (∃ art',
       set_udf Scenario.art_with_udf (mkUDF "Volume" (PyStr "high"))
       = Return art'
       ∧ find_by (attr_matches "name" "Volume") art'
         = Some ([2], Elem "udf:field"
                           [("name", "Volume"); ("type", "Numeric")]
                           [Text "high"])
       ∧ ∀ π', apart [2] π' →
           get_at π' art' = get_at π' Scenario.art_with_udf).
Proof.
  split.
  - exact (proj1 (set_artifact_udf_typing Scenario.art_with_udf
                    (mkUDF "Done" (PyBool true)))
                 eq_refl
                 ([1], Elem "sample" [("uri", "samples/s1")] []) eq_refl).
  - exact (proj2 (set_artifact_udf_typing Scenario.art_with_udf
                    (mkUDF "Volume" (PyStr "high")))
                 [2] "udf:field" [("name", "Volume"); ("type", "Numeric")]
                 [Text "12"] eq_refl).
Defined.

(** C8: the search for the field looks at the [name] attribute of tags of
    any kind.  On a record whose reagent label has the name of the UDF and
    which has no such field, setting the UDF to 3 creates no field, where
    the claim has a new field typed "Numeric": the text 3 goes into the
    reagent label, also through [set_artifact_udf].  On a record that has
    the field too, after the label, the field keeps its old text, where
    the claim has it overwritten. *)
Theorem set_udf_overwrites_foreign_tag :
  find_all "udf:field" Lab.labelled_art = []
  ∧ set_udf Lab.labelled_art (mkUDF "Index 7" (PyInt 3))
    = Return Lab.labelled_art_after
  ∧ find_all "udf:field" Lab.labelled_art_after = []
  ∧ set_artifact_udf Lab.label_api
                     {[ "A1" := [mkUDF "Index 7" (PyInt 3)] ]} "input"
                     Scenario.S_doc
    = Return [Lab.labelled_art_after]
  ∧ set_udf Lab.labelled_art_with_field (mkUDF "Index 7" (PyInt 3))
    = Return Lab.labelled_art_with_field_after
  ∧ find_all "udf:field" Lab.labelled_art_with_field_after
    = [Elem "udf:field" [("name", "Index 7"); ("type", "String")]
            [Text "old"]].
Proof. repeat split; reflexivity. Qed.

End UdfFacts.

(** ** Loops that can raise *)

Module PyFacts.

Ltac outcome_simpl :=
  cbn [mbind outcome_bind mret outcome_ret fmap outcome_fmap] in *.

(** An invariant of the loop holds of its result, when it has one. *)
Lemma for_each_inv {A S} (body : S → A → outcome S)
    (I : list A → S → Prop) :
  (∀ done x a a', I done a → body a x = Return a' → I (done ++ [x]) a') →
  ∀ xs done acc0 acc,
    I done acc0 → for_each body xs acc0 = Return acc → I (done ++ xs) acc.
Proof.
  intros Hstep. induction xs as [|x xs IH]; intros done acc0 acc H0.
  - cbn. intros [= <-]. by rewrite app_nil_r.
  - cbn [for_each]. destruct (body acc0 x) as [a'|e] eqn:Hb; [|done].
    outcome_simpl. intros Hrest.
    replace (done ++ x :: xs) with ((done ++ [x]) ++ xs)
      by (by rewrite <- app_assoc).
    eapply IH; [|exact Hrest]. by eapply Hstep.
Qed.

(** A loop with an iteration that must raise raises, at that iteration or
    before. *)
Lemma for_each_raises {A S} (body : S → A → outcome S)
    (I : S → Prop) (Q : exn → Prop) x :
  (∀ a y a', I a → body a y = Return a' → I a') →
  (∀ a y e, I a → body a y = Raise e → Q e) →
  (∀ a, I a → raises (body a x)) →
  ∀ xs acc0, x ∈ xs → I acc0 →
    ∃ e, for_each body xs acc0 = Raise e ∧ Q e.
Proof.
  intros Hpres Herr Hx. induction xs as [|y xs IH]; intros acc0 Hin H0.
  - by apply elem_of_nil in Hin.
  - cbn [for_each]. destruct (body acc0 y) as [a'|e] eqn:Hb; outcome_simpl.
    + apply elem_of_cons in Hin as [->|Hin].
      * specialize (Hx _ H0). by rewrite Hb in Hx.
      * apply IH; [done|]. by eapply Hpres.
    + exists e. split; [done|]. by eapply Herr.
Qed.

(** What a comprehension raises, one of its elements raised. *)
Lemma comprehension_raises {A B} (f : A → outcome B) xs e :
  comprehension f xs = Raise e → ∃ x, x ∈ xs ∧ f x = Raise e.
Proof.
  induction xs as [|x xs IH]; [done|]. cbn [comprehension].
  destruct (f x) as [y|e'] eqn:Hx; outcome_simpl.
  - destruct (comprehension f xs) as [ys|e'']; outcome_simpl; [done|].
    intros [= ->]. destruct IH as (x' & ? & ?); [done|].
    exists x'. split; [by apply elem_of_cons; right|done].
  - intros [= ->]. exists x. split; [by apply elem_of_cons; left|done].
Qed.

Lemma get_attr_raises k n e : get_attr k n = Raise e → e = KeyError k.
Proof.
  destruct n as [t a cs|]; cbn; [|congruence].
  destruct (assoc k a); congruence.
Qed.

End PyFacts.

(** ** The IO map builder *)

Module IOMapFacts.

Import IOMap PyFacts.

Lemma pairs_append_to k v m : pairs (append_to k v m) ≡ₚ pairs m ++ [(k, v)].
Proof.
  unfold pairs, append_to. destruct (m !! k) as [vs|] eqn:Hk; cbn [default].
  - rewrite <- insert_delete_eq.
    rewrite map_to_list_insert by apply lookup_delete_eq.
    rewrite <- (map_to_list_delete m k vs Hk).
    rewrite !bind_cons. cbn [fst snd]. rewrite fmap_app. cbn [fmap list_fmap].
    rewrite <- !app_assoc. apply Permutation_app_head.
    apply Permutation_app_comm.
  - rewrite map_to_list_insert by done.
    rewrite bind_cons. cbn [fst snd fmap list_fmap app].
    apply Permutation_cons_append.
Qed.

Section WithTransport.

Variable api_get : pyarg → outcome node.
Variable set_iter : list string → list string.

(** One turn of the loop adds one pair for a PerInput relation and nothing
    for any other. *)
Lemma map_step_pairs uri_only container_info st io_map st' :
  map_step api_get uri_only container_info st io_map = Return st' →
  if is_per_input io_map
  then ∃ kv, pairs (artifact_map st') ≡ₚ pairs (artifact_map st) ++ [kv]
             ∧ (uri_only = true → container_info = false →
                uri_pair io_map = Some kv)
  else artifact_map st' = artifact_map st.
Proof.
  unfold map_step, is_per_input, uri_pair.
  destruct (find "output" io_map) as [o|]; [|done]. cbn [subscript_of].
  outcome_simpl.
  destruct (get_attr "output-generation-type" o) as [gen|]; [|done].
  outcome_simpl.
  destruct (String.eqb gen "PerInput"); [|by intros [= <-]].
  destruct (find "input" io_map) as [i|]; [|done]. cbn [subscript_of].
  outcome_simpl.
  destruct (get_attr "uri" i) as [a|]; [|done]. outcome_simpl.
  destruct (get_attr "uri" o) as [b|]; [|done]. outcome_simpl.
  destruct uri_only, container_info; cbn [andb negb].
  2: { intros [= <-]. cbn [artifact_map]. eexists. split;
       [apply pairs_append_to|done]. }
  all: outcome_simpl; repeat match goal with
         | |- context [enrich ?g ?v ?t ?u] =>
             destruct (enrich g v t u); outcome_simpl; [|done]
         | |- context [hashable ?v ?t ?u] =>
             destruct (hashable v t u); outcome_simpl; [|done]
         end.
  all: intros [= <-]; cbn [artifact_map]; eexists;
       (split; [apply pairs_append_to|done]).
Qed.

Lemma get_artifact_map_pairs uri_only container_info step_soup m :
  get_artifact_map api_get set_iter uri_only container_info step_soup
  = Return m →
  ∃ kvs,
    pairs m ≡ₚ kvs
    ∧ length kvs
      = length (filter (λ io, is_per_input io = true)
                       (find_all "input-output-map" step_soup))
    ∧ (uri_only = true → container_info = false →
       kvs = omap per_input_uri_pair
                  (find_all "input-output-map" step_soup)).
Proof.
  unfold get_artifact_map. intros H.
  set (io_maps := find_all "input-output-map" step_soup) in *.
  destruct (if negb uri_only then _ else _) as [tables|]; outcome_simpl;
    [|done].
  destruct (for_each _ io_maps _) as [st|] eqn:Hloop; outcome_simpl; [|done].
  injection H as <-.
  pose (I := λ (done : list node) (st : map_state),
          ∃ kvs, pairs (artifact_map st) ≡ₚ kvs
                 ∧ length kvs
                   = length (filter (λ io, is_per_input io = true) done)
                 ∧ (uri_only = true → container_info = false →
                    kvs = omap per_input_uri_pair done)).
  apply (for_each_inv _ I) with (done := []) in Hloop; [exact Hloop| |].
  - intros done x a a' (kvs & Hperm & Hlen & Huri) Hstep.
    apply map_step_pairs in Hstep. unfold I.
    rewrite filter_app, length_app, omap_app, filter_cons, filter_nil.
    assert (Hx : omap per_input_uri_pair [x]
                 = if is_per_input x
                   then match uri_pair x with Some kv => [kv] | None => [] end
                   else []).
    { cbn. unfold per_input_uri_pair. destruct (is_per_input x); [|done].
      by destruct (uri_pair x). }
    rewrite Hx. clear Hx.
    destruct (is_per_input x).
    + destruct Hstep as (kv & Hperm' & Hkv). exists (kvs ++ [kv]).
      rewrite decide_True by done. split; [by rewrite Hperm', Hperm|].
      split; [rewrite length_app; cbn; lia|].
      intros Hu Hc. by rewrite (Hkv Hu Hc), (Huri Hu Hc).
    + rewrite decide_False by done. exists kvs. rewrite Hstep.
      split; [done|]. split; [cbn; lia|].
      intros Hu Hc. by rewrite app_nil_r, (Huri Hu Hc).
  - exists []. cbn [artifact_map]. unfold pairs.
    by rewrite map_to_list_empty.
Qed.

End WithTransport.

End IOMapFacts.

(** ** The map of objects *)

Module IOMapObjectFacts.

Import IOMap IOMapPairs PyFacts IOMapFacts.

Lemma set_container_info_twice cn ct cn' ct' a :
  set_container_info cn ct (set_container_info cn' ct' a)
  = set_container_info cn ct a.
Proof. done. Qed.

Lemma uri_set_container_info cn ct a : uri (set_container_info cn ct a) = uri a.
Proof. done. Qed.

Section WithTransport.

Variable api_get : pyarg → outcome node.
Variable set_iter : list string → list string.

Lemma uri_art_table stream step_soup d :
  uri_art api_get set_iter stream step_soup = Return d →
  ∃ items,
    get_artifacts api_get set_iter stream false false step_soup = Return items
    ∧ ∀ k a, d !! k = Some a → uri a = k ∧ ArtObj a ∈ items.
Proof.
  unfold uri_art.
  destruct (get_artifacts _ _ _ _ _ _) as [items|]; outcome_simpl; [|done].
  intros [= <-]. exists items. split; [done|].
  enough (H : ∀ (done : list art_item) (m : gmap (option string) Artifact),
             (∀ k a, m !! k = Some a → uri a = k ∧ ArtObj a ∈ done) →
             ∀ rest k a,
               foldl (λ m it, match it with
                              | ArtObj a => <[uri a := a]> m
                              | ArtUri _ => m
                              end) m rest !! k = Some a →
               uri a = k ∧ ArtObj a ∈ done ++ rest).
  { intros k a Hk. apply (H [] ∅ ltac:(intros ??; by rewrite lookup_empty)
                            items k a Hk). }
  intros done m Hm rest. revert done m Hm.
  induction rest as [|it rest IH]; intros done m Hm k a; cbn [foldl].
  - rewrite app_nil_r. apply Hm.
  - intros Hk.
    replace (done ++ it :: rest) with ((done ++ [it]) ++ rest)
      by (by rewrite <- app_assoc).
    eapply IH; [|exact Hk]. clear Hk k a.
    intros k a. destruct it as [u|b].
    + intros [? ?]%Hm. split; [done|]. apply elem_of_app. by left.
    + destruct (decide (uri b = k)) as [<-|Hne].
      * rewrite lookup_insert_eq. intros [= <-]. split; [done|].
        apply elem_of_app. right. by left.
      * rewrite lookup_insert_ne by done. intros [? ?]%Hm.
        split; [done|]. apply elem_of_app. by left.
Qed.

Lemma enrich_Return var t u t' :
  enrich api_get var t u = Return t' →
  ∃ d art cn ct,
    t = Some d ∧ d !! Some u = Some art
    ∧ t' = Some (<[Some u := set_container_info (Some cn) (Some ct) art]> d).
Proof.
  unfold enrich. destruct t as [d|]; cbn [local_var]; outcome_simpl; [|done].
  unfold dict_get. destruct (d !! Some u) as [art|] eqn:Hart; outcome_simpl;
    [|done].
  destruct (api_get _) as [soup|]; outcome_simpl; [|done].
  destruct (find "name" soup) as [nm|]; cbn [attr_of]; outcome_simpl; [|done].
  destruct (find "type" soup) as [ty|]; cbn [subscript_of]; outcome_simpl;
    [|done].
  destruct (get_attr "name" ty) as [tn|]; outcome_simpl; [|done].
  intros [= <-]. by exists d, art, (text nm), tn.
Qed.

Lemma hashable_Return var t u it :
  hashable var t u = Return it →
  ∃ d art, t = Some d ∧ d !! Some u = Some art
           ∧ it = ArtItem (astuple_but_udf art).
Proof.
  unfold hashable. destruct t as [d|]; cbn [local_var]; outcome_simpl;
    [|done].
  unfold dict_get. destruct (d !! Some u) as [art|] eqn:Hart; outcome_simpl;
    [|done].
  intros [= <-]. by exists d, art.
Qed.

Lemma enrich_table_ok items var t u t' :
  table_ok true items t →
  enrich api_get var t u = Return t' →
  table_ok true items t'
  ∧ ∃ d' a, t' = Some d' ∧ d' !! Some u = Some a ∧ fetched_as true items a.
Proof.
  intros (d & -> & Hd) (d0 & art & cn & ct & [= <-] & Hart & ->)%enrich_Return.
  destruct (Hd _ _ Hart) as (Huri & a0 & Hin & Hform).
  assert (Hnew : set_container_info (Some cn) (Some ct) art
                 = set_container_info (Some cn) (Some ct) a0).
  { destruct Hform as [->|(_ & cn' & ct' & ->)]; [done|].
    apply set_container_info_twice. }
  split.
  - eexists. split; [done|]. intros k a.
    destruct (decide (Some u = k)) as [<-|Hne].
    + rewrite lookup_insert_eq. intros [= <-].
      rewrite uri_set_container_info. split; [done|].
      exists a0. split; [done|]. right. split; [done|].
      exists cn, ct. exact Hnew.
    + rewrite lookup_insert_ne by done. apply Hd.
  - eexists _, _. split; [done|]. rewrite lookup_insert_eq.
    split; [done|]. exists a0. split; [done|]. exists cn, ct. exact Hnew.
Qed.

(** One turn of the loop when objects are asked for. *)
Lemma map_step_object container_info ins outs st io_map st' :
  table_ok container_info ins (input_uri_art st) →
  table_ok container_info outs (output_uri_art st) →
  map_step api_get false container_info st io_map = Return st' →
  table_ok container_info ins (input_uri_art st')
  ∧ table_ok container_info outs (output_uri_art st')
  ∧ if is_per_input io_map
    then ∃ kv, artifact_map st' = append_to kv.1 kv.2 (artifact_map st)
               ∧ object_pair container_info ins outs io_map kv
    else artifact_map st' = artifact_map st.
Proof.
  intros Hins Houts. unfold map_step, is_per_input, object_pair, uri_pair.
  destruct (find "output" io_map) as [o|]; [|done]. cbn [subscript_of].
  outcome_simpl.
  destruct (get_attr "output-generation-type" o) as [gen|]; [|done].
  outcome_simpl.
  destruct (String.eqb gen "PerInput"); [|by intros [= <-]].
  destruct (find "input" io_map) as [i|]; [|done]. cbn [subscript_of].
  outcome_simpl.
  destruct (get_attr "uri" i) as [a|]; [|done]. outcome_simpl.
  destruct (get_attr "uri" o) as [b|]; [|done]. outcome_simpl.
  cbn [andb negb]. destruct container_info.
  - destruct (enrich api_get "input_uri_art" (input_uri_art st) a)
      as [ins'|] eqn:Hein; outcome_simpl; [|done].
    destruct (enrich api_get "output_uri_art" (output_uri_art st) b)
      as [outs'|] eqn:Heout; outcome_simpl; [|done].
    destruct (enrich_table_ok _ _ _ _ _ Hins Hein)
      as (Hins' & di & ain & -> & Hain & Hfin).
    destruct (enrich_table_ok _ _ _ _ _ Houts Heout)
      as (Houts' & do & aout & -> & Haout & Hfout).
    destruct (hashable "input_uri_art" (Some di) a) as [ki|] eqn:Hki;
      outcome_simpl; [|done].
    destruct (hashable "output_uri_art" (Some do) b) as [vo|] eqn:Hvo;
      outcome_simpl; [|done].
    apply hashable_Return in Hki as (? & ? & [= <-] & Hki & ->).
    apply hashable_Return in Hvo as (? & ? & [= <-] & Hvo & ->).
    rewrite Hain in Hki. injection Hki as <-.
    rewrite Haout in Hvo. injection Hvo as <-.
    intros [= <-]. cbn [input_uri_art output_uri_art artifact_map].
    split; [done|]. split; [done|].
    exists (ArtItem (astuple_but_udf ain), ArtItem (astuple_but_udf aout)).
    split; [done|]. exists a, b, ain, aout. split; [done|]. split; [done|].
    destruct Hins' as (? & [= <-] & Hdi). destruct Houts' as (? & [= <-] & Hdo).
    split; [by apply (Hdi _ _ Hain)|]. split; [by apply (Hdo _ _ Haout)|].
    done.
  - outcome_simpl.
    destruct (hashable "input_uri_art" (input_uri_art st) a) as [ki|] eqn:Hki;
      outcome_simpl; [|done].
    destruct (hashable "output_uri_art" (output_uri_art st) b) as [vo|]
      eqn:Hvo; outcome_simpl; [|done].
    apply hashable_Return in Hki as (di & ain & Hti & Hki & ->).
    apply hashable_Return in Hvo as (do & aout & Hto & Hvo & ->).
    intros [= <-]. cbn [input_uri_art output_uri_art artifact_map].
    split; [done|]. split; [done|].
    exists (ArtItem (astuple_but_udf ain), ArtItem (astuple_but_udf aout)).
    split; [done|]. exists a, b, ain, aout. split; [done|]. split; [done|].
    destruct Hins as (? & Hti' & Hdi). destruct Houts as (? & Hto' & Hdo).
    rewrite Hti in Hti'. injection Hti' as <-.
    rewrite Hto in Hto'. injection Hto' as <-.
    destruct (Hdi _ _ Hki) as (Hu & a0 & Hin0 & [->|[[=] _]]).
    destruct (Hdo _ _ Hvo) as (Hu' & b0 & Hin0' & [->|[[=] _]]).
    split; [done|]. split; [done|]. split; by eexists.
Qed.

Lemma get_artifact_map_object_pairs container_info step_soup m :
  get_artifact_map api_get set_iter false container_info step_soup
  = Return m →
  ∃ ins outs kvs,
    get_artifacts api_get set_iter "input" false false step_soup = Return ins
    ∧ get_artifacts api_get set_iter "output" false false step_soup
      = Return outs
    ∧ pairs m ≡ₚ kvs
    ∧ Forall2 (object_pair container_info ins outs)
              (filter (λ io, is_per_input io = true)
                      (find_all "input-output-map" step_soup))
              kvs.
Proof.
  unfold get_artifact_map. cbn [negb].
  destruct (uri_art api_get set_iter "input" step_soup) as [din|] eqn:Hin;
    outcome_simpl; [|done].
  destruct (uri_art api_get set_iter "output" step_soup) as [dout|] eqn:Hout;
    outcome_simpl; [|done].
  cbn [fst snd].
  apply uri_art_table in Hin as (ins & Hins & Hdin).
  apply uri_art_table in Hout as (outs & Houts & Hdout).
  destruct (for_each _ _ _) as [st|] eqn:Hloop; outcome_simpl; [|done].
  intros [= <-]. exists ins, outs.
  enough (H : table_ok container_info ins (input_uri_art st)
              ∧ table_ok container_info outs (output_uri_art st)
              ∧ ∃ kvs, pairs (artifact_map st) ≡ₚ kvs
                       ∧ Forall2 (object_pair container_info ins outs)
                           (filter (λ io, is_per_input io = true)
                              ([] ++ find_all "input-output-map" step_soup))
                           kvs).
  { destruct H as (_ & _ & kvs & ? & ?). by exists kvs. }
  refine (for_each_inv _
    (λ done st,
       table_ok container_info ins (input_uri_art st)
       ∧ table_ok container_info outs (output_uri_art st)
       ∧ ∃ kvs, pairs (artifact_map st) ≡ₚ kvs
                ∧ Forall2 (object_pair container_info ins outs)
                          (filter (λ io, is_per_input io = true) done) kvs)
    _ _ [] _ _ _ Hloop).
  - clear. intros done x st st' (Hti & Hto & kvs & Hperm & Hall) Hstep.
    destruct (map_step_object _ _ _ _ _ _ Hti Hto Hstep)
      as (Hti' & Hto' & Hmap).
    split; [done|]. split; [done|].
    rewrite filter_app, filter_cons, filter_nil.
    destruct (is_per_input x).
    + destruct Hmap as ([k v] & -> & Hkv). exists (kvs ++ [(k, v)]).
      rewrite decide_True by done. split.
      * cbn [fst snd]. by rewrite pairs_append_to, Hperm.
      * apply Forall2_app; [done|]. by repeat constructor.
    + rewrite decide_False by done. rewrite Hmap, app_nil_r. by exists kvs.
  - cbn [input_uri_art output_uri_art artifact_map].
    split; [|split].
    + eexists. split; [done|]. intros k a Hk.
      destruct (Hdin _ _ Hk). split; [done|]. exists a. split; [done|].
      by left.
    + eexists. split; [done|]. intros k a Hk.
      destruct (Hdout _ _ Hk). split; [done|]. exists a. split; [done|].
      by left.
    + exists []. unfold pairs. rewrite map_to_list_empty.
      split; [done|]. constructor.
Qed.

End WithTransport.

End IOMapObjectFacts.

(** ** Claims about the IO map builder *)

Module IOMapClaims.

Import IOMap IOMapPairs PyFacts IOMapFacts IOMapObjectFacts Scenario.

Section WithTransport.

Variable api_get : pyarg → outcome node.
Variable set_iter : list string → list string.

(** With [uri_only] and [container_info] both set, one turn of the loop
    either skips a relation that is not PerInput or raises. *)
Lemma map_step_unbound st io_map :
  input_uri_art st = None →
  match map_step api_get true true st io_map with
  | Return st' => st' = st ∧ is_per_input io_map = false
  | Raise e =>
      e = UnboundLocalError "input_uri_art" ∨ e = TypeError
      ∨ ∃ k, e = KeyError k
  end.
Proof.
  intros Hst. unfold map_step, is_per_input.
  destruct (find "output" io_map) as [o|]; cbn [subscript_of]; outcome_simpl;
    [|by right; left].
  destruct (get_attr "output-generation-type" o) as [gen|e] eqn:Hgen;
    outcome_simpl; [|apply get_attr_raises in Hgen; right; right; eauto].
  destruct (String.eqb gen "PerInput"); [|done].
  destruct (find "input" io_map) as [i|]; cbn [subscript_of]; outcome_simpl;
    [|by right; left].
  destruct (get_attr "uri" i) as [a|e] eqn:Ha; outcome_simpl;
    [|apply get_attr_raises in Ha; right; right; eauto].
  destruct (get_attr "uri" o) as [b|e] eqn:Hb; outcome_simpl;
    [|apply get_attr_raises in Hb; right; right; eauto].
  cbn [andb negb]. unfold enrich. rewrite Hst. cbn [local_var]. outcome_simpl.
  by left.
Qed.

(** C10: with [uri_only=True] and [container_info=True], a step with a
    PerInput relation makes [get_artifact_map] fail: the lookup tables the
    container branch reads are not bound (or a relation before it is
    malformed); no map is returned. *)
Theorem get_artifact_map_uri_only_container_info_fails (step_soup : node) :
  (∃ io_map, io_map ∈ find_all "input-output-map" step_soup
             ∧ is_per_input io_map = true) →
  ∃ e, get_artifact_map api_get set_iter true true step_soup = Raise e
       ∧ (e = UnboundLocalError "input_uri_art" ∨ e = TypeError
          ∨ ∃ k, e = KeyError k).
Proof.
  intros (io_map & Hin & Hper). unfold get_artifact_map. outcome_simpl.
  destruct (for_each_raises (map_step api_get true true)
              (λ st, input_uri_art st = None)
              (λ e, e = UnboundLocalError "input_uri_art" ∨ e = TypeError
                    ∨ ∃ k, e = KeyError k)
              io_map) with (xs := find_all "input-output-map" step_soup)
              (acc0 := mkMapState None None ∅)
    as (e & He & HQ); [| | |done|done|].
  - intros a y a' Ha Hstep. pose proof (map_step_unbound a y Ha) as H.
    rewrite Hstep in H. by destruct H as [-> _].
  - intros a y e Ha Hstep. pose proof (map_step_unbound a y Ha) as H.
    by rewrite Hstep in H.
  - intros a Ha. pose proof (map_step_unbound a io_map Ha) as H.
    destruct (map_step api_get true true a io_map); [|done].
    destruct H as [_ H]. congruence.
  - exists e. cbn [fst snd negb]. outcome_simpl. cbn [fst snd].
    by rewrite He.
Qed.

(** C6, as the code has it: the returned map holds one (input, output)
    pair for each relation whose output is PerInput, and nothing for any
    other relation.  When the map is of URIs, the pairs are the URI pairs
    of the PerInput relations; when it is of objects, the pair of a
    PerInput relation is made of the artifact fetched for its input and the
    artifact fetched for its output, each under the URI the relation gives;
    with [uri_only] and [container_info] both set a map is only returned
    empty.  The outputs of the other relations are left out: no key
    gathers them and no entry holds them. *)
Theorem get_artifact_map_per_input_only uri_only container_info step_soup m :
  get_artifact_map api_get set_iter uri_only container_info step_soup
  = Return m →
  length (pairs m)
  = length (filter (λ io, is_per_input io = true)
                   (find_all "input-output-map" step_soup))
  ∧ (uri_only = true → container_info = false →
     pairs m ≡ₚ omap per_input_uri_pair
                     (find_all "input-output-map" step_soup))
  ∧ (uri_only = true → container_info = true → m = ∅)
  ∧ (uri_only = false →
     ∃ ins outs kvs,
       get_artifacts api_get set_iter "input" false false step_soup
       = Return ins
       ∧ get_artifacts api_get set_iter "output" false false step_soup
         = Return outs
       ∧ pairs m ≡ₚ kvs
       ∧ Forall2 (object_pair container_info ins outs)
                 (filter (λ io, is_per_input io = true)
                         (find_all "input-output-map" step_soup))
                 kvs).
Proof.
  intros Hrun.
  destruct (get_artifact_map_pairs _ _ _ _ _ _ Hrun)
    as (kvs & Hperm & Hlen & Huri).
  split; [by rewrite Hperm|].
  split; [intros Hu Hc; by rewrite Hperm, (Huri Hu Hc)|].
  split.
  - intros -> ->. revert Hrun. unfold get_artifact_map. outcome_simpl.
    cbn [fst snd negb]. outcome_simpl. cbn [fst snd].
    destruct (for_each _ _ _) as [st|] eqn:Hloop; outcome_simpl; [|done].
    intros [= <-].
    assert (Hst : st = mkMapState None None ∅); [|by rewrite Hst].
    refine (for_each_inv _ (λ _ st, st = mkMapState None None ∅)
              _ _ [] _ _ _ Hloop); [|done].
    intros done io a a' -> Hstep.
    pose proof (map_step_unbound (mkMapState None None ∅) io eq_refl) as H.
    rewrite Hstep in H. by destruct H.
  - intros ->. by apply get_artifact_map_object_pairs.
Qed.

End WithTransport.

Lemma get_artifact_map_uri_only_container_info_fails_witness :
  ∃ e, get_artifact_map api insertion_order true true S_doc = Raise e
       ∧ (e = UnboundLocalError "input_uri_art" ∨ e = TypeError
          ∨ ∃ k, e = KeyError k).
Proof.
  apply (get_artifact_map_uri_only_container_info_fails api insertion_order
           S_doc).
  exists (iomap "artifacts/A1" "artifacts/O1" "Analyte" "PerInput").
  split; [|reflexivity].
  apply (list_elem_of_lookup_2 _ 0). reflexivity.
Defined.

Lemma get_artifact_map_per_input_only_witness :
  length (pairs Lab.S_object_map)
  = length (filter (λ io, is_per_input io = true)
                   (find_all "input-output-map" S_doc))
  ∧ (false = true → false = false →
     pairs Lab.S_object_map ≡ₚ omap per_input_uri_pair
                                    (find_all "input-output-map" S_doc))
  ∧ (false = true → false = true → Lab.S_object_map = ∅)
  ∧ (false = false →
     ∃ ins outs kvs,
       get_artifacts Lab.api insertion_order "input" false false S_doc
       = Return ins
       ∧ get_artifacts Lab.api insertion_order "output" false false S_doc
         = Return outs
       ∧ pairs Lab.S_object_map ≡ₚ kvs
       ∧ Forall2 (object_pair false ins outs)
                 (filter (λ io, is_per_input io = true)
                         (find_all "input-output-map" S_doc))
                 kvs).
Proof.
  apply (get_artifact_map_per_input_only Lab.api insertion_order false false
           S_doc Lab.S_object_map).
  reflexivity.
Defined.

(** C6 as stated fails: step S has two relations to a shared output, yet
    the map returned for it has the two inputs as its only keys: there is
    no ['shared'] key and the shared output is held nowhere. *)
Lemma get_artifact_map_no_shared_key :
  get_artifact_map api insertion_order true false S_doc
  = Return {[ UriItem "artifacts/A1" := [UriItem "artifacts/O1"];
              UriItem "artifacts/A2" := [UriItem "artifacts/O2"] ]}
  ∧ length (filter (λ io, is_per_input io = false)
                   (find_all "input-output-map" S_doc)) = 2
  ∧ S_uri_map !! UriItem "shared" = None.
Proof. repeat split; reflexivity. Qed.

End IOMapClaims.

(** ** The lineage resolver *)

Module LineageFacts.

Import Lineage PyFacts.

(** The handler of the source for a missing parent process is never
    entered: reading the [uri] of the tags found raises KeyError only. *)
Lemma prev_steps_of_raises all_input_soup e :
  prev_steps_of all_input_soup = Raise e → ∃ k, e = KeyError k.
Proof.
  unfold prev_steps_of. intros (x & _ & Hx)%comprehension_raises.
  apply get_attr_raises in Hx. eauto.
Qed.

(** The relations retained at the match step are all the relations but
    the PerInput ResultFiles. *)
Lemma target_arts_of_filter stream step_soup target_arts :
  target_arts_of stream step_soup = Return target_arts →
  ∃ rs,
    comprehension (relation_of stream)
                  (find_all "input-output-map" step_soup) = Return rs
    ∧ target_arts = filter (λ r, skipped r = false) rs.
Proof.
  unfold target_arts_of.
  generalize (find_all "input-output-map" step_soup). intros iomaps.
  enough (Hgen : ∀ acc,
    for_each
      (λ target_arts iomap,
         art_uri ← strip_query <$>
                   (subscript_of (find stream iomap) ≫= get_attr "uri");
         art_type ← subscript_of (find "output" iomap)
                    ≫= get_attr "output-type";
         art_generation_type ← subscript_of (find "output" iomap)
                               ≫= get_attr "output-generation-type";
         if String.eqb art_generation_type "PerInput"
            && String.eqb art_type "ResultFile"
         then Return target_arts
         else Return (target_arts
                      ++ [mkPSA art_uri art_type art_generation_type]))
      iomaps acc = Return target_arts →
    ∃ rs, comprehension (relation_of stream) iomaps = Return rs
          ∧ target_arts = acc ++ filter (λ r, skipped r = false) rs)
    by apply (Hgen []).
  revert target_arts.
  induction iomaps as [|io iomaps IH]; intros ts acc.
  - cbn. intros [= <-]. exists []. by rewrite filter_nil, app_nil_r.
  - cbn [for_each comprehension].
    destruct (relation_of stream io) as [r|e] eqn:Hr; unfold relation_of in Hr.
    + destruct (strip_query <$> _) as [u|]; outcome_simpl; [|done].
      destruct (subscript_of (find "output" io) ≫= get_attr "output-type")
        as [ty|]; outcome_simpl; [|done].
      destruct (subscript_of (find "output" io)
                ≫= get_attr "output-generation-type")
        as [gen|]; outcome_simpl; [|done].
      injection Hr as <-.
      destruct (String.eqb gen "PerInput" && String.eqb ty "ResultFile")
        eqn:Hskip; outcome_simpl.
      * intros (rs & Hrs & ->)%IH. rewrite Hrs. outcome_simpl.
        eexists. split; [done|].
        rewrite filter_cons, decide_False; [done|].
        unfold skipped. cbn [generation_type art_type]. by rewrite Hskip.
      * intros (rs & Hrs & ->)%IH. rewrite Hrs. outcome_simpl.
        eexists. split; [done|].
        rewrite filter_cons, decide_True; [by rewrite <- app_assoc|].
        unfold skipped. cbn [generation_type art_type]. by rewrite Hskip.
    + destruct (strip_query <$> _) as [u|]; outcome_simpl; [|done].
      destruct (subscript_of (find "output" io) ≫= get_attr "output-type")
        as [ty|]; outcome_simpl; [|done].
      destruct (subscript_of (find "output" io)
                ≫= get_attr "output-generation-type")
        as [gen|]; outcome_simpl; done.
Qed.

Lemma target_arts_of_not_skipped stream step_soup target_arts :
  target_arts_of stream step_soup = Return target_arts →
  Forall (λ x, skipped x = false) target_arts.
Proof.
  intros (rs & _ & ->)%target_arts_of_filter.
  apply Forall_forall. by intros x [? _]%list_elem_of_filter.
Qed.

(** *** The store *)

Lemma clean_setdefault_append k x h d :
  skipped x = false → clean h →
  clean (setdefault_append k x (h, d)).1.
Proof.
  intros Hx Hh. unfold setdefault_append. cbn [fst snd].
  destruct (d !! k) as [l|]; cbn [fst].
  - unfold clean. apply Forall_alter; [done|].
    intros xs _ Hxs. apply Forall_app. split; [done|by repeat constructor].
  - apply Forall_app. split; [done|]. by repeat constructor.
Qed.

(** Anything that every [setdefault_append] of a target preserves holds
    after the two nested loops of [index_targets]. *)
Lemma index_targets_inv
    (J : list (list PreviousStepArtifact) * gmap string loc → Prop)
    target_arts all_target_soup h a' :
  (∀ k x a, x ∈ target_arts → J a → J (setdefault_append k x a)) →
  J (h, ∅) →
  index_targets target_arts all_target_soup h = Return a' → J a'.
Proof.
  intros Hstep. unfold index_targets.
  assert (Hinner : ∀ art ts, (∀ y, y ∈ ts → y ∈ target_arts) →
    ∀ a a1, J a →
      for_each
        (λ acc target_art,
           u ← get_attr "uri" art;
           if String.eqb (strip_query u) (uri target_art) then
             smp ← subscript_of (find "sample" art) ≫= get_attr "uri";
             Return (setdefault_append smp target_art acc)
           else Return acc) ts a = Return a1 →
      J a1).
  { intros art. induction ts as [|x ts IH]; intros Hsub a a1 Ha.
    - cbn. by intros [= <-].
    - cbn [for_each].
      assert (Hx : x ∈ target_arts) by (apply Hsub; by left).
      assert (Hts : ∀ y, y ∈ ts → y ∈ target_arts)
        by (intros y Hy; apply Hsub; by right).
      destruct (get_attr "uri" art) as [u|]; outcome_simpl; [|done].
      destruct (String.eqb (strip_query u) (uri x)); [|by apply IH].
      destruct (subscript_of (find "sample" art) ≫= get_attr "uri")
        as [smp|]; outcome_simpl; [|done].
      apply IH; [done|]. by apply Hstep. }
  generalize (h, ∅ : gmap string loc).
  generalize (find_all "art:artifact" all_target_soup). intros arts.
  induction arts as [|art arts IH]; intros a Ha.
  - cbn. by intros [= <-].
  - cbn [for_each].
    destruct (for_each _ target_arts a) as [a1|] eqn:Hin; outcome_simpl;
      [|done].
    apply IH. by eapply Hinner.
Qed.

Lemma clean_index_targets target_arts all_target_soup h h' d :
  Forall (λ x, skipped x = false) target_arts → clean h →
  index_targets target_arts all_target_soup h = Return (h', d) →
  clean h'.
Proof.
  intros Hts Hh Hidx.
  apply (index_targets_inv (λ a, clean a.1)) in Hidx; [done| |done].
  intros k x [h1 d1] Hx Ha. apply clean_setdefault_append; [|done].
  rewrite Forall_forall in Hts. by apply Hts.
Qed.

Lemma clean_add_shared target_arts h d :
  Forall (λ x, skipped x = false) target_arts → clean h →
  clean (add_shared target_arts (h, d)).1.
Proof.
  unfold add_shared. revert h d.
  induction target_arts as [|x ts IH]; intros h d Hts Hh; [done|].
  apply Forall_cons in Hts as [Hx Hts]. cbn [foldl].
  destruct (String.eqb (art_type x) "ResultFile"); [|by apply IH].
  destruct (setdefault_append "shared" x (h, d)) as [h1 d1] eqn:Hsd.
  apply IH; [done|].
  change h1 with (h1, d1).1. rewrite <- Hsd.
  by apply clean_setdefault_append.
Qed.

(** What the loop over the supplied artifacts leaves in [results]. *)
Lemma assign_results_spec target_smp_arts items :
  ∀ res o res',
    assign_results target_smp_arts items res = (o, res') →
    (∀ k, k ∉ items.*1 → res' !! k = res !! k)
    ∧ (∀ k, is_Some (res !! k) → is_Some (res' !! k))
    ∧ match o with
      | Return _ => ∀ a, a ∈ items.*1 → is_Some (res' !! a)
      | Raise e =>
          ∃ a s, (a, s) ∈ items ∧ target_smp_arts !! s = None
                 ∧ e = misaligned a
      end.
Proof.
  induction items as [|[a s] items IH]; intros res o res'.
  - cbn. intros [= <- <-]. repeat split; [done|]. by intros a ?%elem_of_nil.
  - cbn [assign_results]. destruct (target_smp_arts !! s) as [l|] eqn:Hs.
    + intros (Hother & Hmono & Ho)%IH. split; [|split].
      * intros k Hk. cbn in Hk. apply not_elem_of_cons in Hk as [Hka Hk].
        rewrite (Hother k Hk). by rewrite lookup_insert_ne.
      * intros k Hk. apply Hmono. destruct (decide (a = k)) as [->|Hne].
        -- rewrite lookup_insert_eq. eauto.
        -- by rewrite lookup_insert_ne.
      * destruct o as [[]|e].
        -- intros a' Ha'. cbn in Ha'. apply elem_of_cons in Ha' as [->|Ha'].
           ++ apply Hmono. rewrite lookup_insert_eq. eauto.
           ++ by apply Ho.
        -- destruct Ho as (a' & s' & Hin & Hnone & ->).
           exists a', s'. split; [by apply elem_of_cons; right|done].
    + intros [= <- <-]. repeat split; [done|].
      exists a, s. split; [by apply elem_of_cons; left|done].
Qed.

(** The lists that existed before the index was built are left alone:
    the index only appends to lists of its own. *)
Lemma index_targets_frame target_arts all_target_soup h h' d :
  index_targets target_arts all_target_soup h = Return (h', d) →
  ∀ l, (l < length h)%nat → h' !! l = h !! l.
Proof.
  intros Hidx.
  apply (index_targets_inv
           (λ a, (length h ≤ length a.1)%nat
                 ∧ (∀ l, (l < length h)%nat → a.1 !! l = h !! l)
                 ∧ ∀ k l, a.2 !! k = Some l → (length h ≤ l)%nat))
    in Hidx; [by destruct Hidx as (_ & ? & _)| |].
  - intros k x [h1 d1] _ (Hlen & Hpre & Hfresh). cbn [fst snd] in *.
    unfold setdefault_append. cbn [fst snd].
    destruct (d1 !! k) as [l|] eqn:Hk; cbn [fst snd].
    + split; [by rewrite length_alter|]. split; [|done].
      intros l' Hl'. rewrite list_lookup_alter_ne; [by apply Hpre|].
      apply Hfresh in Hk. lia.
    + split; [rewrite length_app; lia|]. split.
      * intros l' Hl'. rewrite lookup_app_l by lia. by apply Hpre.
      * intros k' l'. destruct (decide (k = k')) as [->|Hne].
        -- rewrite lookup_insert_eq. intros [= <-]. done.
        -- rewrite lookup_insert_ne by done. apply Hfresh.
  - cbn [fst snd]. split; [done|]. split; [done|].
    intros k l. by rewrite lookup_empty.
Qed.

(** The last loop in one step: the retained ResultFiles are appended, in
    order, to the list under ['shared'], made first when there is none. *)
Lemma add_shared_closed target_arts :
  ∀ h d,
    add_shared target_arts (h, d)
    = match result_files target_arts with
      | [] => (h, d)
      | rf =>
          match d !! "shared" with
          | Some l => (alter (λ xs, xs ++ rf) l h, d)
          | None => (h ++ [rf], <["shared" := length h]> d)
          end
      end.
Proof.
  unfold add_shared, result_files.
  induction target_arts as [|x ts IH]; intros h d; [done|].
  cbn [foldl]. rewrite filter_cons.
  destruct (String.eqb_spec (art_type x) "ResultFile") as [Hx|Hx].
  - rewrite decide_True by done. unfold setdefault_append. cbn [fst snd].
    destruct (d !! "shared") as [l|] eqn:Hd.
    + rewrite IH, Hd. destruct (filter _ ts) as [|y rf]; [done|].
      rewrite list_alter_alter_eq. f_equal.
      apply list_alter_ext; [|done]. intros xs _. cbn.
      by rewrite <- app_assoc.
    + rewrite IH, lookup_insert_eq. destruct (filter _ ts) as [|y rf]; [done|].
      f_equal. rewrite <- (Nat.add_0_r (length h)). by rewrite alter_app_r.
  - rewrite decide_False by done. apply IH.
Qed.

Section WithTransport.

Variable api_get : pyarg → outcome node.
Variable set_iter : list string → list string.

Lemma match_step_clean stream art_smp_uris step_soup st o st' :
  clean (lists st) →
  match_step api_get stream art_smp_uris step_soup st = (o, st') →
  clean (lists st').
Proof.
  intros Hst. unfold match_step.
  destruct (target_arts_of stream step_soup) as [ts|] eqn:Hts;
    [|by intros [= _ <-]].
  apply target_arts_of_not_skipped in Hts.
  destruct (api_get _) as [soup|]; [|by intros [= _ <-]].
  destruct (index_targets ts soup (lists st)) as [[h d]|] eqn:Hidx;
    [|by intros [= _ <-]].
  apply clean_index_targets in Hidx; [|done|done].
  destruct (assign_results d art_smp_uris (results st)) as [[[]|e] res].
  - intros [= _ <-]. cbn [lists]. by apply clean_add_shared.
  - by intros [= _ <-].
Qed.

Lemma get_artifacts_previous_step_clean fuel dest_step stream art_smp_uris :
  ∀ step_soup st o st',
    clean (lists st) →
    get_artifacts_previous_step api_get set_iter fuel dest_step stream
                                art_smp_uris step_soup st = Some (o, st') →
    clean (lists st').
Proof.
  induction fuel as [|fuel IH]; intros step_soup st o st' Hst; [done|].
  cbn [get_artifacts_previous_step].
  destruct (step_name_of step_soup) as [nm|]; [|by intros [= _ <-]].
  destruct (negb (String.eqb nm dest_step)).
  - destruct (_ ≫= _) as [soup|]; [|by intros [= _ <-]].
    destruct (prev_steps_of soup) as [refs|[]]; try by intros [= _ <-].
    destruct (set_iter refs) as [|step_uri ?]; [by intros [= _ <-]|].
    destruct (api_get (ArgStr step_uri)) as [soup'|]; [|by intros [= _ <-]].
    by apply IH.
  - intros [= H]. by eapply match_step_clean.
Qed.

End WithTransport.

Lemma skipped_false x :
  skipped x = false
  ↔ ¬ (generation_type x = "PerInput" ∧ art_type x = "ResultFile").
Proof.
  unfold skipped. rewrite andb_false_iff, !String.eqb_neq. split.
  - intros [H|H] [? ?]; by apply H.
  - intros H. destruct (decide (generation_type x = "PerInput"));
      [right|by left]. intros ?. by apply H.
Qed.

Lemma read_clean st k xs :
  clean (lists st) → read st !! k = Some xs →
  Forall (λ x, skipped x = false) xs.
Proof.
  intros Hst. unfold read. rewrite lookup_fmap.
  destruct (results st !! k) as [l|]; [|done]. cbn. intros [= <-].
  destruct (lists st !! l) as [ys|] eqn:Hl; cbn; [|done].
  by eapply Forall_lookup_1 in Hst.
Qed.

End LineageFacts.

(** ** Claims about the lineage resolver *)

Module LineageClaims.

Import Lineage PyFacts LineageFacts Scenario.

Section WithTransport.

Variable api_get : pyarg → outcome node.
Variable set_iter : list string → list string.

(** At the step looked for the call needs no recursion: any fuel but none
    gives what the match step gives. *)
Lemma match_step_reached fuel dest_step stream art_smp_uris step_soup st :
  step_name_of step_soup = Return dest_step →
  get_artifacts_previous_step api_get set_iter (S fuel) dest_step stream
                              art_smp_uris step_soup st
  = Some (match_step api_get stream art_smp_uris step_soup st).
Proof.
  intros Hname. cbn [get_artifacts_previous_step].
  by rewrite Hname, String.eqb_refl.
Qed.

(** C5, as the code has it: at the match step the list under ['shared']
    receives one entry for every relation whose output type is
    "ResultFile" and whose generation-kind is not "PerInput", in the order
    of the relations and with repetitions; the entries come after what the
    accumulator held under ['shared'], and no list is made when there is
    nothing to add. *)
Theorem shared_holds_retained_result_files stream art_smp_uris step_soup
    st st' :
  "shared" ∉ art_smp_uris.*1 →
  (∀ l, results st !! "shared" = Some l → (l < length (lists st))%nat) →
  match_step api_get stream art_smp_uris step_soup st
  = (Return RetResults, st') →
  ∃ relations,
    comprehension (relation_of stream)
                  (find_all "input-output-map" step_soup) = Return relations
    ∧ let shared :=
        filter (λ r, art_type r = "ResultFile"
                     ∧ generation_type r ≠ "PerInput") relations in
      read st' !! "shared"
      = match read st !! "shared" with
        | Some old => Some (old ++ shared)
        | None => match shared with [] => None | _ => Some shared end
        end.
Proof.
  intros Hkey Hwf. unfold match_step.
  destruct (target_arts_of stream step_soup) as [ts|] eqn:Hts; [|done].
  destruct (target_arts_of_filter _ _ _ Hts) as (rs & Hrs & Hfilter).
  destruct (api_get _) as [soup|]; [|done].
  destruct (index_targets ts soup (lists st)) as [[h d]|] eqn:Hidx; [|done].
  pose proof (index_targets_frame _ _ _ _ _ Hidx) as Hframe.
  destruct (assign_results d art_smp_uris (results st)) as [[[]|e] res]
    eqn:Hassign; [|done].
  apply assign_results_spec in Hassign as (Hother & _ & _).
  specialize (Hother "shared" Hkey).
  intros [= <-]. exists rs. split; [done|]. cbn zeta.
  assert (Hshared : result_files ts
                    = filter (λ r, art_type r = "ResultFile"
                                   ∧ generation_type r ≠ "PerInput") rs).
  { unfold result_files. rewrite Hfilter, list_filter_filter.
    apply list_filter_iff. intros x. rewrite skipped_false. split.
    - intros [Hty Hsk]. split; [done|]. intros Hgen. by apply Hsk.
    - intros [Hty Hgen]. split; [done|]. by intros [? _]. }
  rewrite <- Hshared. rewrite add_shared_closed, Hother.
  unfold read. rewrite !lookup_fmap.
  destruct (results st !! "shared") as [l|] eqn:Hl;
    destruct (result_files ts) as [|x rf] eqn:Hrf;
    cbn [fst snd lists results]; rewrite ?Hother, ?Hl;
    cbn [fmap option_fmap option_map].
  - rewrite (Hframe l (Hwf l eq_refl)). by rewrite app_nil_r.
  - f_equal.
    rewrite list_lookup_alter_eq, (Hframe l (Hwf l eq_refl)).
    destruct (lookup_lt_is_Some_2 (lists st) l (Hwf l eq_refl)) as [old ->].
    done.
  - done.
  - rewrite lookup_insert_eq. cbn. f_equal.
    by rewrite lookup_app_r, Nat.sub_diag by done.
Qed.

(** C9: a relation whose output is a PerInput ResultFile is skipped at the
    match step: the retained relations are all the others, in order, and
    no list a caller reads from the result, that of an originating artifact
    or the one under ['shared'], holds a PerInput ResultFile, as long as
    the accumulator held none before the call. *)
Theorem per_input_result_files_skipped fuel dest_step stream art_smp_uris
    step_soup st o st' :
  clean (lists st) →
  get_artifacts_previous_step api_get set_iter fuel dest_step stream
                              art_smp_uris step_soup st = Some (o, st') →
  (∀ key ancestors x,
     read st' !! key = Some ancestors → x ∈ ancestors →
     ¬ (generation_type x = "PerInput" ∧ art_type x = "ResultFile"))
  ∧ (∀ match_soup target_arts,
       target_arts_of stream match_soup = Return target_arts →
       ∃ relations,
         comprehension (relation_of stream)
                       (find_all "input-output-map" match_soup)
         = Return relations
         ∧ target_arts
           = filter (λ r, ¬ (generation_type r = "PerInput"
                             ∧ art_type r = "ResultFile")) relations).
Proof.
  intros Hst Hrun. split.
  - intros key xs x Hread Hx.
    apply get_artifacts_previous_step_clean in Hrun; [|done].
    apply (read_clean _ _ _ Hrun) in Hread.
    rewrite Forall_forall in Hread. by apply skipped_false, Hread.
  - intros soup ts (rs & Hrs & ->)%target_arts_of_filter.
    exists rs. split; [done|].
    apply list_filter_iff. intros x. apply skipped_false.
Qed.

(** When the call returns the result mapping, every originating artifact
    supplied is a key of it; what is raised for a sample that is missing at
    the match step names the artifact. *)
Lemma match_step_complete stream art_smp_uris step_soup st o st' :
  match_step api_get stream art_smp_uris step_soup st = (o, st') →
  match o with
  | Return RetResults =>
      ∀ a, a ∈ art_smp_uris.*1 → is_Some (read st' !! a)
  | Return RetNone => False
  | Raise _ => True
  end.
Proof.
  unfold match_step.
  destruct (target_arts_of stream step_soup) as [ts|]; [|by intros [= <- _]].
  destruct (api_get _) as [soup|]; [|by intros [= <- _]].
  destruct (index_targets ts soup (lists st)) as [[h d]|];
    [|by intros [= <- _]].
  destruct (assign_results d art_smp_uris (results st)) as [[[]|e] res]
    eqn:Hassign; [|by intros [= <- _]].
  apply assign_results_spec in Hassign as (_ & _ & Hkeys).
  intros [= <- <-]. intros a Ha. unfold read. rewrite lookup_fmap.
  apply fmap_is_Some. rewrite add_shared_closed. cbn [results].
  destruct (result_files ts); [by apply Hkeys|].
  destruct (res !! "shared") eqn:Hs; cbn [snd]; [by apply Hkeys|].
  destruct (decide ("shared" = a)) as [<-|Hne].
  - rewrite lookup_insert_eq. eauto.
  - rewrite lookup_insert_ne by done. by apply Hkeys.
Qed.

Lemma results_complete fuel dest_step stream art_smp_uris :
  ∀ step_soup st st',
    get_artifacts_previous_step api_get set_iter fuel dest_step stream
                                art_smp_uris step_soup st
    = Some (Return RetResults, st') →
    ∀ a, a ∈ art_smp_uris.*1 → is_Some (read st' !! a).
Proof.
  induction fuel as [|fuel IH]; intros step_soup st st'; [done|].
  cbn [get_artifacts_previous_step].
  destruct (step_name_of step_soup) as [nm|]; [|done].
  destruct (negb (String.eqb nm dest_step)).
  - destruct (_ ≫= _) as [soup|]; [|done].
    destruct (prev_steps_of soup) as [refs|[]]; try done.
    destruct (set_iter refs) as [|step_uri ?]; [done|].
    destruct (api_get (ArgStr step_uri)) as [soup'|]; [|done].
    apply IH.
  - intros [= H]. by apply match_step_complete in H.
Qed.

End WithTransport.

(** *** The traversal that runs out of history *)

(** A step that is not the one looked for and whose inputs have no parent
    process ends the call with [None]: the handler that would raise is
    never entered. *)
Lemma no_parent_process_returns_none api_get set_iter fuel dest_step stream
    art_smp_uris step_soup st step_name input_uris all_input_soup :
  set_iter [] = [] →
  step_name_of step_soup = Return step_name →
  step_name ≠ dest_step →
  comprehension (λ art, strip_query <$> get_attr "uri" art)
                (find_all "input" step_soup) = Return input_uris →
  api_get (ArgList input_uris) = Return all_input_soup →
  find_all "parent-process" all_input_soup = [] →
  get_artifacts_previous_step api_get set_iter (S fuel) dest_step stream
                              art_smp_uris step_soup st
  = Some (Return RetNone, st).
Proof.
  intros Hiter Hname Hne Huris Hget Hnone.
  cbn [get_artifacts_previous_step]. rewrite Hname.
  apply String.eqb_neq in Hne. rewrite Hne. cbn [negb].
  rewrite Huris. outcome_simpl. rewrite Hget.
  unfold prev_steps_of. rewrite Hnone. cbn [comprehension].
  by rewrite Hiter.
Qed.

(** C1: step P1 is not the step looked for and its input has no parent
    process.  The call neither raises nor loops: it returns [None], with
    any fuel and in any iteration order, the dictionary left as it was. *)
Theorem history_exhausted_returns_none :
  ∀ fuel,
    get_artifacts_previous_step api insertion_order (S fuel) "S" "input"
                                C1_only P1_doc fresh
    = Some (Return RetNone, fresh)
    ∧ get_artifacts_previous_step api reverse_order (S fuel) "S" "input"
                                  C1_only P1_doc fresh
      = Some (Return RetNone, fresh).
Proof. intros fuel. split; reflexivity. Qed.

(** C7: on the same call the supplied artifact is no key of anything
    returned and nothing is raised. *)
Theorem supplied_artifact_neither_key_nor_error :
  ∃ st,
    get_artifacts_previous_step api insertion_order 2 "S" "input"
                                C1_only P1_doc fresh
    = Some (Return RetNone, st)
    ∧ C1_only.*1 = ["artifacts/C1"]
    ∧ read st !! "artifacts/C1" = None.
Proof. exists fresh. repeat split; reflexivity. Qed.

(** *** Parent processes that differ *)


(** *** The end-to-end scenario on step S *)

(** C4: the scenario, evaluated.  Where the claim has O1 mapped to A1, O2
    to A2 and ['shared'] holding the ResultFile R once, the call maps each
    originating artifact to two references to the input of its sample, one
    typed Analyte and one typed ResultFile, and puts under ['shared'] the
    two inputs typed ResultFile: on the input side a reference carries the
    URI of the input with the type of the output, so that R itself is
    nowhere in the mapping. *)
Theorem scenario_S_input :
  get_artifacts_previous_step api insertion_order 1 "S" "input" O1_O2 S_doc
                              fresh
  = Some (Return RetResults, S_input_store)
  ∧ read S_input_store
    = {[ "artifacts/O1" := [A1_Analyte; A1_shared];
         "artifacts/O2" := [A2_Analyte; A2_shared];
         "shared" := [A1_shared; A2_shared] ]}.
Proof. split; reflexivity. Qed.

(** The mapping returned is not the one the scenario expects: one
    ancestor for each originating artifact and the shared ResultFile R
    once. *)
Lemma scenario_S_input_not_one_ancestor :
  ¬ ∃ st' a1 a2 r,
      get_artifacts_previous_step api insertion_order 1 "S" "input" O1_O2
                                  S_doc fresh
      = Some (Return RetResults, st')
      ∧ uri a1 = "artifacts/A1" ∧ uri a2 = "artifacts/A2"
      ∧ uri r = "artifacts/R"
      ∧ read st' = {[ "artifacts/O1" := [a1]; "artifacts/O2" := [a2];
                      "shared" := [r] ]}.
Proof.
  intros (st' & a1 & a2 & r & Hrun & _ & _ & _ & Hread).
  injection Hrun as <-.
  apply (f_equal (λ m, m !! "artifacts/O1")) in Hread.
  discriminate Hread.
Qed.

(** C3: two calls in a row with the default accumulator.  The second call
    finds the dictionary of the first: the list under ['shared'] has
    doubled and the two mappings differ. *)
Theorem default_accumulator_leaks :
  get_artifacts_previous_step api insertion_order 1 "S" "input" O1_O2 S_doc
                              fresh
  = Some (Return RetResults, S_input_store)
  ∧ get_artifacts_previous_step api insertion_order 1 "S" "input" O1_O2
                                S_doc S_input_store
    = Some (Return RetResults, S_input_store_again)
  ∧ read S_input_store !! "shared" = Some [A1_shared; A2_shared]
  ∧ read S_input_store_again !! "shared"
    = Some [A1_shared; A2_shared; A1_shared; A2_shared]
  ∧ read S_input_store ≠ read S_input_store_again.
Proof.
  repeat split; try reflexivity.
  intros H. apply (f_equal (λ m, m !! "shared")) in H. discriminate H.
Qed.

(** *** What goes under ['shared'] *)

Lemma shared_holds_retained_result_files_witness :
  ∃ relations,
    comprehension (relation_of "input")
                  (find_all "input-output-map" S_doc) = Return relations
    ∧ let shared :=
        filter (λ r, art_type r = "ResultFile"
                     ∧ generation_type r ≠ "PerInput") relations in
      read S_input_store !! "shared"
      = match read fresh !! "shared" with
        | Some old => Some (old ++ shared)
        | None => match shared with [] => None | _ => Some shared end
        end.
Proof.
  apply (shared_holds_retained_result_files api "input" O1_O2 S_doc fresh
           S_input_store).
  - apply (bool_decide_unpack _). reflexivity.
  - intros l H. discriminate H.
  - reflexivity.
Defined.

(** C5 as stated fails: on the output side of the pooling step the shared
    ResultFile is under ['shared'] twice, once for each of its relations,
    and the pooled Analyte, whose relations are PerAllInputs too, is not
    there. *)
Lemma shared_not_deduplicated :
  get_artifacts_previous_step api insertion_order 1 "Pool" "output"
                              [("artifacts/X1", "samples/s1")] Pool_doc fresh
  = Some (Return RetResults, Pool_output_store)
  ∧ read Pool_output_store !! "shared" = Some [R_shared; R_shared]
  ∧ ¬ NoDup [R_shared; R_shared]
  ∧ target_arts_of "output" Pool_doc
    = Return [Pool_Analyte; Pool_Analyte; R_shared; R_shared]
  ∧ generation_type Pool_Analyte = "PerAllInputs"
  ∧ Pool_Analyte ∉ [R_shared; R_shared].
Proof.
  repeat split; try reflexivity.
  - intros H. apply NoDup_cons in H as [H _]. apply H. by left.
  - apply (bool_decide_unpack _). reflexivity.
Qed.

Lemma per_input_result_files_skipped_witness :
  (∀ key ancestors x,
     read S_input_store !! key = Some ancestors → x ∈ ancestors →
     ¬ (generation_type x = "PerInput" ∧ art_type x = "ResultFile"))
  ∧ (∀ match_soup target_arts,
       target_arts_of "input" match_soup = Return target_arts →
       ∃ relations,
         comprehension (relation_of "input")
                       (find_all "input-output-map" match_soup)
         = Return relations
         ∧ target_arts
           = filter (λ r, ¬ (generation_type r = "PerInput"
                             ∧ art_type r = "ResultFile")) relations).
Proof.
  apply (per_input_result_files_skipped api insertion_order 1 "S" "input"
           O1_O2 S_files_doc fresh (Return RetResults) S_input_store).
  - constructor.
  - reflexivity.
Defined.

End LineageClaims.

(** ** URIs without their query suffix *)

Module NormalFacts.

Import Normal.

Lemma before_char_clean c s : contains_char c (before_char c s) = false.
Proof.
  induction s as [|a s IH]; [done|]. cbn [before_char].
  destruct (Ascii.eqb a c) eqn:Ha; [done|]. cbn [contains_char].
  by rewrite Ha, IH.
Qed.

Lemma before_char_id c s : contains_char c s = false → before_char c s = s.
Proof.
  induction s as [|a s IH]; [done|]. cbn [contains_char before_char].
  intros [Ha Hs]%orb_false_iff. rewrite Ha. by rewrite IH.
Qed.

Lemma before_char_app c s q :
  contains_char c s = false → before_char c (s +:+ String c q) = s.
Proof.
  induction s as [|a s IH]; cbn [contains_char].
  - intros _. simpl. by rewrite Ascii.eqb_refl.
  - intros [Ha Hs]%orb_false_iff. simpl. rewrite Ha. by rewrite IH.
Qed.

Lemma strip_query_clean uri : has_query (strip_query uri) = false.
Proof. apply before_char_clean. Qed.

(** X1: [uri.split('?')[0]] gives a URI without ['?'], is left alone by a
    second application, and gives the same URI for every suffix put after
    it: URIs that differ in their suffix only are one key. *)
Theorem strip_query_normal (uri suffix : string) :
  has_query (strip_query uri) = false
  ∧ strip_query (strip_query uri) = strip_query uri
  ∧ strip_query (strip_query uri +:+ "?" +:+ suffix) = strip_query uri.
Proof.
  unfold has_query, strip_query. split; [apply before_char_clean|].
  split.
  - apply before_char_id, before_char_clean.
  - apply (before_char_app "?"), before_char_clean.
Qed.

End NormalFacts.

(** ** What [get_artifacts] asks for and returns *)

Module GetArtifactsFacts.

Import IOMap IOMapSpec Normal NormalFacts PyFacts.

Lemma comprehension_Forall2 {A B} (f : A → outcome B) xs ys :
  comprehension f xs = Return ys → Forall2 (λ x y, f x = Return y) xs ys.
Proof.
  revert ys. induction xs as [|x xs IH]; intros ys.
  - cbn. intros [= <-]. constructor.
  - cbn [comprehension]. destruct (f x) as [y|] eqn:Hx; outcome_simpl; [|done].
    destruct (comprehension f xs) as [ys'|]; outcome_simpl; [|done].
    intros [= <-]. constructor; [done|]. by apply IH.
Qed.


Lemma for_each_fixed {A S} (body : S → A → outcome S) xs acc :
  (∀ x, x ∈ xs → body acc x = Return acc) → for_each body xs acc = Return acc.
Proof.
  induction xs as [|x xs IH]; intros Hxs; [done|]. cbn [for_each].
  rewrite Hxs by (by left). outcome_simpl. apply IH.
  intros y Hy. apply Hxs. by right.
Qed.

(** What one record of the reply gives. *)
Lemma read_artifact_fields artifact_data a :
  read_artifact artifact_data = Return a →
  (∃ v, get_attr "uri" artifact_data = Return v
        ∧ uri a = Some (strip_query v))
  ∧ parent_process a = None
  ∧ container_name a = None ∧ container_type a = None.
Proof.
  unfold read_artifact.
  destruct (find "name" artifact_data); cbn [attr_of]; outcome_simpl; [|done].
  destruct (get_attr "uri" artifact_data) as [v|] eqn:Hv; outcome_simpl;
    [|done].
  destruct (find "type" artifact_data); cbn [attr_of]; outcome_simpl; [|done].
  destruct (find "sample" artifact_data) as [smp|]; cbn [subscript_of];
    outcome_simpl; [|done].
  destruct (get_attr "uri" smp); outcome_simpl; [|done].
  destruct (match find "reagent-label" artifact_data with
            | Some _ => _ | None => _ end); outcome_simpl; [|done].
  destruct (match find "location" artifact_data with
            | Some _ => _ | None => _ end); outcome_simpl; [|done].
  destruct (match find "container" artifact_data with
            | Some _ => _ | None => _ end); outcome_simpl; [|done].
  destruct (match find "parent-process" artifact_data with
            | Some _ => _ | None => _ end); outcome_simpl; [|done].
  destruct (for_each _ _ _); outcome_simpl; [|done].
  intros [= <-]. cbn. split; [by exists v|done].
Qed.

Section WithTransport.

Variable api_get : pyarg → outcome node.
Variable set_iter : list string → list string.


(** X3: when no relation has the asked side, or the output side is asked
    and every output is shared, [get_artifacts] returns the empty list in
    every mode, whatever the transport would answer. *)
Theorem get_artifacts_nothing_to_fetch stream uri_only container_info
    step_soup :
  (∀ io_map, io_map ∈ find_all "input-output-map" step_soup →
     find stream io_map = None
     ∨ (stream = "output"
        ∧ ∃ target gen,
            find "output" io_map = Some target
            ∧ get_attr "output-generation-type" target = Return gen
            ∧ gen ≠ "PerInput")) →
  get_artifacts api_get set_iter stream uri_only container_info step_soup
  = Return [].
Proof.
  intros Hnone. unfold get_artifacts.
  assert (Huris : stream_uris stream step_soup = Return []).
  { unfold stream_uris. apply for_each_fixed. intros io Hio.
    destruct (Hnone io Hio) as [->|(-> & t & gen & -> & Hgen & Hne)]; [done|].
    cbn. rewrite Hgen. outcome_simpl.
    apply String.eqb_neq in Hne. by rewrite Hne. }
  by rewrite Huris.
Qed.

(** X4: with [uri_only] the list holds URIs only, none with a query
    suffix. *)
Theorem get_artifacts_uri_only stream container_info step_soup items :
  get_artifacts api_get set_iter stream true container_info step_soup
  = Return items →
  Forall (λ it, ∃ u, it = ArtUri (Some u) ∧ has_query u = false) items.
Proof.
  unfold get_artifacts.
  destruct (stream_uris stream step_soup) as [[|u0 us]|]; outcome_simpl;
    [by intros [= <-]| |done].
  destruct (api_get _) as [batch|]; outcome_simpl; [|done].
  destruct (comprehension read_artifact _) as [arts|] eqn:Harts;
    outcome_simpl; [|done].
  cbn [negb andb]. intros [= <-].
  apply comprehension_Forall2 in Harts. apply Forall_fmap.
  induction Harts as [|tag a tags arts Ha _ IH]; constructor; [|done].
  cbn. apply read_artifact_fields in Ha as ((v & _ & ->) & _).
  eexists. split; [done|]. apply strip_query_clean.
Qed.

(** X5: no artifact that [get_artifacts] returns has its parent process
    filled in, and without [container_info] none has the name or the type
    of its container. *)
Theorem get_artifacts_fields_left_empty stream container_info step_soup
    items :
  get_artifacts api_get set_iter stream false container_info step_soup
  = Return items →
  Forall (λ it, ∃ a, it = ArtObj a
                     ∧ parent_process a = None
                     ∧ (container_info = false →
                        container_name a = None ∧ container_type a = None))
         items.
Proof.
  unfold get_artifacts.
  destruct (stream_uris stream step_soup) as [[|u0 us]|]; outcome_simpl;
    [by intros [= <-]| |done].
  destruct (api_get _) as [batch|]; outcome_simpl; [|done].
  destruct (comprehension read_artifact _) as [arts|] eqn:Harts;
    outcome_simpl; [|done].
  apply comprehension_Forall2 in Harts.
  assert (Hfields : Forall (λ a, parent_process a = None
                                 ∧ container_name a = None
                                 ∧ container_type a = None) arts).
  { clear -Harts. induction Harts as [|tag a tags arts Ha _ IH]; constructor;
      [|done]. by apply read_artifact_fields in Ha as (_ & ? & ? & ?). }
  clear Harts. cbn [negb andb].
  destruct (container_info && bool_decide (omap container_uri arts ≠ []))
    eqn:Hc.
  - apply andb_true_iff in Hc as [-> _].
    destruct (api_get _) as [con_soups|]; outcome_simpl; [|done].
    destruct (for_each _ _ _) as [con_uri_info|]; outcome_simpl; [|done].
    intros Hitems%comprehension_Forall2.
    induction Hitems as [|a it arts' items' Ha _ IH]; [constructor|].
    apply Forall_cons in Hfields as [(Hp & _) Hfields].
    constructor; [|by apply IH].
    destruct (container_uri a ≫= _) as [info|]; cbn [attr_of] in Ha;
      outcome_simpl; [|done].
    injection Ha as <-. eexists. split; [done|]. split; [done|]. done.
  - intros [= <-]. apply Forall_fmap.
    eapply Forall_impl; [exact Hfields|]. cbn. intros a (? & ? & ?).
    eexists. eauto.
Qed.

(** X6: with [container_info] the artifacts returned either all lack a
    container or all have one together with its name and its type: a list
    where only some have a container is never returned. *)
Theorem get_artifacts_container_info_all_or_none stream step_soup items :
  get_artifacts api_get set_iter stream false true step_soup = Return items →
  Forall (λ it, ∃ a, it = ArtObj a ∧ container_uri a = None) items
  ∨ Forall (λ it, ∃ a, it = ArtObj a
                       ∧ is_Some (container_uri a)
                       ∧ is_Some (container_name a)
                       ∧ is_Some (container_type a)) items.
Proof.
  unfold get_artifacts.
  destruct (stream_uris stream step_soup) as [[|u0 us]|]; outcome_simpl;
    [intros [= <-]; left; constructor| |done].
  destruct (api_get _) as [batch|]; outcome_simpl; [|done].
  destruct (comprehension read_artifact _) as [arts|] eqn:Harts;
    outcome_simpl; [|done].
  clear Harts. cbn [negb andb].
  destruct (bool_decide (omap container_uri arts ≠ [])) eqn:Hc.
  - destruct (api_get _) as [con_soups|]; outcome_simpl; [|done].
    destruct (for_each _ _ _) as [con_uri_info|]; outcome_simpl; [|done].
    intros Hitems%comprehension_Forall2. right. clear Hc.
    induction Hitems as [|a it arts' items' Ha _ IH]; constructor; [|done].
    destruct (container_uri a) as [cu|] eqn:Hcu; cbn in Ha; [|done].
    destruct (con_uri_info !! cu) as [info|]; cbn in Ha; [|done].
    injection Ha as <-. eexists. split; [done|]. cbn. rewrite Hcu. eauto.
  - intros [= <-]. left. apply bool_decide_eq_false in Hc.
    apply dec_stable in Hc. apply Forall_fmap, Forall_forall.
    intros a Ha. cbn. eexists. split; [done|].
    destruct (container_uri a) as [cu|] eqn:Hcu; [|done].
    assert (cu ∈ omap container_uri arts)
      by (apply list_elem_of_omap; eauto).
    rewrite Hc in H. by apply elem_of_nil in H.
Qed.

End WithTransport.


Lemma get_artifacts_nothing_to_fetch_witness :
  get_artifacts Lab.api Scenario.insertion_order "output" false true
                Lab.Shared_only_doc
  = Return [].
Proof.
  apply (get_artifacts_nothing_to_fetch Lab.api Scenario.insertion_order
           "output" false true Lab.Shared_only_doc).
  intros io_map Hin. right. split; [reflexivity|].
  assert (Hio : io_map ∈ [Scenario.iomap "artifacts/A1" "artifacts/R"
                                         "ResultFile" "PerAllInputs"])
    by exact Hin.
  apply list_elem_of_singleton in Hio as ->.
  eexists _, "PerAllInputs". split; [reflexivity|].
  split; [reflexivity|discriminate].
Defined.

Lemma get_artifacts_uri_only_witness :
  Forall (λ it, ∃ u, it = ArtUri (Some u) ∧ has_query u = false)
         [ArtUri (Some "artifacts/O1"); ArtUri (Some "artifacts/O2")].
Proof.
  apply (get_artifacts_uri_only Lab.api Scenario.insertion_order "output"
           false Scenario.S_doc).
  reflexivity.
Defined.

Lemma get_artifacts_fields_left_empty_witness :
  Forall (λ it, ∃ a, it = ArtObj a
                     ∧ parent_process a = None
                     ∧ (false = false →
                        container_name a = None ∧ container_type a = None))
         [ArtObj Lab.O1_art; ArtObj Lab.O2_art].
Proof.
  apply (get_artifacts_fields_left_empty Lab.api Scenario.insertion_order
           "output" false Scenario.S_doc).
  reflexivity.
Defined.

Lemma get_artifacts_container_info_all_or_none_witness :
  Forall (λ it, ∃ a, it = ArtObj a ∧ container_uri a = None)
         [ArtObj (Lab.on_plate Lab.O1_art); ArtObj (Lab.on_plate Lab.O2_art)]
  ∨ Forall (λ it, ∃ a, it = ArtObj a
                       ∧ is_Some (container_uri a)
                       ∧ is_Some (container_name a)
                       ∧ is_Some (container_type a))
           [ArtObj (Lab.on_plate Lab.O1_art);
            ArtObj (Lab.on_plate Lab.O2_art)].
Proof.
  apply (get_artifacts_container_info_all_or_none Lab.api
           Scenario.insertion_order "output" Scenario.S_doc).
  reflexivity.
Defined.

End GetArtifactsFacts.

(** ** More on [get_artifact_map] *)

Module ArtifactMapFacts.

Import IOMap IOMapSpec Normal NormalFacts PyFacts GetArtifactsFacts.

Lemma for_each_ext {A S} (f g : S → A → outcome S) xs acc :
  (∀ a x, f a x = g a x) → for_each f xs acc = for_each g xs acc.
Proof.
  intros Hfg. revert acc. induction xs as [|x xs IH]; intros acc; [done|].
  cbn [for_each]. rewrite Hfg. destruct (g acc x); outcome_simpl; [|done].
  apply IH.
Qed.

(** X7: the map of URIs is read off the step document alone: it is the
    same whatever the transport answers. *)
Theorem get_artifact_map_uri_only_no_transport
    (api_get api_get' : pyarg → outcome node)
    (set_iter set_iter' : list string → list string) (step_soup : node) :
  get_artifact_map api_get set_iter true false step_soup
  = get_artifact_map api_get' set_iter' true false step_soup.
Proof.
  unfold get_artifact_map. cbn [negb]. outcome_simpl. cbn [fst snd].
  rewrite (for_each_ext (map_step api_get true false)
                        (map_step api_get' true false)); [done|].
  intros st io. unfold map_step.
  destruct (subscript_of (find "output" io)
            ≫= get_attr "output-generation-type"); outcome_simpl; [|done].
  destruct (String.eqb _ _); [|done].
  destruct (subscript_of (find "input" io) ≫= get_attr "uri");
    outcome_simpl; [|done].
  by destruct (subscript_of (find "output" io) ≫= get_attr "uri").
Qed.

Section WithTransport.

Variable api_get : pyarg → outcome node.
Variable set_iter : list string → list string.

(** The keys of a lookup table are URIs without their suffix. *)
Lemma uri_art_keys stream step_soup table :
  uri_art api_get set_iter stream step_soup = Return table →
  ∀ k a, table !! k = Some a → ∃ u, k = Some u ∧ has_query u = false.
Proof.
  unfold uri_art.
  destruct (get_artifacts _ _ _ _ _ _) as [items|] eqn:Hitems; outcome_simpl;
    [|done].
  intros [= <-].
  assert (Huris : Forall (λ it, ∃ a u, it = ArtObj a ∧ uri a = Some u
                                       ∧ has_query u = false) items).
  { revert Hitems. unfold get_artifacts.
    destruct (stream_uris stream step_soup) as [[|u0 us]|]; outcome_simpl;
      [by intros [= <-]| |done].
    destruct (api_get _) as [batch|]; outcome_simpl; [|done].
    destruct (comprehension read_artifact _) as [arts|] eqn:Harts;
      outcome_simpl; [|done].
    cbn [negb andb]. intros [= <-].
    apply comprehension_Forall2 in Harts. apply Forall_fmap.
    induction Harts as [|tag a tags arts Ha _ IH]; constructor; [|done].
    cbn. apply read_artifact_fields in Ha as ((v & _ & Hu) & _).
    exists a, (strip_query v). split; [done|]. split; [done|].
    apply strip_query_clean. }
  clear Hitems.
  enough (Hgen : ∀ m : gmap (option string) Artifact,
    (∀ k a, m !! k = Some a → ∃ u, k = Some u ∧ has_query u = false) →
    ∀ k a,
      foldl (λ m it, match it with
                     | ArtObj a => <[uri a := a]> m
                     | ArtUri _ => m
                     end) m items !! k = Some a →
      ∃ u, k = Some u ∧ has_query u = false).
  { apply Hgen. intros k a. by rewrite lookup_empty. }
  induction Huris as [|it items (a0 & u & -> & Hu & Hq) _ IH]; intros m Hm;
    [done|].
  cbn [foldl]. apply IH. intros k a.
  destruct (decide (uri a0 = k)) as [<-|Hne].
  - intros _. exists u. by rewrite Hu.
  - rewrite lookup_insert_ne by done. apply Hm.
Qed.

Lemma enrich_inv (var : string) (d : gmap (option string) Artifact)
    (u : string) r :
  enrich api_get var (Some d) u = Return r →
  ∃ art art', d !! Some u = Some art ∧ r = Some (<[Some u := art']> d).
Proof.
  unfold enrich, dict_get. cbn [local_var]. outcome_simpl.
  destruct (d !! Some u) as [art|]; outcome_simpl; [|done].
  destruct (api_get _); outcome_simpl; [|done].
  destruct (text <$> attr_of _); outcome_simpl; [|done].
  destruct (subscript_of _ ≫= _); outcome_simpl; [|done].
  intros [= <-]. eauto.
Qed.

Lemma enrich_miss (var : string) (d : gmap (option string) Artifact)
    (u : string) :
  d !! Some u = None → enrich api_get var (Some d) u = Raise (KeyError u).
Proof.
  intros H. unfold enrich, dict_get. cbn [local_var]. outcome_simpl.
  by rewrite H.
Qed.

Lemma hashable_miss (var : string) (d : gmap (option string) Artifact)
    (u : string) :
  d !! Some u = None → hashable var (Some d) u = Raise (KeyError u).
Proof.
  intros H. unfold hashable, dict_get. cbn [local_var]. outcome_simpl.
  by rewrite H.
Qed.

(** X8: when artifacts are asked for as objects, a PerInput relation whose
    input URI carries a query suffix makes [get_artifact_map] fail: the
    lookup tables are keyed by URIs without suffix, and the URI of the step
    document is looked up as it is. *)
Theorem get_artifact_map_suffixed_input_fails container_info step_soup :
  (∃ io_map input u,
     io_map ∈ find_all "input-output-map" step_soup
     ∧ is_per_input io_map = true
     ∧ find "input" io_map = Some input
     ∧ get_attr "uri" input = Return u
     ∧ has_query u = true) →
  ∃ e, get_artifact_map api_get set_iter false container_info step_soup
       = Raise e.
Proof.
  intros (io & input & u & Hin & Hper & Hinput & Hu & Hq).
  unfold get_artifact_map. cbn [negb].
  destruct (uri_art api_get set_iter "input" step_soup) as [ins|e] eqn:Hins;
    outcome_simpl; [|by eexists].
  destruct (uri_art api_get set_iter "output" step_soup) as [outs|e];
    outcome_simpl; [|by eexists].
  cbn [fst snd].
  pose proof (uri_art_keys _ _ _ Hins) as Hkeys. clear Hins.
  set (I := λ st : map_state,
         ∃ d, input_uri_art st = Some d
              ∧ ∀ k a, d !! k = Some a →
                       ∃ v, k = Some v ∧ has_query v = false).
  destruct (for_each_raises (map_step api_get false container_info) I
              (λ _, True) io) with
    (xs := find_all "input-output-map" step_soup)
    (acc0 := mkMapState (Some ins) (Some outs) ∅) as (e & He & _);
    [| | |done|by exists ins|by exists e; rewrite He].
  - (* the tables keep their keys *)
    intros st y st' (d & Hd & Hk). unfold map_step.
    destruct (subscript_of (find "output" y)
              ≫= get_attr "output-generation-type"); outcome_simpl; [|done].
    destruct (String.eqb _ _); [|intros [= <-]; by exists d].
    destruct (subscript_of (find "input" y) ≫= get_attr "uri") as [iu|];
      outcome_simpl; [|done].
    destruct (subscript_of (find "output" y) ≫= get_attr "uri") as [ou|];
      outcome_simpl; [|done].
    cbn [andb]. destruct container_info.
    + rewrite Hd.
      destruct (enrich api_get "input_uri_art" (Some d) iu) as [ins'|]
        eqn:Hen; outcome_simpl; [|done].
      apply enrich_inv in Hen as (art & art' & Hart & ->).
      destruct (enrich api_get "output_uri_art" _ _); outcome_simpl; [|done].
      destruct (hashable "input_uri_art" _ _); outcome_simpl; [|done].
      destruct (hashable "output_uri_art" _ _); outcome_simpl; [|done].
      intros [= <-]. eexists. split; [done|]. intros k a'.
      destruct (decide (Some iu = k)) as [<-|Hne].
      * intros _. by apply (Hk _ art).
      * rewrite lookup_insert_ne by done. apply Hk.
    + outcome_simpl.
      destruct (hashable "input_uri_art" _ _); outcome_simpl; [|done].
      destruct (hashable "output_uri_art" _ _); outcome_simpl; [|done].
      intros [= <-]. by exists d.
  - done.
  - (* the relation with the suffixed URI raises *)
    intros st (d & Hd & Hk). unfold map_step.
    revert Hper. unfold is_per_input.
    destruct (find "output" io) as [o|]; [|done]. cbn [subscript_of].
    outcome_simpl.
    destruct (get_attr "output-generation-type" o) as [gen|]; [|done].
    outcome_simpl. intros ->. rewrite Hinput. cbn [subscript_of].
    outcome_simpl. rewrite Hu. outcome_simpl.
    destruct (get_attr "uri" o) as [ou|]; outcome_simpl; [|done].
    cbn [andb].
    assert (Hmiss : d !! Some u = None).
    { destruct (d !! Some u) as [a|] eqn:Ha; [|done].
      destruct (Hk _ _ Ha) as (v & [= <-] & Hv). congruence. }
    rewrite Hd. destruct container_info.
    + by rewrite (enrich_miss _ _ _ Hmiss).
    + outcome_simpl. by rewrite (hashable_miss _ _ _ Hmiss).
Qed.

End WithTransport.

Lemma get_artifact_map_suffixed_input_fails_witness :
  ∃ e, get_artifact_map Lab.api Scenario.insertion_order false false
                        Lab.Suffixed_doc
       = Raise e.
Proof.
  apply (get_artifact_map_suffixed_input_fails Lab.api
           Scenario.insertion_order false Lab.Suffixed_doc).
  exists (Scenario.iomap "artifacts/A1?state=7" "artifacts/O1" "Analyte"
                         "PerInput"),
         (Elem "input" [("uri", "artifacts/A1?state=7")] []),
         "artifacts/A1?state=7".
  split; [apply (list_elem_of_lookup_2 _ 0); reflexivity|].
  repeat split; reflexivity.
Defined.

End ArtifactMapFacts.

(** ** More on [set_artifact_udf] *)

Module UdfMoreFacts.

Import Udf UdfSpec SoupFacts UdfFacts PyFacts GetArtifactsFacts.

Lemma set_udf_new art udf πs s :
  find_by (attr_matches "name" (name udf)) art = None →
  find_by (name_matches "sample") art = Some (πs, s) →
  set_udf art udf = Return (insert_after_at πs (udf_tag udf) art).
Proof. intros Hnone Hs. unfold set_udf. by rewrite Hnone, Hs. Qed.

Lemma set_udf_found art udf π t :
  find_by (attr_matches "name" (name udf)) art = Some (π, t) →
  set_udf art udf = Return (set_at π (set_string (str (value udf))) art).
Proof. intros H. unfold set_udf. by rewrite H. Qed.

(** X9: on a record where no tag of any kind has the name of the field
    in its [name] attribute, a field set twice in one call is one tag after
    the sample tag, with the type declared for the first value and the text
    of the second. *)
Theorem set_udf_twice_keeps_first_type (art : node) (first second : UDF)
    (sample : path * node) :
  name second = name first →
  find_by (attr_matches "name" (name first)) art = None →
  find_by (name_matches "sample") art = Some sample →
  ∃ art',
    for_each set_udf [first; second] art = Return art'
    ∧ find_by (attr_matches "name" (name first)) art'
      = Some (sibling_after sample.1,
              Elem "udf:field"
                   [("name", name first);
                    ("type", infer_udf_type (value first))]
                   [Text (str (value second))]).
Proof.
  intros Hname Hnone Hsample. destruct sample as [πs s].
  cbn [for_each]. rewrite (set_udf_new _ _ _ _ Hnone Hsample).
  outcome_simpl.
  assert (Hnew : find_by (attr_matches "name" (name first))
                         (insert_after_at πs (udf_tag first) art)
                 = Some (sibling_after πs, udf_tag first)).
  { apply (find_by_insert_after _ (attr_matches_shallow _ _));
      [done|apply udf_tag_matches| | |done].
    - by eapply find_by_path.
    - erewrite (find_by_get_at (name_matches "sample")); [done|exact Hsample]. }
  rewrite <- Hname in Hnew.
  rewrite (set_udf_found _ _ _ _ Hnew). outcome_simpl. rewrite Hname in *.
  eexists. split; [done|]. cbn [fst].
  apply (find_by_set_at _ (attr_matches_shallow _ _)
           (set_string (str (value second))) _ _ (udf_tag first));
    [by intros []|by intros []|done].
Qed.

Section WithTransport.

Variable api_get : pyarg → outcome node.

(** X10: the update holds one artifact for every artifact of the reply
    whose [limsid] is a key of [sample_values], in the order of the reply,
    with its fields set in the order given; the others are left out. *)
Theorem set_artifact_udf_queue (sample_values : gmap string (list UDF))
    stream step_soup art_queue :
  set_artifact_udf api_get sample_values stream step_soup
  = Return art_queue →
  ∃ art_uris art_soups,
    comprehension
      (λ iomap, subscript_of (find stream iomap) ≫= get_attr "uri")
      (find_all "input-output-map" step_soup) = Return art_uris
    ∧ api_get (ArgList art_uris) = Return art_soups
    ∧ Forall2
        (λ art art',
           ∃ limsid udfs,
             get_attr "limsid" art = Return limsid
             ∧ sample_values !! limsid = Some udfs
             ∧ for_each set_udf udfs art = Return art')
        (filter (keyed sample_values) (find_all "art:artifact" art_soups))
        art_queue.
Proof.
  unfold set_artifact_udf.
  destruct (comprehension _ _) as [uris|] eqn:Huris; outcome_simpl; [|done].
  destruct (api_get _) as [soups|] eqn:Hsoups; outcome_simpl; [|done].
  intros Hloop. exists uris, soups. split; [done|]. split; [done|].
  revert Hloop. generalize (find_all "art:artifact" soups). intros arts.
  enough (Hgen : ∀ queue0,
    for_each
      (λ art_queue art,
         limsid ← get_attr "limsid" art;
         match sample_values !! limsid with
         | Some udfs =>
             art' ← for_each set_udf udfs art;
             Return (art_queue ++ [art'])
         | None => Return art_queue
         end) arts queue0 = Return art_queue →
    ∃ added,
      art_queue = queue0 ++ added
      ∧ Forall2
          (λ art art',
             ∃ limsid udfs,
               get_attr "limsid" art = Return limsid
               ∧ sample_values !! limsid = Some udfs
               ∧ for_each set_udf udfs art = Return art')
          (filter (keyed sample_values) arts) added).
  { intros (added & -> & H)%Hgen. done. }
  induction arts as [|art arts IH]; intros queue0.
  - cbn. intros [= <-]. exists []. by rewrite app_nil_r.
  - cbn [for_each]. rewrite filter_cons.
    destruct (get_attr "limsid" art) as [limsid|] eqn:Hl; outcome_simpl;
      [|done].
    destruct (sample_values !! limsid) as [udfs|] eqn:Hsv.
    + destruct (for_each set_udf udfs art) as [art'|] eqn:Hset;
        outcome_simpl; [|done].
      intros (added & -> & H)%IH. exists (art' :: added).
      rewrite <- app_assoc. split; [done|].
      rewrite decide_True by (exists limsid; rewrite Hsv; eauto).
      constructor; [|done]. by exists limsid, udfs.
    + intros (added & -> & H)%IH. exists added. split; [done|].
      rewrite decide_False; [done|].
      intros (l & Hl' & Hsome). rewrite Hl in Hl'. injection Hl' as <-.
      rewrite Hsv in Hsome. by destruct Hsome.
Qed.

(** X11: unlike [get_artifacts], [set_artifact_udf] does not pass over a
    relation without the asked side: it raises TypeError (or the KeyError
    of an earlier relation) before the transport is called. *)
Theorem set_artifact_udf_missing_side_fails
    (sample_values : gmap string (list UDF)) stream step_soup :
  (∃ io_map, io_map ∈ find_all "input-output-map" step_soup
             ∧ find stream io_map = None) →
  ∃ e, set_artifact_udf api_get sample_values stream step_soup = Raise e
       ∧ (e = TypeError ∨ ∃ k, e = KeyError k).
Proof.
  intros (io & Hin & Hnone). unfold set_artifact_udf.
  destruct (comprehension _ _) as [uris|e] eqn:Huris; outcome_simpl.
  - apply comprehension_Forall2 in Huris.
    apply list_elem_of_lookup in Hin as [i Hi].
    destruct (Forall2_lookup_l _ _ _ _ _ Huris Hi) as (y & _ & Hy).
    by rewrite Hnone in Hy.
  - exists e. split; [done|].
    apply comprehension_raises in Huris as (x & _ & Hx).
    destruct (find stream x) as [t|]; cbn in Hx.
    + apply get_attr_raises in Hx. eauto.
    + injection Hx as <-. by left.
Qed.

End WithTransport.

Lemma set_udf_twice_keeps_first_type_witness :
  ∃ art',
    for_each set_udf [mkUDF "Done" (PyBool true); mkUDF "Done" (PyStr "no")]
             Scenario.art_with_udf = Return art'
    ∧ find_by (attr_matches "name" "Done") art'
      = Some ([2], Elem "udf:field" [("name", "Done"); ("type", "Boolean")]
                        [Text "no"]).
Proof.
  apply (set_udf_twice_keeps_first_type Scenario.art_with_udf
           (mkUDF "Done" (PyBool true)) (mkUDF "Done" (PyStr "no"))
           ([1], Elem "sample" [("uri", "samples/s1")] []));
    reflexivity.
Defined.

Lemma set_artifact_udf_queue_witness :
  ∃ art_uris art_soups,
    comprehension
      (λ iomap, subscript_of (find "input" iomap) ≫= get_attr "uri")
      (find_all "input-output-map" Scenario.S_doc) = Return art_uris
    ∧ Scenario.api (ArgList art_uris) = Return art_soups
    ∧ Forall2
        (λ art art',
           ∃ limsid udfs,
             get_attr "limsid" art = Return limsid
             ∧ ({[ "artifacts/A1" := [mkUDF "Done" (PyBool true)] ]}
                  : gmap string (list UDF)) !! limsid = Some udfs
             ∧ for_each set_udf udfs art = Return art')
        (filter (keyed {[ "artifacts/A1" := [mkUDF "Done" (PyBool true)] ]})
                (find_all "art:artifact" art_soups))
        [Lab.A1_done].
Proof.
  apply (set_artifact_udf_queue Scenario.api
           {[ "artifacts/A1" := [mkUDF "Done" (PyBool true)] ]} "input"
           Scenario.S_doc [Lab.A1_done]).
  reflexivity.
Defined.

Lemma set_artifact_udf_missing_side_fails_witness :
  ∃ e, set_artifact_udf Scenario.api ∅ "output" Lab.No_output_doc = Raise e
       ∧ (e = TypeError ∨ ∃ k, e = KeyError k).
Proof.
  apply (set_artifact_udf_missing_side_fails Scenario.api ∅ "output"
           Lab.No_output_doc).
  exists (Elem "input-output-map" []
               [Elem "input" [("uri", "artifacts/A1")] []]).
  split; [apply (list_elem_of_lookup_2 _ 0)|]; reflexivity.
Defined.

End UdfMoreFacts.

(** ** More on the lineage resolver *)

Module LineageMoreFacts.

Import Lineage LineageSpec PyFacts LineageFacts GetArtifactsFacts.

Lemma for_each_raises_at {A S} (body : S → A → outcome S) xs acc e :
  for_each body xs acc = Raise e → ∃ acc' x, x ∈ xs ∧ body acc' x = Raise e.
Proof.
  revert acc. induction xs as [|x xs IH]; intros acc; [done|].
  cbn [for_each]. destruct (body acc x) as [acc'|e'] eqn:Hb; outcome_simpl.
  - intros (a & y & Hy & Ha)%IH. exists a, y. split; [by right|done].
  - intros [= ->]. exists acc, x. split; [by left|done].
Qed.

Lemma subscript_attr_raises (o : option node) k e :
  subscript_of o ≫= get_attr k = Raise e → document_error e.
Proof.
  destruct o as [t|]; cbn.
  - intros ->%get_attr_raises. right; right; eauto.
  - intros [= <-]. right; by left.
Qed.

Lemma step_name_of_raises step_soup e :
  step_name_of step_soup = Raise e → document_error e.
Proof.
  unfold step_name_of.
  destruct (find "configuration" step_soup); cbn [attr_of]; outcome_simpl;
    [done|].
  destruct (find "type" step_soup); cbn [attr_of]; outcome_simpl; [done|].
  intros [= <-]. by left.
Qed.

Lemma target_arts_of_raises stream step_soup e :
  target_arts_of stream step_soup = Raise e → document_error e.
Proof.
  unfold target_arts_of. intros (acc & io & _ & H)%for_each_raises_at.
  revert H.
  destruct (subscript_of (find stream io) ≫= get_attr "uri") as [u|e1]
    eqn:H1; outcome_simpl.
  2:{ intros [= <-]. by eapply subscript_attr_raises. }
  destruct (subscript_of (find "output" io) ≫= get_attr "output-type")
    as [ty|e2] eqn:H2; outcome_simpl.
  2:{ intros [= <-]. by eapply subscript_attr_raises. }
  destruct (subscript_of (find "output" io)
            ≫= get_attr "output-generation-type") as [gen|e3] eqn:H3;
    outcome_simpl.
  2:{ intros [= <-]. by eapply subscript_attr_raises. }
  by destruct (_ && _).
Qed.

Lemma index_targets_raises target_arts all_target_soup h e :
  index_targets target_arts all_target_soup h = Raise e → document_error e.
Proof.
  unfold index_targets. intros (acc & art & _ & H)%for_each_raises_at.
  apply for_each_raises_at in H as (acc' & x & _ & H). revert H.
  destruct (get_attr "uri" art) as [u|e1] eqn:H1; outcome_simpl.
  2:{ intros [= <-]. apply get_attr_raises in H1. right; right; eauto. }
  destruct (String.eqb _ _); [|done].
  destruct (subscript_of (find "sample" art) ≫= get_attr "uri") as [s|e2]
    eqn:H2; outcome_simpl; [done|].
  intros [= <-]. by eapply subscript_attr_raises.
Qed.

Lemma assign_results_first_missing target_smp_arts pre a s post :
  (∀ a' s', (a', s') ∈ pre → is_Some (target_smp_arts !! s')) →
  target_smp_arts !! s = None →
  ∀ res, ∃ res',
    assign_results target_smp_arts (pre ++ (a, s) :: post) res
    = (Raise (misaligned a), res')
    ∧ (∀ a', a' ∈ pre.*1 → is_Some (res' !! a'))
    ∧ (∀ k, k ∉ pre.*1 → res' !! k = res !! k).
Proof.
  intros Hpre Hs. induction pre as [|[a0 s0] pre IH]; intros res.
  - cbn. rewrite Hs. exists res. split; [done|]. split; [|done].
    by intros a' ?%elem_of_nil.
  - cbn [app assign_results].
    destruct (Hpre a0 s0) as [l Hl]; [by left|]. rewrite Hl.
    destruct (IH (λ a' s' H, Hpre a' s' (list_elem_of_further _ _ _ H))
                 (<[a0 := l]> res)) as (res' & Hrun & Hkeys & Hother).
    exists res'. split; [done|]. split.
    + intros a' Ha'. cbn in Ha'. apply elem_of_cons in Ha' as [->|Ha'].
      * destruct (decide (a0 ∈ pre.*1)) as [Hin|Hout]; [by apply Hkeys|].
        rewrite (Hother _ Hout), lookup_insert_eq. eauto.
      * by apply Hkeys.
    + intros k Hk. cbn in Hk. apply not_elem_of_cons in Hk as [Hne Hk].
      rewrite (Hother _ Hk). by rewrite lookup_insert_ne.
Qed.

Lemma assign_results_lookup target_smp_arts items :
  NoDup items.*1 →
  ∀ res res',
    assign_results target_smp_arts items res = (Return (), res') →
    ∀ a s, (a, s) ∈ items →
      is_Some (target_smp_arts !! s) ∧ res' !! a = target_smp_arts !! s.
Proof.
  induction items as [|[a0 s0] items IH]; intros Hnd res res' Hrun a s Hin.
  - by apply elem_of_nil in Hin.
  - cbn in Hnd. apply NoDup_cons in Hnd as [Hfresh Hnd].
    cbn [assign_results] in Hrun.
    destruct (target_smp_arts !! s0) as [l|] eqn:Hl; [|done].
    apply elem_of_cons in Hin as [[= -> ->]|Hin].
    + rewrite Hl. split; [eauto|].
      apply assign_results_spec in Hrun as (Hother & _ & _).
      by rewrite (Hother _ Hfresh), lookup_insert_eq.
    + by eapply IH.
Qed.

Lemma for_each_preserves {A S} (body : S → A → outcome S) (I : S → Prop)
    xs :
  (∀ a x a', x ∈ xs → I a → body a x = Return a' → I a') →
  ∀ acc acc', I acc → for_each body xs acc = Return acc' → I acc'.
Proof.
  induction xs as [|x xs IH]; intros Hstep acc acc' Hacc.
  - cbn. by intros [= <-].
  - cbn [for_each]. destruct (body acc x) as [a1|] eqn:Hb; outcome_simpl;
      [|done].
    apply IH.
    + intros a y a' Hy. apply Hstep. by right.
    + eapply Hstep; [by left|done|done].
Qed.

(** The two nested loops of [index_targets] only index a reference under
    the sample of a hydrated artifact that has its URI. *)
Lemma index_targets_rel
    (J : list (list PreviousStepArtifact) * gmap string loc → Prop)
    target_arts all_target_soup h a' :
  (∀ k x a, x ∈ target_arts → hydrated_as all_target_soup k x →
            J a → J (setdefault_append k x a)) →
  J (h, ∅) →
  index_targets target_arts all_target_soup h = Return a' → J a'.
Proof.
  intros Hstep H0. unfold index_targets.
  apply for_each_preserves; [|done].
  intros a art a1 Hart Ha.
  apply for_each_preserves; [|done].
  clear a a1 Ha. intros a x a1 Hx Ha.
  destruct (get_attr "uri" art) as [u|] eqn:Hu; outcome_simpl; [|done].
  destruct (String.eqb_spec (strip_query u) (uri x)) as [Heq|Hne];
    [|by intros [= <-]].
  destruct (find "sample" art) as [sample|] eqn:Hsample;
    cbn [subscript_of]; outcome_simpl; [|done].
  destruct (get_attr "uri" sample) as [smp|] eqn:Hsmp; outcome_simpl;
    [|done].
  intros [= <-]. apply Hstep; [done| |done].
  by exists art, u, sample.
Qed.

(** A reference is held under a sample in the index. *)
Lemma setdefault_append_held k x k' x'
    (acc : list (list PreviousStepArtifact) * gmap string loc) :
  (∃ l xs, acc.2 !! k = Some l ∧ acc.1 !! l = Some xs ∧ x ∈ xs) →
  ∃ l xs, (setdefault_append k' x' acc).2 !! k = Some l
          ∧ (setdefault_append k' x' acc).1 !! l = Some xs ∧ x ∈ xs.
Proof.
  destruct acc as [h d]. cbn [fst snd]. intros (l & xs & Hk & Hl & Hx).
  unfold setdefault_append. cbn [fst snd].
  destruct (d !! k') as [l'|] eqn:Hk'; cbn [fst snd].
  - destruct (decide (l' = l)) as [->|Hne].
    + exists l, (xs ++ [x']). split; [done|].
      rewrite list_lookup_alter_eq, Hl. split; [done|].
      apply elem_of_app. by left.
    + exists l, xs. by rewrite list_lookup_alter_ne.
  - exists l, xs. split.
    + rewrite lookup_insert_ne; [done|]. by intros ->; rewrite Hk in Hk'.
    + split; [|done]. rewrite lookup_app_l; [done|]. by eapply lookup_lt_Some.
Qed.

Lemma setdefault_append_new k x
    (acc : list (list PreviousStepArtifact) * gmap string loc) :
  (∀ k l, acc.2 !! k = Some l → (l < length acc.1)%nat) →
  ∃ l xs, (setdefault_append k x acc).2 !! k = Some l
          ∧ (setdefault_append k x acc).1 !! l = Some xs ∧ x ∈ xs.
Proof.
  destruct acc as [h d]. cbn [fst snd]. intros Hvalid.
  unfold setdefault_append. cbn [fst snd].
  destruct (d !! k) as [l|] eqn:Hk; cbn [fst snd].
  - destruct (lookup_lt_is_Some_2 h l (Hvalid _ _ Hk)) as [xs Hxs].
    exists l, (xs ++ [x]). split; [done|].
    rewrite list_lookup_alter_eq, Hxs. split; [done|].
    apply elem_of_app. right. by left.
  - exists (length h), [x]. rewrite lookup_insert_eq. split; [done|].
    rewrite lookup_app_r, Nat.sub_diag by done. split; [done|]. by left.
Qed.

Lemma setdefault_append_valid k x
    (acc : list (list PreviousStepArtifact) * gmap string loc) :
  (∀ k l, acc.2 !! k = Some l → (l < length acc.1)%nat) →
  ∀ k' l, (setdefault_append k x acc).2 !! k' = Some l →
          (l < length (setdefault_append k x acc).1)%nat.
Proof.
  destruct acc as [h d]. cbn [fst snd]. intros Hvalid.
  unfold setdefault_append. cbn [fst snd].
  destruct (d !! k) as [l|] eqn:Hk; cbn [fst snd].
  - intros k' l'. rewrite length_alter. apply Hvalid.
  - intros k' l'. rewrite length_app. cbn.
    destruct (decide (k = k')) as [<-|Hne].
    + rewrite lookup_insert_eq. intros [= <-]. lia.
    + rewrite lookup_insert_ne by done. intros H%Hvalid. lia.
Qed.

(** Every retained relation with a hydrated artifact is in the index,
    under the sample of that artifact. *)
Lemma index_targets_complete target_arts all_target_soup h0 h d :
  index_targets target_arts all_target_soup h0 = Return (h, d) →
  ∀ k x, x ∈ target_arts → hydrated_as all_target_soup k x →
         ∃ l xs, d !! k = Some l ∧ h !! l = Some xs ∧ x ∈ xs.
Proof.
  unfold index_targets, hydrated_as. intros Hidx.
  pose (held := λ (acc : list (list PreviousStepArtifact) * gmap string loc)
                  k x,
          ∃ l xs, acc.2 !! k = Some l ∧ acc.1 !! l = Some xs ∧ x ∈ xs).
  pose (valid := λ acc : list (list PreviousStepArtifact) * gmap string loc,
          ∀ k l, acc.2 !! k = Some l → (l < length acc.1)%nat).
  pose (of_art := λ (art : node) k (x : PreviousStepArtifact),
          ∃ v sample, get_attr "uri" art = Return v
                      ∧ strip_query v = uri x
                      ∧ find "sample" art = Some sample
                      ∧ get_attr "uri" sample = Return k).
  pose (I_o := λ (done : list node)
                 (acc : list (list PreviousStepArtifact) * gmap string loc),
          valid acc
          ∧ ∀ k x, x ∈ target_arts →
                   (∃ art, art ∈ done ∧ of_art art k x) → held acc k x).
  assert (Hall : I_o (find_all "art:artifact" all_target_soup) (h, d)).
  { refine (for_each_inv _ I_o _ _ [] _ _ _ Hidx).
    - (* one artifact of the reply *)
      clear Hidx. intros done art a a' [Hvalid Hheld] Hart.
      pose (I_i := λ (done_ts : list PreviousStepArtifact)
                     (acc : list (list PreviousStepArtifact)
                            * gmap string loc),
              valid acc
              ∧ (∀ k x, held a k x → held acc k x)
              ∧ ∀ k x, x ∈ done_ts → of_art art k x → held acc k x).
      assert (Hinner : I_i target_arts a').
      { refine (for_each_inv _ I_i _ _ [] _ _ _ Hart).
        - clear Hart. intros done_ts x acc acc' (Hv & Hm & Hn) Hbody.
          destruct (get_attr "uri" art) as [u|] eqn:Hu; outcome_simpl;
            [|done].
          destruct (String.eqb_spec (strip_query u) (uri x)) as [Heq|Hne].
          + destruct (find "sample" art) as [sample|] eqn:Hsample;
              cbn [subscript_of] in Hbody; outcome_simpl; [|done].
            destruct (get_attr "uri" sample) as [smp|] eqn:Hsmp;
              outcome_simpl; [|done].
            injection Hbody as <-.
            pose proof (setdefault_append_new smp x acc Hv) as Hx.
            split; [exact (setdefault_append_valid smp x acc Hv)|]. split.
            * intros k y Hy. by apply setdefault_append_held, Hm.
            * intros k y [Hy| ->%list_elem_of_singleton]%elem_of_app Hof.
              -- by apply setdefault_append_held, Hn.
              -- destruct Hof as (v & sample' & Hv1 & _ & Hs1 & Hk).
                 rewrite Hsample in Hs1. injection Hs1 as <-.
                 rewrite Hsmp in Hk. by injection Hk as <-.
          + injection Hbody as <-. split; [done|]. split; [done|].
            intros k y [Hy| ->%list_elem_of_singleton]%elem_of_app Hof.
            * by apply Hn.
            * destruct Hof as (v & sample' & Hv1 & Hv2 & _).
              rewrite Hu in Hv1. injection Hv1 as <-. done.
        - split; [done|]. split; [done|]. by intros k x ?%elem_of_nil. }
      destruct Hinner as (Hvalid' & Hmono & Hnew).
      split; [done|]. intros k x Hx (art' & Hin & Hof).
      apply elem_of_app in Hin as [Hin| ->%list_elem_of_singleton].
      + apply Hmono, Hheld; eauto.
      + by apply Hnew.
    - split.
      + intros k l. cbn. by rewrite lookup_empty.
      + by intros k x _ (art & ?%elem_of_nil & _). }
  destruct Hall as [_ Hall].
  intros k x Hx (art & v & sample & Hin & Hv & Hs & Hsample & Hk).
  apply Hall; [done|]. exists art. split; [done|]. by exists v, sample.
Qed.

Section WithTransport.

Variable api_get : pyarg → outcome node.
Variable set_iter : list string → list string.

Lemma match_step_raises stream art_smp_uris step_soup st e st' :
  match_step api_get stream art_smp_uris step_soup st = (Raise e, st') →
  (∃ arg, api_get arg = Raise e)
  ∨ document_error e
  ∨ ∃ a s, (a, s) ∈ art_smp_uris ∧ e = misaligned a.
Proof.
  unfold match_step.
  destruct (target_arts_of stream step_soup) as [ts|e0] eqn:Hts.
  2:{ intros [= <- _]. right; left. by eapply target_arts_of_raises. }
  destruct (api_get _) as [soup|e0] eqn:Hapi.
  2:{ intros [= <- _]. left. eauto. }
  destruct (index_targets ts soup (lists st)) as [[h d]|e0] eqn:Hidx.
  2:{ intros [= <- _]. right; left. by eapply index_targets_raises. }
  destruct (assign_results d art_smp_uris (results st)) as [[[]|e0] res]
    eqn:Hassign; [done|].
  intros [= <- _]. right; right.
  apply assign_results_spec in Hassign as (_ & _ & a & s & Hin & _ & ->).
  eauto.
Qed.

(** X12: whatever [get_artifacts_previous_step] raises comes from the
    transport, from a tag or an attribute missing in a document, or is the
    error that names a supplied artifact whose sample is missing at the
    match step.  The error for a history that runs out is none of these:
    the call never raises it by itself. *)
Theorem get_artifacts_previous_step_errors fuel dest_step stream
    art_smp_uris :
  ∀ step_soup st e st',
    get_artifacts_previous_step api_get set_iter fuel dest_step stream
                                art_smp_uris step_soup st
    = Some (Raise e, st') →
    (∃ arg, api_get arg = Raise e)
    ∨ document_error e
    ∨ ∃ a s, (a, s) ∈ art_smp_uris
             ∧ e = RuntimeError
                     ("The artifact " +:+ a +:+ " did not run at the"
                      +:+ " same time as the other samples passed in.").
Proof.
  induction fuel as [|fuel IH]; intros step_soup st e st'; [done|].
  cbn [get_artifacts_previous_step].
  destruct (step_name_of step_soup) as [nm|e0] eqn:Hname.
  2:{ intros [= <- _]. right; left. by eapply step_name_of_raises. }
  destruct (negb (String.eqb nm dest_step)).
  - destruct (comprehension _ _) as [uris|e0] eqn:Huris; outcome_simpl.
    2:{ intros [= <- _]. right; left.
        apply comprehension_raises in Huris as (x & _ & Hx).
        destruct (get_attr "uri" x) as [|e1] eqn:Hx'; outcome_simpl;
          [done|]. injection Hx as <-.
        apply get_attr_raises in Hx'. right; right; eauto. }
    destruct (api_get (ArgList uris)) as [soup|e0] eqn:Hapi.
    2:{ intros [= <- _]. left. eauto. }
    destruct (prev_steps_of soup) as [refs|e0] eqn:Hprev.
    2:{ apply prev_steps_of_raises in Hprev as (k & ->).
        intros [= <- _]. right; left. right; right; eauto. }
    destruct (set_iter refs) as [|step_uri ?]; [done|].
    destruct (api_get (ArgStr step_uri)) as [soup'|e0] eqn:Hapi'.
    2:{ intros [= <- _]. left. eauto. }
    apply IH.
  - intros [= H]. by apply match_step_raises in H.
Qed.

(** X13: a call that returns [None] has left the accumulator as it was. *)
Theorem none_leaves_accumulator fuel dest_step stream art_smp_uris :
  ∀ step_soup st st',
    get_artifacts_previous_step api_get set_iter fuel dest_step stream
                                art_smp_uris step_soup st
    = Some (Return RetNone, st') →
    st' = st.
Proof.
  induction fuel as [|fuel IH]; intros step_soup st st'; [done|].
  cbn [get_artifacts_previous_step].
  destruct (step_name_of step_soup) as [nm|]; [|done].
  destruct (negb (String.eqb nm dest_step)).
  - destruct (_ ≫= _) as [soup|]; [|done].
    destruct (prev_steps_of soup) as [refs|[]]; try done.
    destruct (set_iter refs) as [|step_uri ?]; [by intros [= <-]|].
    destruct (api_get (ArgStr step_uri)) as [soup'|]; [|done].
    apply IH.
  - unfold match_step.
    destruct (target_arts_of stream step_soup) as [ts|]; [|done].
    destruct (api_get _) as [soup|]; [|done].
    destruct (index_targets ts soup (lists st)) as [[h d]|]; [|done].
    by destruct (assign_results d art_smp_uris (results st)) as [[[]|] res].
Qed.

(** X14: at the match step, the first supplied artifact, in the order of
    the dictionary, whose sample is not among the samples of the hydrated
    artifacts is the one the error names; the artifacts before it have been
    written into the accumulator by then, every other key being as it
    was. *)
Theorem misaligned_names_first_missing stream pre a s post step_soup st
    target_arts all_target_soup h target_smp_arts :
  target_arts_of stream step_soup = Return target_arts →
  api_get (ArgList (uri <$> target_arts)) = Return all_target_soup →
  index_targets target_arts all_target_soup (lists st)
  = Return (h, target_smp_arts) →
  (∀ a' s', (a', s') ∈ pre → is_Some (target_smp_arts !! s')) →
  target_smp_arts !! s = None →
  ∃ st',
    match_step api_get stream (pre ++ (a, s) :: post) step_soup st
    = (Raise (RuntimeError
                ("The artifact " +:+ a +:+ " did not run at the"
                 +:+ " same time as the other samples passed in.")), st')
    ∧ (∀ a', a' ∈ pre.*1 → is_Some (results st' !! a'))
    ∧ (∀ k, k ∉ pre.*1 → results st' !! k = results st !! k).
Proof.
  intros Hts Hapi Hidx Hpre Hs. unfold match_step.
  rewrite Hts, Hapi, Hidx.
  destruct (assign_results_first_missing target_smp_arts pre a s post Hpre Hs
              (results st)) as (res' & -> & Hkeys & Hother).
  by exists (mkStore h res').
Qed.

Lemma add_shared_keys target_arts h d k :
  is_Some (d !! k) → is_Some ((add_shared target_arts (h, d)).2 !! k).
Proof.
  rewrite add_shared_closed. destruct (result_files target_arts); [done|].
  destruct (d !! "shared") eqn:Hs; cbn [snd]; [done|].
  intros Hk. destruct (decide ("shared" = k)) as [<-|Hne].
  - rewrite Hs in Hk. by destruct Hk.
  - by rewrite lookup_insert_ne.
Qed.

Lemma read_is_Some st k : is_Some (read st !! k) ↔ is_Some (results st !! k).
Proof. unfold read. rewrite lookup_fmap. apply fmap_is_Some. Qed.

(** X15: the mapping the call returns has every supplied artifact among
    its keys, and every key the accumulator had before the call. *)
Theorem returned_mapping_keys fuel dest_step stream art_smp_uris :
  ∀ step_soup st st',
    get_artifacts_previous_step api_get set_iter fuel dest_step stream
                                art_smp_uris step_soup st
    = Some (Return RetResults, st') →
    ∀ k, k ∈ art_smp_uris.*1 ∨ is_Some (read st !! k) →
         is_Some (read st' !! k).
Proof.
  induction fuel as [|fuel IH]; intros step_soup st st'; [done|].
  cbn [get_artifacts_previous_step].
  destruct (step_name_of step_soup) as [nm|]; [|done].
  destruct (negb (String.eqb nm dest_step)).
  - destruct (_ ≫= _) as [soup|]; [|done].
    destruct (prev_steps_of soup) as [refs|[]]; try done.
    destruct (set_iter refs) as [|step_uri ?]; [done|].
    destruct (api_get (ArgStr step_uri)) as [soup'|]; [|done].
    apply IH.
  - unfold match_step.
    destruct (target_arts_of stream step_soup) as [ts|]; [|done].
    destruct (api_get _) as [soup|]; [|done].
    destruct (index_targets ts soup (lists st)) as [[h d]|]; [|done].
    destruct (assign_results d art_smp_uris (results st)) as [[[]|e] res]
      eqn:Hassign; [|done].
    apply assign_results_spec in Hassign as (_ & Hmono & Hkeys).
    intros [= <-] k Hk. apply read_is_Some. cbn [results].
    apply add_shared_keys.
    destruct Hk as [Hk|Hk]; [by apply Hkeys|].
    by apply Hmono, read_is_Some.
Qed.

(** X16: when the supplied artifacts are distinct keys, none of them is
    ['shared'], and what the accumulator holds under ['shared'] is a list
    of the store, the references listed for a supplied artifact at the
    match step are the relations retained there for which a hydrated
    artifact with the URI of the reference has the sample supplied for the
    artifact: none is listed under another sample and none is left out. *)
Theorem ancestors_share_sample stream art_smp_uris step_soup st st' :
  NoDup art_smp_uris.*1 →
  "shared" ∉ art_smp_uris.*1 →
  (∀ l, results st !! "shared" = Some l → (l < length (lists st))%nat) →
  match_step api_get stream art_smp_uris step_soup st
  = (Return RetResults, st') →
  ∃ target_arts all_target_soup,
    target_arts_of stream step_soup = Return target_arts
    ∧ api_get (ArgList (uri <$> target_arts)) = Return all_target_soup
    ∧ ∀ a s, (a, s) ∈ art_smp_uris →
        ∃ ancestors,
          read st' !! a = Some ancestors
          ∧ ∀ x, x ∈ ancestors
                 ↔ x ∈ target_arts ∧ hydrated_as all_target_soup s x.
Proof.
  intros Hnd Hkey Hwf. unfold match_step.
  destruct (target_arts_of stream step_soup) as [ts|] eqn:Hts; [|done].
  destruct (api_get _) as [soup|] eqn:Hapi; [|done].
  destruct (index_targets ts soup (lists st)) as [[h d]|] eqn:Hidx; [|done].
  destruct (assign_results d art_smp_uris (results st)) as [[[]|e] res]
    eqn:Hassign; [|done].
  intros [= <-]. exists ts, soup. split; [done|]. split; [done|].
  intros a s Has.
  (* what the index holds *)
  pose (J := λ acc : list (list PreviousStepArtifact) * gmap string loc,
          (length (lists st) ≤ length acc.1)%nat
          ∧ (∀ k l, acc.2 !! k = Some l →
                    (length (lists st) ≤ l < length acc.1)%nat)
          ∧ (∀ k1 k2 l, acc.2 !! k1 = Some l → acc.2 !! k2 = Some l →
                        k1 = k2)
          ∧ (∀ k l xs, acc.2 !! k = Some l → acc.1 !! l = Some xs →
                       Forall (λ x, x ∈ ts ∧ hydrated_as soup k x) xs)).
  assert (HJ : J (h, d)).
  { apply (index_targets_rel J) in Hidx; [done| |].
    - clear. intros k x [h d] Hx Hhyd (Hlen & Hrange & Hinj & Hgood).
      unfold J. cbn [fst snd] in *. unfold setdefault_append. cbn [fst snd].
      destruct (d !! k) as [l|] eqn:Hk; cbn [fst snd].
      + rewrite length_alter. split; [done|]. split; [done|].
        split; [done|]. intros k' l' xs Hk' Hl'.
        destruct (decide (l = l')) as [<-|Hne].
        * rewrite (Hinj _ _ _ Hk' Hk).
          rewrite list_lookup_alter_eq in Hl'.
          destruct (h !! l) as [old|] eqn:Hold; [|done].
          injection Hl' as <-. apply Forall_app. split.
          -- by eapply Hgood.
          -- by repeat constructor.
        * rewrite list_lookup_alter_ne in Hl' by done. by eapply Hgood.
      + rewrite length_app. cbn [length].
        split; [lia|]. split; [|split].
        * intros k' l'. destruct (decide (k = k')) as [<-|Hne].
          -- rewrite lookup_insert_eq. intros [= <-]. lia.
          -- rewrite lookup_insert_ne by done. intros H%Hrange. lia.
        * intros k1 k2 l.
          destruct (decide (k = k1)) as [<-|Hne1];
            destruct (decide (k = k2)) as [<-|Hne2]; [done| | |].
          -- rewrite lookup_insert_eq, lookup_insert_ne by done.
             intros [= <-] H%Hrange. lia.
          -- rewrite lookup_insert_eq, lookup_insert_ne by done.
             intros H%Hrange [= <-]. lia.
          -- rewrite !lookup_insert_ne by done. apply Hinj.
        * intros k' l' xs. destruct (decide (k = k')) as [<-|Hne].
          -- rewrite lookup_insert_eq. intros [= <-].
             rewrite lookup_app_r, Nat.sub_diag by done. intros [= <-].
             by repeat constructor.
          -- rewrite lookup_insert_ne by done. intros Hk' Hl'.
             pose proof (Hrange _ _ Hk') as Hr.
             rewrite lookup_app_l in Hl' by lia. by eapply Hgood.
    - unfold J. cbn [fst snd]. split; [done|]. repeat split; try done.
      all: intros *; by rewrite lookup_empty. }
  destruct HJ as (Hlen & Hrange & _ & Hgood). cbn [fst snd] in *.
  destruct (assign_results_lookup _ _ Hnd _ _ Hassign a s Has)
    as [[l Hl] Hres].
  rewrite Hl in Hres. pose proof (Hrange _ _ Hl) as Hr.
  destruct (lookup_lt_is_Some_2 h l) as [xs Hxs]; [lia|].
  assert (Hne : a ≠ "shared").
  { intros ->. apply Hkey. apply list_elem_of_fmap. by exists ("shared", s). }
  assert (Hshared : res !! "shared" = results st !! "shared").
  { by apply assign_results_spec in Hassign as (Hother & _ & _);
      [apply Hother|..]. }
  exists xs. split.
  2:{ intros x. split.
      - intros Hx. specialize (Hgood _ _ _ Hl Hxs).
        rewrite Forall_forall in Hgood. by apply Hgood.
      - intros [Hx Hhyd].
        destruct (index_targets_complete _ _ _ _ _ Hidx s x Hx Hhyd)
          as (l' & xs' & Hl' & Hxs' & Hin).
        rewrite Hl in Hl'. injection Hl' as <-.
        rewrite Hxs in Hxs'. by injection Hxs' as <-. }
  unfold read. rewrite lookup_fmap, add_shared_closed.
  destruct (result_files ts) as [|y rf]; cbn [lists results fst snd].
  - by rewrite Hres; cbn; rewrite Hxs.
  - rewrite Hshared.
    destruct (results st !! "shared") as [ls|] eqn:Hls; cbn [fst snd].
    + rewrite Hres. cbn. rewrite list_lookup_alter_ne; [by rewrite Hxs|].
      specialize (Hwf ls eq_refl). lia.
    + rewrite lookup_insert_ne by done. rewrite Hres. cbn.
      by rewrite lookup_app_l, Hxs by lia.
Qed.

End WithTransport.

Lemma get_artifacts_previous_step_errors_witness :
  (∃ arg, Scenario.api arg
          = Raise (RuntimeError
                     ("The artifact " +:+ "artifacts/Z" +:+ " did not run at the"
                      +:+ " same time as the other samples passed in.")))
  ∨ document_error
      (RuntimeError
         ("The artifact " +:+ "artifacts/Z" +:+ " did not run at the"
          +:+ " same time as the other samples passed in."))
  ∨ ∃ a s, (a, s) ∈ [("artifacts/O1", "samples/s1");
                      ("artifacts/Z", "samples/s9")]
           ∧ RuntimeError
               ("The artifact " +:+ "artifacts/Z" +:+ " did not run at the"
                +:+ " same time as the other samples passed in.")
             = RuntimeError
                 ("The artifact " +:+ a +:+ " did not run at the"
                  +:+ " same time as the other samples passed in.").
Proof.
  eapply (get_artifacts_previous_step_errors Scenario.api
            Scenario.insertion_order 1 "S" "input"
            [("artifacts/O1", "samples/s1"); ("artifacts/Z", "samples/s9")]
            Scenario.S_doc fresh).
  reflexivity.
Defined.

Lemma none_leaves_accumulator_witness :
  Scenario.S_input_store = Scenario.S_input_store.
Proof.
  apply (none_leaves_accumulator Scenario.api Scenario.insertion_order 2
           "Nowhere" "input" Scenario.C1_only Scenario.P1_doc
           Scenario.S_input_store Scenario.S_input_store).
  reflexivity.
Defined.

Lemma misaligned_names_first_missing_witness :
  ∃ st',
    match_step Scenario.api "input"
               ([("artifacts/O1", "samples/s1")]
                ++ ("artifacts/Z", "samples/s9") :: [])
               Scenario.S_doc fresh
    = (Raise (RuntimeError
                ("The artifact " +:+ "artifacts/Z" +:+ " did not run at the"
                 +:+ " same time as the other samples passed in.")), st')
    ∧ (∀ a', a' ∈ [("artifacts/O1", "samples/s1")].*1 →
             is_Some (results st' !! a'))
    ∧ (∀ k, k ∉ [("artifacts/O1", "samples/s1")].*1 →
            results st' !! k = results fresh !! k).
Proof.
  eapply (misaligned_names_first_missing Scenario.api "input"
            [("artifacts/O1", "samples/s1")] "artifacts/Z" "samples/s9" []
            Scenario.S_doc fresh).
  - reflexivity.
  - reflexivity.
  - reflexivity.
  - intros a' s' [= -> ->]%list_elem_of_singleton. eexists. reflexivity.
  - reflexivity.
Defined.

Lemma returned_mapping_keys_witness :
  get_artifacts_previous_step Scenario.api Scenario.insertion_order 1 "S"
                              "input" Scenario.O1_O2 Scenario.S_doc fresh
  = Some (Return RetResults, Scenario.S_input_store)
  ∧ ∀ k, k ∈ Scenario.O1_O2.*1 ∨ is_Some (read fresh !! k) →
         is_Some (read Scenario.S_input_store !! k).
Proof.
  split; [reflexivity|].
  apply (returned_mapping_keys Scenario.api Scenario.insertion_order 1 "S"
           "input" Scenario.O1_O2 Scenario.S_doc fresh
           Scenario.S_input_store).
  reflexivity.
Defined.

Lemma ancestors_share_sample_witness :
  ∃ target_arts all_target_soup,
    target_arts_of "input" Scenario.S_doc = Return target_arts
    ∧ Scenario.api (ArgList (uri <$> target_arts)) = Return all_target_soup
    ∧ ∀ a s, (a, s) ∈ Scenario.O1_O2 →
        ∃ ancestors,
          read Scenario.S_input_store !! a = Some ancestors
          ∧ ∀ x, x ∈ ancestors
                 ↔ x ∈ target_arts ∧ hydrated_as all_target_soup s x.
Proof.
  apply (ancestors_share_sample Scenario.api "input" Scenario.O1_O2
           Scenario.S_doc fresh Scenario.S_input_store).
  - apply (bool_decide_unpack _). reflexivity.
  - apply (bool_decide_unpack _). reflexivity.
  - intros l Hl. discriminate Hl.
  - reflexivity.
Defined.

End LineageMoreFacts.

(** ** Claims about parent processes that differ *)

Module DivergenceClaims.

Import Lineage LineageSpec PyFacts LineageFacts LineageMoreFacts Scenario.

Section WithTransport.

Variable api_get : pyarg → outcome node.
Variable set_iter : list string → list string.



End WithTransport.


End DivergenceClaims.

(** ** Samples *)

Module CatalogFacts.

Import Catalog Normal NormalFacts PyFacts GetArtifactsFacts.

Lemma read_sample_fields prj_info sample_data s :
  read_sample prj_info sample_data = Return s →
  get_attr "uri" sample_data = Return (default "" (uri s))
  ∧ is_Some (uri s)
  ∧ (∃ v, artifact_uri s = Some v ∧ zeroth_artifact sample_data v)
  ∧ project_name s = None
  ∧ (prj_info = false ∨ is_control sample_data → project_uri s = None)
  ∧ (prj_info = true → ¬ is_control sample_data →
     ∃ prj p, find "project" sample_data = Some prj
              ∧ get_attr "uri" prj = Return p ∧ project_uri s = Some p).
Proof.
  unfold read_sample, is_control, zeroth_artifact.
  destruct (find "name" sample_data); cbn [attr_of]; outcome_simpl; [|done].
  destruct (get_attr "uri" sample_data) as [u|]; outcome_simpl; [|done].
  destruct (find "date-received" sample_data); cbn [attr_of]; outcome_simpl;
    [|done].
  destruct (if prj_info then _ else _) as [prj|] eqn:Hprj; outcome_simpl;
    [|done].
  destruct (find "artifact" sample_data) as [art|]; cbn [subscript_of];
    outcome_simpl; [|done].
  destruct (get_attr "uri" art) as [w|] eqn:Hw; outcome_simpl; [|done].
  destruct (for_each _ _ _); outcome_simpl; [|done].
  intros [= <-]. cbn.
  split; [done|]. split; [eauto|]. split.
  { exists (strip_query w). split; [done|]. by exists art, w. }
  split; [done|].
  destruct prj_info.
  - destruct (find "control-type" sample_data) as [c|].
    + injection Hprj as <-. split; [done|]. intros _ H. destruct H. eauto.
    + destruct (find "project" sample_data) as [p|]; cbn [subscript_of] in Hprj;
        outcome_simpl; [|done].
      destruct (get_attr "uri" p) as [pu|] eqn:Hpu; outcome_simpl; [|done].
      injection Hprj as <-. split.
      * intros [[=]|[? [=]]].
      * intros _ _. eauto.
  - injection Hprj as <-. split; [done|]. by intros [=].
Qed.

Section WithTransport.

Variable api_get : pyarg → outcome node.
Variable set_iter : list string → list string.
Variable strip : string → string.

(** X17: [get_samples] gives one [Sample] for each record of the reply, in
    order, with the URI of the record and the URI of its artifact without
    suffix; a control sample, and every sample when [prj_info] is off, has
    neither project URI nor project name; any other sample has the URI of
    its project. *)
Theorem get_samples_fields uris prj_info samples :
  get_samples api_get set_iter strip uris prj_info = Return samples →
  ∃ samples_soup,
    api_get (ArgList uris) = Return samples_soup
    ∧ Forall2
        (λ sample_data s,
           get_attr "uri" sample_data = Return (default "" (uri s))
           ∧ (∃ v, artifact_uri s = Some v ∧ has_query v = false
                   ∧ zeroth_artifact sample_data v)
           ∧ (prj_info = false ∨ is_control sample_data →
              project_uri s = None ∧ project_name s = None)
           ∧ (prj_info = true → ¬ is_control sample_data →
              ∃ prj p, find "project" sample_data = Some prj
                       ∧ get_attr "uri" prj = Return p
                       ∧ project_uri s = Some p))
        (find_all "smp:sample" samples_soup) samples.
Proof.
  unfold get_samples.
  destruct (api_get (ArgList uris)) as [soup|] eqn:Hsoup; outcome_simpl;
    [|done].
  destruct (comprehension _ _) as [ss|] eqn:Hss; outcome_simpl; [|done].
  apply comprehension_Forall2 in Hss.
  intros Hres. exists soup. split; [done|].
  assert (Hfields : Forall2
    (λ sample_data s,
       get_attr "uri" sample_data = Return (default "" (uri s))
       ∧ (∃ v, artifact_uri s = Some v ∧ has_query v = false
               ∧ zeroth_artifact sample_data v)
       ∧ project_name s = None
       ∧ (prj_info = false ∨ is_control sample_data → project_uri s = None)
       ∧ (prj_info = true → ¬ is_control sample_data →
          ∃ prj p, find "project" sample_data = Some prj
                   ∧ get_attr "uri" prj = Return p
                   ∧ project_uri s = Some p))
    (find_all "smp:sample" soup) ss).
  { eapply Forall2_impl; [exact Hss|]. cbn. intros tag s Hs.
    apply read_sample_fields in Hs
      as (Hu & _ & (v & Hv & Hz) & Hn & Hc & Hp).
    split; [done|]. split; [|done].
    exists v. split; [done|]. split; [|done].
    destruct Hz as (art & w & _ & _ & ->). apply strip_query_clean. }
  clear Hss. revert Hres. destruct prj_info.
  - destruct (api_get (ArgList (set_iter (omap project_uri ss))))
      as [psoup|]; outcome_simpl; [|done].
    destruct (project_names strip psoup) as [names|]; outcome_simpl; [|done].
    intros [= <-]. apply Forall2_fmap_r.
    eapply Forall2_impl; [exact Hfields|]. cbn.
    intros tag s (Hu & Hv & Hn & Hc & Hp).
    split; [done|]. split; [done|]. split; [|done].
    intros H. rewrite (Hc H). done.
  - intros [= <-].
    eapply Forall2_impl; [exact Hfields|]. cbn.
    intros tag s (Hu & Hv & Hn & Hc & Hp). eauto 10.
Qed.

(** X18: the keys of the mapping [get_arts_from_samples] returns are the
    URIs of the sample records of the reply, and each is mapped to the URI
    of the artifact of such a record, without its suffix. *)
Theorem get_arts_from_samples_spec sample_uris smp_art_uris :
  get_arts_from_samples api_get sample_uris = Return smp_art_uris →
  ∃ batch_soup,
    api_get (ArgList sample_uris) = Return batch_soup
    ∧ (∀ k, is_Some (smp_art_uris !! k)
            ↔ ∃ sample_soup,
                sample_soup ∈ find_all "smp:sample" batch_soup
                ∧ get_attr "uri" sample_soup = Return k)
    ∧ (∀ k v, smp_art_uris !! k = Some v →
              has_query v = false
              ∧ ∃ sample_soup,
                  sample_soup ∈ find_all "smp:sample" batch_soup
                  ∧ get_attr "uri" sample_soup = Return k
                  ∧ zeroth_artifact sample_soup v).
Proof.
  unfold get_arts_from_samples.
  destruct (api_get _) as [soup|] eqn:Hsoup; outcome_simpl; [|done].
  intros Hloop. exists soup. split; [done|].
  refine (for_each_inv _
    (λ done (m : gmap string string),
       (∀ k, is_Some (m !! k)
             ↔ ∃ tag, tag ∈ done ∧ get_attr "uri" tag = Return k)
       ∧ (∀ k v, m !! k = Some v →
                 has_query v = false
                 ∧ ∃ tag, tag ∈ done ∧ get_attr "uri" tag = Return k
                          ∧ zeroth_artifact tag v))
    _ _ [] _ _ _ Hloop).
  - clear. intros done tag m m' [Hkeys Hvals] Hbody.
    destruct (find "artifact" tag) as [art|] eqn:Hart; cbn [subscript_of] in Hbody;
      outcome_simpl; [|done].
    destruct (get_attr "uri" art) as [w|] eqn:Hw; outcome_simpl; [|done].
    destruct (get_attr "uri" tag) as [u|] eqn:Hu; outcome_simpl; [|done].
    injection Hbody as <-. split.
    + intros k. destruct (decide (u = k)) as [<-|Hne].
      * rewrite lookup_insert_eq. split; [|eauto].
        intros _. exists tag. split; [|done]. apply elem_of_app. right.
        by left.
      * rewrite lookup_insert_ne by done. rewrite Hkeys. split.
        -- intros (t & Hin & Ht). exists t. split; [|done].
           apply elem_of_app. by left.
        -- intros (t & [Hin| ->%list_elem_of_singleton]%elem_of_app & Ht).
           ++ eauto.
           ++ congruence.
    + intros k v. destruct (decide (u = k)) as [<-|Hne].
      * rewrite lookup_insert_eq. intros [= <-]. split.
        -- apply strip_query_clean.
        -- exists tag. split; [apply elem_of_app; right; by left|].
           split; [done|]. by exists art, w.
      * rewrite lookup_insert_ne by done.
        intros (Hq & t & Hin & Ht & Hz)%Hvals. split; [done|].
        exists t. split; [apply elem_of_app; by left|done].
  - split.
    + intros k. rewrite lookup_empty. split; [by intros [? [=]]|].
      by intros (t & ?%elem_of_nil & _).
    + intros k v. by rewrite lookup_empty.
Qed.

End WithTransport.

Lemma get_samples_fields_witness :
  ∃ samples_soup,
    Lab.api (ArgList ["samples/s1"; "samples/ctl"]) = Return samples_soup
    ∧ Forall2
        (λ sample_data s,
           get_attr "uri" sample_data = Return (default "" (uri s))
           ∧ (∃ v, artifact_uri s = Some v ∧ has_query v = false
                   ∧ zeroth_artifact sample_data v)
           ∧ (true = false ∨ is_control sample_data →
              project_uri s = None ∧ project_name s = None)
           ∧ (true = true → ¬ is_control sample_data →
              ∃ prj p, find "project" sample_data = Some prj
                       ∧ get_attr "uri" prj = Return p
                       ∧ project_uri s = Some p))
        (find_all "smp:sample" samples_soup)
        [Lab.leaf_sample; Lab.water_sample].
Proof.
  apply (get_samples_fields Lab.api Scenario.insertion_order (λ s, s)
           ["samples/s1"; "samples/ctl"] true
           [Lab.leaf_sample; Lab.water_sample]).
  reflexivity.
Defined.

Lemma get_arts_from_samples_spec_witness :
  ∃ batch_soup,
    Lab.api (ArgList ["samples/s1"; "samples/ctl"]) = Return batch_soup
    ∧ (∀ k, is_Some (({[ "samples/s1" := "artifacts/A1";
                         "samples/ctl" := "artifacts/W" ]}
                        : gmap string string) !! k)
            ↔ ∃ sample_soup,
                sample_soup ∈ find_all "smp:sample" batch_soup
                ∧ get_attr "uri" sample_soup = Return k)
    ∧ (∀ k v, ({[ "samples/s1" := "artifacts/A1";
                  "samples/ctl" := "artifacts/W" ]}
                 : gmap string string) !! k = Some v →
              has_query v = false
              ∧ ∃ sample_soup,
                  sample_soup ∈ find_all "smp:sample" batch_soup
                  ∧ get_attr "uri" sample_soup = Return k
                  ∧ zeroth_artifact sample_soup v).
Proof.
  apply (get_arts_from_samples_spec Lab.api ["samples/s1"; "samples/ctl"]
           {[ "samples/s1" := "artifacts/A1";
              "samples/ctl" := "artifacts/W" ]}).
  reflexivity.
Defined.

End CatalogFacts.

(** ** Routing *)

Module RouterFacts.

Import Router Normal NormalFacts PyFacts GetArtifactsFacts.

Ltac result_simpl :=
  cbn [mbind result_bind mret result_ret fmap result_fmap lift] in *.

Lemma stage_named_spec dest n :
  stage_named dest n = true →
  name_matches "stage" n = true ∧ get_attr "name" n = Return dest.
Proof.
  unfold stage_named. intros [Hn Ha]%andb_true_iff. split; [done|].
  destruct n as [t a cs|]; [|done]. cbn in *.
  destruct (assoc "name" a) as [v|]; [|done].
  by apply String.eqb_eq in Ha as ->.
Qed.

Lemma find_by_elem p n π m :
  find_by p n = Some (π, m) → p m = true ∧ (π, m) ∈ descendants n.
Proof.
  unfold find_by, find_all_by. intros H%head_Some_elem_of.
  by apply list_elem_of_filter in H.
Qed.

Lemma check_queued_Ok queue uris :
  check_queued queue uris = Ok tt
  ↔ ∀ u, u ∈ uris → file_uri u = true ∨ u ∈ queue.
Proof.
  induction uris as [|u uris IH]; cbn [check_queued].
  - split; [|done]. by intros _ u ?%elem_of_nil.
  - destruct (negb (bool_decide (u ∈ queue)) && negb (file_uri u)) eqn:Hu.
    + split; [done|]. intros H. exfalso.
      apply andb_true_iff in Hu as [Hq Hf].
      apply negb_true_iff in Hq, Hf. apply bool_decide_eq_false in Hq.
      destruct (H u) as [?|?]; [by left|congruence|done].
    + rewrite IH. split.
      * intros H v [->|Hv]%elem_of_cons; [|by apply H].
        apply andb_false_iff in Hu as [Hq|Hf].
        -- right. apply negb_false_iff in Hq.
           by apply bool_decide_eq_true in Hq.
        -- left. by apply negb_false_iff in Hf.
      * intros H v Hv. apply H. by right.
Qed.

Section WithTransport.

Variable host : string.
Variable render : string → list string → string → string.
Variable api_get :
  list request → string → option (list (string * string)) → result node.
Variable api_post : list request → request → option failure.

Lemma destination_Ok posted wf_name dest_stage_name stage_uri step_uri :
  destination host api_get posted wf_name dest_stage_name
    = Ok (stage_uri, step_uri) →
  routable host api_get posted wf_name dest_stage_name stage_uri
  ∧ ∃ stage_soup,
      api_get posted stage_uri None = Ok stage_soup
      ∧ match find "step" stage_soup with
        | None => step_uri = None
        | Some step =>
            ∃ u, get_attr "uri" step = Return u
                 ∧ step_uri = Some (last_segment u)
        end.
Proof.
  unfold destination, routable.
  destruct (api_get posted (host +:+ "configuration/workflows") _)
    as [cnf|] eqn:Hcnf; result_simpl; [|done].
  destruct (find "workflow" cnf) as [wf|] eqn:Hwf; [|done].
  destruct (get_attr "status" wf) as [status|] eqn:Hstatus; result_simpl;
    [|done].
  destruct (String.eqb status "ACTIVE") eqn:Hactive; cbn [negb]; [|done].
  apply String.eqb_eq in Hactive as ->.
  destruct (get_attr "uri" wf) as [wf_uri|] eqn:Hwf_uri; result_simpl;
    [|done].
  destruct (api_get posted wf_uri None) as [ws|] eqn:Hws; result_simpl;
    [|done].
  destruct (comprehension _ _) as [names|]; result_simpl; [|done].
  destruct (bool_decide _); cbn [negb]; [|done].
  destruct (find_by (stage_named dest_stage_name) ws) as [[π stage]|]
    eqn:Hstage; cbn [fmap option_fmap option_map subscript_of snd];
    outcome_simpl; result_simpl; [|done].
  destruct (get_attr "uri" stage) as [su|] eqn:Hsu; result_simpl; [|done].
  destruct (api_get posted su None) as [ss|] eqn:Hss; result_simpl; [|done].
  apply find_by_elem in Hstage as [[Hn Hd]%stage_named_spec Hin].
  assert (Hfound : stage ∈ find_all "stage" ws).
  { unfold find_all, find_all_by. apply list_elem_of_fmap.
    exists (π, stage). split; [done|]. by apply list_elem_of_filter. }
  destruct (find "step" ss) as [step|] eqn:Hstep.
  - destruct (get_attr "uri" step) as [u|] eqn:Hu; result_simpl; [|done].
    intros [= <- <-]. split.
    + by exists cnf, wf, wf_uri, ws, stage.
    + exists ss. split; [done|]. rewrite Hstep. by exists u.
  - result_simpl. intros [= <- <-]. split.
    + by exists cnf, wf, wf_uri, ws, stage.
    + exists ss. split; [done|]. by rewrite Hstep.
Qed.

(** X19: [step_router] posts at most once, and only after its checks have
    passed: when it ends either nothing was posted and it has raised, or
    one routing message was posted, for the stage of that name of the
    active workflow and the artifact URIs without their suffixes. *)
Theorem step_router_posts_once_checked wf_name dest_stage_name art_uris
    action posted r posted' :
  step_router host render api_get api_post wf_name dest_stage_name art_uris
              action posted = (r, posted') →
  (posted' = posted ∧ ∃ f, r = Fail f)
  ∨ ∃ stage_uri,
      routable host api_get posted wf_name dest_stage_name stage_uri
      ∧ posted' = posted ++
          [mkRequest (host +:+ "route/artifacts")
                     (render stage_uri (strip_query <$> art_uris) action)].
Proof.
  unfold step_router.
  destruct (destination _ _ _ _ _) as [[stage_uri step_uri]|f] eqn:Hdest.
  - apply destination_Ok in Hdest as [Hroutable _].
    intros Hrun. right. exists stage_uri. split; [done|].
    destruct (api_post _ _) as [[]|].
    1-3: by injection Hrun as _ <-.
    destruct step_uri; [destruct (String.eqb action "assign")|];
      by injection Hrun as _ <-.
  - intros [= <- <-]. left. eauto.
Qed.

(** X20: a call of [step_router] with the action [assign] that returns has
    seen every routed artifact in the queue of the step of the stage, read
    after the post, unless the stage has no step or the artifact is a file
    (the last segment of its URI starts with [92-]). *)
Theorem step_router_assign_verified wf_name dest_stage_name art_uris posted
    posted' :
  step_router host render api_get api_post wf_name dest_stage_name art_uris
              "assign" posted = (Ok tt, posted') →
  ∃ stage_uri stage_soup,
    routable host api_get posted wf_name dest_stage_name stage_uri
    ∧ api_get posted stage_uri None = Ok stage_soup
    ∧ match find "step" stage_soup with
      | None => True
      | Some step =>
          ∃ u queue_soup,
            get_attr "uri" step = Return u
            ∧ api_get posted' (host +:+ "queues/" +:+ last_segment u) None
              = Ok queue_soup
            ∧ ∀ a, a ∈ art_uris →
                   file_uri (strip_query a) = true
                   ∨ ∃ tag, tag ∈ find_all "artifact" queue_soup
                            ∧ get_attr "uri" tag = Return (strip_query a)
      end.
Proof.
  unfold step_router.
  destruct (destination _ _ _ _ _) as [[stage_uri step_uri]|f] eqn:Hdest;
    [|done].
  apply destination_Ok in Hdest as [Hroutable (ss & Hss & Hstep)].
  destruct (api_post _ _) as [[]|]; [done..|].
  intros Hrun. exists stage_uri, ss. split; [done|]. split; [done|].
  destruct (find "step" ss) as [step|]; [|done].
  destruct Hstep as (u & Hu & ->). cbn [String.eqb Ascii.eqb Bool.eqb] in Hrun.
  injection Hrun as Hcheck <-.
  destruct (api_get (posted ++ _) _ None) as [qs|] eqn:Hqs; result_simpl;
    [|done].
  destruct (comprehension _ _) as [queue|] eqn:Hqueue; result_simpl; [|done].
  exists u, qs. split; [done|]. split; [done|].
  intros a Ha. rewrite check_queued_Ok in Hcheck.
  destruct (Hcheck (strip_query a)) as [Hf|Hq].
  { apply list_elem_of_fmap. eauto. }
  { by left. }
  right. apply comprehension_Forall2 in Hqueue.
  apply list_elem_of_lookup in Hq as [i Hi].
  destruct (Forall2_lookup_r _ _ _ _ _ Hqueue Hi) as (tag & Htag & Hattr).
  exists tag. split; [|done]. by apply list_elem_of_lookup_2 in Htag.
Qed.

End WithTransport.

(** X21: the queue check compares the routed URIs, which have lost their
    suffix, with the URIs of the queue as they are: against a queue whose
    URIs all carry a suffix, it passes for files only. *)
Theorem check_queued_suffixed_queue queue_art_uris art_uris :
  Forall (λ q, has_query q = true) queue_art_uris →
  check_queued queue_art_uris (strip_query <$> art_uris) = Ok tt
  ↔ Forall (λ a, file_uri (strip_query a) = true) art_uris.
Proof.
  intros Hqueue. rewrite check_queued_Ok, Forall_forall. split.
  - intros H a Ha. destruct (H (strip_query a)) as [Hf|Hq]; [|done|].
    { apply list_elem_of_fmap. eauto. }
    rewrite Forall_forall in Hqueue. apply Hqueue in Hq.
    by rewrite strip_query_clean in Hq.
  - intros H u (a & -> & Ha)%list_elem_of_fmap. left. by apply H.
Qed.

Lemma step_router_posts_once_checked_witness :
  (([] : list request) = [] ∧ ∃ f,
     Fail (CallError "There is no Sequence stage(step) in the Prep format.")
     = @Fail unit f)
  ∨ ∃ stage_uri,
      routable Lab.host Lab.router_get [] "Prep" "Sequence" stage_uri
      ∧ ([] : list request) = [] ++
          [mkRequest (Lab.host +:+ "route/artifacts")
                     (Lab.render stage_uri (strip_query <$> Lab.routed)
                                 "assign")].
Proof.
  apply (step_router_posts_once_checked Lab.host Lab.render Lab.router_get
           Lab.router_post "Prep" "Sequence" Lab.routed "assign" []).
  reflexivity.
Defined.

Lemma step_router_assign_verified_witness :
  ∃ stage_uri stage_soup,
    routable Lab.host Lab.router_get [] "Prep" "Extract" stage_uri
    ∧ Lab.router_get [] stage_uri None = Ok stage_soup
    ∧ match find "step" stage_soup with
      | None => True
      | Some step =>
          ∃ u queue_soup,
            get_attr "uri" step = Return u
            ∧ Lab.router_get [Lab.routing_message]
                (Lab.host +:+ "queues/" +:+ last_segment u) None
              = Ok queue_soup
            ∧ ∀ a, a ∈ Lab.routed →
                   file_uri (strip_query a) = true
                   ∨ ∃ tag, tag ∈ find_all "artifact" queue_soup
                            ∧ get_attr "uri" tag = Return (strip_query a)
      end.
Proof.
  apply (step_router_assign_verified Lab.host Lab.render Lab.router_get
           Lab.router_post "Prep" "Extract" Lab.routed [] 
           [Lab.routing_message]).
  reflexivity.
Defined.

Lemma check_queued_suffixed_queue_witness :
  check_queued ["https://lims/api/v2/artifacts/2-1?state=4"]
               (strip_query <$> ["https://lims/api/v2/artifacts/92-4?state=9"])
  = Ok tt
  ↔ Forall (λ a, file_uri (strip_query a) = true)
           ["https://lims/api/v2/artifacts/92-4?state=9"].
Proof.
  apply (check_queued_suffixed_queue
           ["https://lims/api/v2/artifacts/2-1?state=4"]
           ["https://lims/api/v2/artifacts/92-4?state=9"]).
  repeat constructor.
Defined.

End RouterFacts.
